(** * Column type detection and preprocessing of the sales forecasting toolkit

    A shallow embedding of [scripts/auto_data_analyzer.py] (class
    [AutoDataAnalyzer]) and of the two method-dispatching operations of
    [scripts/preprocessing.py] (class [DataPreprocessor]), with the
    properties the specification states about them.

    Tables live in a store and are named by references, as pandas data
    frames are: [df.copy()] allocates, [df[c] = s] writes in place.  Calls
    into pandas and scikit-learn whose result depends on parsing dates or
    numbers out of text, on printing floats, or on floating-point
    arithmetic are taken from a [Library] record, so every theorem holds
    for whatever those calls answer. *)

From Stdlib Require Import String Ascii List ZArith QArith Qcanon Lia.
From stdpp Require Import base decidable option list numbers strings gmap sorting pretty.

Local Open Scope string_scope.
Local Open Scope list_scope.

(** ** Cells, columns and tables *)

(** A cell of a column.  [VNull] stands for every value [isnull()] accepts
    (None, NaN, NaT); [VNum] for an int, float or bool cell, with the
    rationals standing for the floats; [VStr] for a string cell. *)
Inductive value :=
  | VNull
  | VNum (q : Qc)
  | VStr (s : string).

#[global] Instance value_eq_dec : EqDecision value.
Proof. solve_decision. Defined.

(** [str(series.dtype)], as far as the code looks at it. *)
Inductive dtype :=
  | dt_object
  | dt_int64
  | dt_float64
  | dt_bool
  | dt_datetime64
  | dt_string
  | dt_category.

#[global] Instance dtype_eq_dec : EqDecision dtype.
Proof. solve_decision. Defined.

Record Series := mkSeries { s_dtype : dtype; s_values : list value }.

#[global] Instance Series_eq_dec : EqDecision Series.
Proof. solve_decision. Defined.

(** A data frame: named columns, in order. *)
Definition Table := list (string * Series).

Definition num (z : Z) : Qc := Q2Qc (inject_Z z).

Definition isnull (v : value) : bool :=
  match v with VNull => true | _ => false end.

Definition notnull (v : value) : bool := negb (isnull v).

(** [series.dropna()] *)
Definition dropna (s : Series) : Series :=
  mkSeries (s_dtype s) (List.filter notnull (s_values s)).

(** [series.isnull().sum()] *)
Definition null_count_of (s : Series) : nat :=
  length (List.filter isnull (s_values s)).

(** [series.isnull().any()] *)
Definition has_null (s : Series) : bool := existsb isnull (s_values s).

(** [series.unique()]: the distinct values in order of first appearance. *)
Fixpoint unique_values (l : list value) : list value :=
  match l with
  | [] => []
  | v :: l' => v :: List.filter (fun w => negb (bool_decide (w = v))) (unique_values l')
  end.

(** [series.nunique()]: nulls are not counted. *)
Definition nunique (s : Series) : nat :=
  length (unique_values (List.filter notnull (s_values s))).

(** [series.head(n)] *)
Definition head (n : nat) (s : Series) : Series :=
  mkSeries (s_dtype s) (firstn n (s_values s)).

Definition slen (s : Series) : nat := length (s_values s).

(** [k / n] as the quotient the code compares with a threshold.  The code
    divides in double precision; for a column of fewer than 2^50 rows the
    comparison with 0.8 or with 0.5 comes out as for the exact quotient. *)
Definition ratio (k n : nat) : Qc := Q2Qc (Z.of_nat k # Pos.of_nat n).

Definition threshold_08 : Qc := Q2Qc (8 # 10).
Definition threshold_05 : Qc := Q2Qc (5 # 10).

(** ** Exceptions and results *)

Inductive exn :=
  | ValueError (msg : string)
  | KeyError (key : string)
  | TypeError (msg : string)
  | ZeroDivisionError
  | LibraryError (origin : string).

Inductive Outcome (A : Type) :=
  | Ok (a : A)
  | Raise (e : exn).
Arguments Ok {A} a.
Arguments Raise {A} e.

Definition obind {A B} (x : Outcome A) (k : A -> Outcome B) : Outcome B :=
  match x with
  | Ok a => k a
  | Raise e => Raise e
  end.

(** ** The date patterns of [_is_datetime_column] *)

Inductive pat_tok := PDigit | PLit (c : ascii).

Definition is_digit (c : ascii) : bool :=
  let n := nat_of_ascii c in (48 <=? n)%nat && (n <=? 57)%nat.

(** [re.match]: the pattern has to match a prefix of the string. *)
Fixpoint re_match (p : list pat_tok) (s : string) : bool :=
  match p with
  | [] => true
  | t :: p' =>
      match s with
      | EmptyString => false
      | String c s' =>
          (match t with
           | PDigit => is_digit c
           | PLit d => bool_decide (c = d)
           end) && re_match p' s'
      end
  end.

Definition digits (n : nat) : list pat_tok := repeat PDigit n.

Definition date_patterns : list (list pat_tok) :=
  [ digits 4 ++ [PLit "-"%char] ++ digits 2 ++ [PLit "-"%char] ++ digits 2;
    digits 2 ++ [PLit "/"%char] ++ digits 2 ++ [PLit "/"%char] ++ digits 4;
    digits 2 ++ [PLit "-"%char] ++ digits 2 ++ [PLit "-"%char] ++ digits 4;
    digits 4 ++ [PLit "/"%char] ++ digits 2 ++ [PLit "/"%char] ++ digits 2 ].

(** ** What pandas, numpy and scikit-learn are asked *)

Record Library := mkLibrary {
  (** [pd.to_datetime(series, errors='raise')]: [None] when it raises. *)
  pd_to_datetime : Series -> option Series;
  (** what [pd.to_numeric] makes of one string cell: [None] when the cell
      is not a number (it raises, or is coerced to NaN). *)
  str_to_numeric : string -> option Qc;
  (** [str(x)] of a number cell *)
  num_to_str : Qc -> string;
  (** [.dt.year], [.dt.month], [.dt.day], [.dt.dayofweek], [.dt.quarter] *)
  dt_year : Series -> Series;
  dt_month : Series -> Series;
  dt_day : Series -> Series;
  dt_dayofweek : Series -> Series;
  dt_quarter : Series -> Series;
  (** [np.sin(2 * np.pi * s / period)] and [np.cos(...)] *)
  np_sin_cycle : Z -> Series -> Series;
  np_cos_cycle : Z -> Series -> Series;
  (** [StandardScaler().fit_transform(columns)]: [None] when it raises. *)
  standard_scaler : list Series -> option (list Series);
  (** [MinMaxScaler().fit_transform(columns)] *)
  minmax_scaler : list Series -> option (list Series)
}.

(** ** The column type detector *)

Inductive detected :=
  | t_empty
  | t_datetime
  | t_numeric
  | t_categorical
  | t_text.

#[global] Instance detected_eq_dec : EqDecision detected.
Proof. solve_decision. Defined.

Inductive encoding :=
  | one_hot_encoding
  | label_encoding
  | target_encoding.

(** The report of [_analyze_column].  The fields that hold floats (the two
    percentages and the per-type statistics blocks) are left out; where
    computing one of them can raise, the raise is kept. *)
Record ColumnAnalysis := mkAnalysis {
  column_name : string;
  detected_type : detected;
  original_dtype : dtype;
  null_count : nat;
  unique_count : nat;
  sample_values : list value;
  encoding_recommendation : option encoding;
  preprocessing_needed : list string
}.

Section Detector.
Context (lib : Library).

(** [pd.to_numeric(series, errors='raise')] raises on a string cell that
    is not a number. *)
Definition to_numeric_raises (s : Series) : bool :=
  existsb (fun v => match v with
                    | VStr x => negb (bool_decide (is_Some (str_to_numeric lib x)))
                    | _ => false
                    end) (s_values s).

(** [pd.to_numeric(series, errors='coerce')]: such a cell becomes NaN. *)
Definition to_numeric_coerce (s : Series) : Series :=
  mkSeries dt_float64
    (map (fun v => match v with
                   | VStr x => match str_to_numeric lib x with
                               | Some q => VNum q
                               | None => VNull
                               end
                   | _ => v
                   end) (s_values s)).

(** [series.astype(str)], cell by cell *)
Definition astype_str (v : value) : string :=
  match v with
  | VNull => "nan"
  | VNum q => num_to_str lib q
  | VStr x => x
  end.

Definition _is_datetime_column (series : Series) : bool :=
  let sample := head (min 100 (slen series)) series in
  match pd_to_datetime lib sample with
  | Some _ => true
  | None =>
      let sample_str := map astype_str (s_values (head (min 100 (slen series)) series)) in
      existsb (fun pattern => existsb (re_match pattern) sample_str) date_patterns
  end.

Definition _is_numeric_column (series : Series) : bool :=
  if to_numeric_raises series then
    let numeric_count :=
      length (List.filter notnull (s_values (to_numeric_coerce series))) in
    bool_decide (threshold_08 < ratio numeric_count (slen series))%Qc
  else true.

Definition _is_categorical_column (series : Series) : bool :=
  let unique_ratio := ratio (nunique series) (slen series) in
  bool_decide (unique_ratio < threshold_05)%Qc
  || bool_decide (s_dtype series = dt_object).

Definition recommend (unique_count : nat) : encoding :=
  if (unique_count <=? 10)%nat then one_hot_encoding
  else if (unique_count <=? 50)%nat then label_encoding
  else target_encoding.

Definition _analyze_column (series : Series) (name : string) : Outcome ColumnAnalysis :=
  (* unique_percentage: nunique() / len(series), two Python ints *)
  if (slen series =? 0)%nat then Raise ZeroDivisionError else
  let analysis dt enc needed :=
    mkAnalysis name dt (s_dtype series) (null_count_of series) (nunique series)
               (firstn 5 (s_values (dropna series))) enc needed in
  let non_null_series := dropna series in
  if (slen non_null_series =? 0)%nat then Ok (analysis t_empty None [])
  else if _is_datetime_column non_null_series then
    (* date_range converts the whole column, not the sample *)
    match pd_to_datetime lib non_null_series with
    | None => Raise (LibraryError "to_datetime")
    | Some _ => Ok (analysis t_datetime None ["datetime_features_extraction"])
    end
  else if _is_numeric_column non_null_series then
    Ok (analysis t_numeric None
          ((if (0 <? null_count_of series)%nat then ["missing_value_imputation"] else [])
           ++ ["scaling_normalization"]))
  else if _is_categorical_column non_null_series then
    Ok (analysis t_categorical (Some (recommend (nunique series)))
          (["categorical_encoding"]
           ++ (if (0 <? null_count_of series)%nat then ["missing_value_imputation"] else [])))
  else
    Ok (analysis t_text None ["text_processing"]).

End Detector.

(** ** The fitted transformers of scikit-learn *)

(** The order in which [np.unique] and [min] compare cells of one kind;
    the missing value comes last. *)
Definition value_leb (a b : value) : bool :=
  match a, b with
  | _, VNull => true
  | VNull, _ => false
  | VNum p, VNum q => bool_decide (p <= q)%Qc
  | VStr s, VStr t => String.leb s t
  | VNum _, VStr _ => true
  | VStr _, VNum _ => false
  end.

Definition value_le (a b : value) : Prop := value_leb a b = true.

#[global] Instance value_le_dec : RelDecision value_le.
Proof. intros a b. unfold value_le. apply _. Defined.

Definition string_le (a b : string) : Prop := String.leb a b = true.

#[global] Instance string_le_dec : RelDecision string_le.
Proof. intros a b. unfold string_le. apply _. Defined.

Definition is_num (v : value) : bool :=
  match v with VNum _ => true | _ => false end.

Definition is_str (v : value) : bool :=
  match v with VStr _ => true | _ => false end.

(** Numbers and strings in one column cannot be ordered: sorting raises. *)
Definition mixed_kinds (l : list value) : bool :=
  existsb is_num l && existsb is_str l.

Definition count_of (v : value) (l : list value) : nat :=
  length (List.filter (fun w => bool_decide (w = v)) l).

Fixpoint index_of {A} `{EqDecision A} (x : A) (l : list A) : nat :=
  match l with
  | [] => 0
  | y :: l' => if bool_decide (y = x) then 0 else S (index_of x l')
  end.

Definition numbers_of (l : list value) : list Qc :=
  omap (fun v => match v with VNum q => Some q | _ => None end) l.

(** [np.nanmedian]: the middle of the sorted values, the mean of the two
    middle ones when their number is even. *)
Definition median (l : list Qc) : option Qc :=
  let sorted := merge_sort Qcle l in
  let n := length sorted in
  if (n =? 0)%nat then None
  else if Nat.even n then
    Some ((nth (n / 2 - 1) sorted 0 + nth (n / 2) sorted 0) / Q2Qc (2 # 1))%Qc
  else Some (nth (n / 2) sorted 0%Qc).

(** The most frequent value, the smallest one among several. *)
Definition most_frequent (l : list value) : option value :=
  let uniq := unique_values l in
  let best := list_max (map (fun v => count_of v l) uniq) in
  let ties := List.filter (fun v => (count_of v l =? best)%nat) uniq in
  List.head (merge_sort value_le ties).

(** [series.fillna(method='ffill')] *)
Fixpoint ffill_from (last : value) (l : list value) : list value :=
  match l with
  | [] => []
  | v :: l' =>
      let v' := if isnull v then last else v in
      v' :: ffill_from v' l'
  end.

Definition ffill (s : Series) : Series :=
  mkSeries (s_dtype s) (ffill_from VNull (s_values s)).

(** What a fitted transformer remembers. *)
Record Imputer := mkImputer { strategy : string; statistics_ : value }.

Inductive Encoder :=
  | OneHotEncoder (categories_ : list value)
  | LabelEncoder (classes_ : list string).

Inductive Scaler :=
  | StandardScaler (fitted_on : list Series)
  | MinMaxScaler (fitted_on : list Series).

Section Transformers.
Context (lib : Library).

(** [SimpleImputer(strategy='median').fit_transform(df[[column]]).flatten()]:
    the column is read as floats, which raises on a string that is not a
    number; a column without any value is dropped by the imputer, and the
    empty result does not fit the frame. *)
Definition impute_median (s : Series) : Outcome (Series * Imputer) :=
  if to_numeric_raises lib s then
    Raise (ValueError "Cannot use median strategy with non-numeric data")
  else
    let x := to_numeric_coerce lib s in
    match median (numbers_of (s_values x)) with
    | None => Raise (ValueError "Length of values does not match length of index")
    | Some m =>
        Ok (mkSeries dt_float64
              (map (fun v => if isnull v then VNum m else v) (s_values x)),
            mkImputer "median" (VNum m))
    end.

(** [SimpleImputer(strategy='most_frequent').fit_transform(df[[column]]).flatten()] *)
Definition impute_most_frequent (s : Series) : Outcome (Series * Imputer) :=
  let present := List.filter notnull (s_values s) in
  if mixed_kinds present then
    Raise (TypeError "'<' not supported between instances of 'str' and 'float'")
  else
    match most_frequent present with
    | None => Raise (ValueError "Length of values does not match length of index")
    | Some m =>
        Ok (mkSeries dt_object
              (map (fun v => if isnull v then m else v) (s_values s)),
            mkImputer "most_frequent" m)
    end.

(** The categories an encoder finds in a column: the distinct values,
    sorted. *)
Definition fit_categories (l : list value) : Outcome (list value) :=
  if mixed_kinds l then
    Raise (TypeError "Encoders require their input argument must be uniformly strings or numbers")
  else Ok (merge_sort value_le (unique_values l)).

(** One column of the indicator matrix. *)
Definition indicator (cat : value) (l : list value) : Series :=
  mkSeries dt_float64
    (map (fun v => if bool_decide (v = cat) then VNum 1%Qc else VNum 0%Qc) l).

(** [OneHotEncoder(sparse=False, handle_unknown='ignore').fit_transform(df[[column]])]
    with the names [f'{column}_{cat}'] the caller gives its columns. *)
Definition indicator_columns (column : string) (cats : list value) (l : list value) : Table :=
  map (fun cat => ((column ++ "_" ++ astype_str lib cat)%string, indicator cat l)) cats.

Definition one_hot_fit_transform (column : string) (s : Series)
  : Outcome (Table * Encoder) :=
  obind (fit_categories (s_values s)) (fun cats =>
    Ok (indicator_columns column cats (s_values s), OneHotEncoder cats)).

(** [LabelEncoder().fit_transform(series.astype(str))] *)
Definition label_fit_transform (s : Series) : Series * Encoder :=
  let strs := map (astype_str lib) (s_values s) in
  let classes := merge_sort string_le (remove_dups strs) in
  (mkSeries dt_int64 (map (fun x => VNum (num (Z.of_nat (index_of x classes)))) strs),
   LabelEncoder classes).

(** [pd.get_dummies(series, prefix=col)]: the missing value gets no column. *)
Definition get_dummies (col : string) (s : Series) : Outcome (list (string * Series)) :=
  obind (fit_categories (List.filter notnull (s_values s))) (fun cats =>
    Ok (indicator_columns col cats (s_values s))).

End Transformers.

(** ** The store: data frames by reference, and the registries of [self] *)

Record World := mkWorld {
  frames : gmap nat Table;
  next_ref : nat;
  imputers : gmap string Imputer;
  encoders : gmap string Encoder;
  scalers : gmap string Scaler
}.

(** A method body: it may raise, and it leaves a store behind either way. *)
Definition M (A : Type) : Type := World -> Outcome A * World.

Definition ret {A} (a : A) : M A := fun w => (Ok a, w).

Definition bind {A B} (c : M A) (k : A -> M B) : M B :=
  fun w =>
    match c w with
    | (Ok a, w') => k a w'
    | (Raise e, w') => (Raise e, w')
    end.

Definition raise {A} (e : exn) : M A := fun w => (Raise e, w).

Definition lift {A} (o : Outcome A) : M A := fun w => (o, w).

Declare Scope m_scope.
Delimit Scope m_scope with m.
Notation "x <- c ;; k" := (bind c (fun x => k))
  (at level 100, c at next level, right associativity) : m_scope.
Notation "c ;;; k" := (bind c (fun _ => k))
  (at level 100, right associativity) : m_scope.

(** [for x in l: body], with the local variables the body updates as [s]. *)
Fixpoint for_each {A S} (l : list A) (body : S -> A -> M S) (s : S) : M S :=
  match l with
  | [] => ret s
  | x :: l' => bind (body s x) (for_each l' body)
  end.

Definition columns (t : Table) : list string := map fst t.

Fixpoint table_get (t : Table) (c : string) : option Series :=
  match t with
  | [] => None
  | (c', s) :: t' => if bool_decide (c' = c) then Some s else table_get t' c
  end.

(** [df[c] = s]: an existing column keeps its place, a new one goes last. *)
Fixpoint table_set (t : Table) (c : string) (s : Series) : Table :=
  match t with
  | [] => [(c, s)]
  | (c', s') :: t' =>
      if bool_decide (c' = c) then (c, s) :: t' else (c', s') :: table_set t' c s
  end.

Definition table_drop (t : Table) (c : string) : Table :=
  List.filter (fun p => negb (bool_decide (fst p = c))) t.

Definition new_frame (t : Table) : M nat :=
  fun w => (Ok (next_ref w),
            mkWorld (<[next_ref w := t]> (frames w)) (S (next_ref w))
                    (imputers w) (encoders w) (scalers w)).

Definition read_frame (r : nat) : M Table :=
  fun w => match frames w !! r with
           | Some t => (Ok t, w)
           | None => (Raise (LibraryError "no such frame"), w)
           end.

Definition write_frame (r : nat) (t : Table) : M unit :=
  fun w => (Ok tt, mkWorld (<[r := t]> (frames w)) (next_ref w)
                           (imputers w) (encoders w) (scalers w)).

(** [df.copy()] *)
Definition df_copy (df : nat) : M nat :=
  (t <- read_frame df ;; new_frame t)%m.

(** [df.columns] *)
Definition df_columns (df : nat) : M (list string) :=
  (t <- read_frame df ;; ret (columns t))%m.

(** [df[c]] *)
Definition df_getitem (df : nat) (c : string) : M Series :=
  (t <- read_frame df ;;
   match table_get t c with
   | Some s => ret s
   | None => raise (KeyError c)
   end)%m.

(** [df[c] = s], in place *)
Definition df_setitem (df : nat) (c : string) (s : Series) : M unit :=
  (t <- read_frame df ;; write_frame df (table_set t c s))%m.

(** [df.drop(columns=[c])]: a new frame *)
Definition df_drop (df : nat) (c : string) : M nat :=
  (t <- read_frame df ;;
   if bool_decide (c ∈ columns t) then new_frame (table_drop t c)
   else raise (KeyError c))%m.

(** [pd.concat([df, DataFrame(new_columns)], axis=1)]: a new frame *)
Definition pd_concat (df : nat) (new_columns : Table) : M nat :=
  (t <- read_frame df ;; new_frame (t ++ new_columns))%m.

(** [self.imputers[k] = x], [self.encoders[k] = x], [self.scalers[k] = x] *)
Definition set_imputer (k : string) (x : Imputer) : M unit :=
  fun w => (Ok tt, mkWorld (frames w) (next_ref w)
                           (<[k := x]> (imputers w)) (encoders w) (scalers w)).

Definition set_encoder (k : string) (x : Encoder) : M unit :=
  fun w => (Ok tt, mkWorld (frames w) (next_ref w)
                           (imputers w) (<[k := x]> (encoders w)) (scalers w)).

Definition set_scaler (k : string) (x : Scaler) : M unit :=
  fun w => (Ok tt, mkWorld (frames w) (next_ref w)
                           (imputers w) (encoders w) (<[k := x]> (scalers w))).

Definition get_encoders : M (gmap string Encoder) := fun w => (Ok (encoders w), w).
Definition get_scalers : M (gmap string Scaler) := fun w => (Ok (scalers w), w).

(** [df[cols]] and [df[cols] = new_columns], column by column *)
Fixpoint df_getitems (df : nat) (cols : list string) : M (list Series) :=
  match cols with
  | [] => ret []
  | c :: cols' =>
      (s <- df_getitem df c ;; l <- df_getitems df cols' ;; ret (s :: l))%m
  end.

Fixpoint df_setitems (df : nat) (cols : list string) (new_columns : list Series) : M unit :=
  match cols, new_columns with
  | [], [] => ret tt
  | c :: cols', s :: l => (df_setitem df c s ;;; df_setitems df cols' l)%m
  | _, _ => raise (ValueError "Columns must be same length as key")
  end.

(** ** [AutoDataAnalyzer]: the preprocessing pipeline *)

Record SegmentationInfo := mkSegmentationInfo {
  seg_column : string;
  segments : list value;
  segment_counts : list (value * nat);
  total_segments : nat
}.

(** The record [prepare_for_modeling] returns; [processed_data] is the
    reference of the processed frame. *)
Record Prepared := mkPrepared {
  processed_data : nat;
  preprocessing_steps : list string;
  segmentation_info : option SegmentationInfo;
  feature_columns : list string;
  target_column : option string;
  encoders_used : gmap string Encoder;
  scalers_used : gmap string Scaler
}.

(** [column == target_column], where [target_column] may be [None] *)
Definition is_target (column : string) (target_column : option string) : bool :=
  bool_decide (Some column = target_column).

(** [(s >= 5).astype(int)] *)
Definition ge5_as_int (s : Series) : Series :=
  mkSeries dt_int64
    (map (fun v => match v with
                   | VNum q => if bool_decide (Q2Qc (5 # 1) <= q)%Qc then VNum 1%Qc else VNum 0%Qc
                   | _ => VNum 0%Qc
                   end) (s_values s)).

Section Analyzer.
Context (lib : Library).

(** The body of the loop of [_handle_missing_values], for one column. *)
Definition handle_missing_column (df processed_df : nat) (steps : list string)
    (column : string) : M (list string) :=
  (series <- df_getitem df column ;;
   if has_null series then
     column_info <- lift (_analyze_column lib series column) ;;
     match detected_type column_info with
     | t_numeric =>
         x <- df_getitem processed_df column ;;
         r <- lift (impute_median lib x) ;;
         df_setitem processed_df column (fst r) ;;;
         set_imputer column (snd r) ;;;
         ret (steps ++ [("Filled missing values in '" ++ column ++ "' with median value")%string])
     | t_categorical =>
         x <- df_getitem processed_df column ;;
         r <- lift (impute_most_frequent x) ;;
         df_setitem processed_df column (fst r) ;;;
         set_imputer column (snd r) ;;;
         ret (steps ++ [("Filled missing values in '" ++ column ++ "' with most frequent value")%string])
     | _ =>
         x <- df_getitem processed_df column ;;
         df_setitem processed_df column (ffill x) ;;;
         ret (steps ++ [("Forward filled missing values in '" ++ column ++ "'")%string])
     end
   else ret steps)%m.

Definition _handle_missing_values (df : nat) : M (nat * list string) :=
  (processed_df <- df_copy df ;;
   cols <- df_columns df ;;
   steps <- for_each cols (handle_missing_column df processed_df) [] ;;
   ret (processed_df, steps))%m.

(** [processed_df[dst] = f(processed_df[src])] *)
Definition derive (processed_df : nat) (dst src : string) (f : Series -> Series) : M unit :=
  (x <- df_getitem processed_df src ;; df_setitem processed_df dst (f x))%m.

Definition _process_datetime_columns (df : nat) : M (nat * list string) :=
  (processed_df <- df_copy df ;;
   cols <- df_columns df ;;
   steps <- for_each cols (fun steps column =>
     series <- df_getitem df column ;;
     column_info <- lift (_analyze_column lib series column) ;;
     match detected_type column_info with
     | t_datetime =>
         x <- df_getitem processed_df column ;;
         match pd_to_datetime lib x with
         | None => raise (LibraryError "to_datetime")
         | Some d =>
             df_setitem processed_df column d ;;;
             derive processed_df (column ++ "_year")%string column (dt_year lib) ;;;
             derive processed_df (column ++ "_month")%string column (dt_month lib) ;;;
             derive processed_df (column ++ "_day")%string column (dt_day lib) ;;;
             derive processed_df (column ++ "_dayofweek")%string column (dt_dayofweek lib) ;;;
             derive processed_df (column ++ "_quarter")%string column (dt_quarter lib) ;;;
             derive processed_df (column ++ "_is_weekend")%string column
                    (fun s => ge5_as_int (dt_dayofweek lib s)) ;;;
             derive processed_df (column ++ "_month_sin")%string (column ++ "_month")%string
                    (np_sin_cycle lib 12) ;;;
             derive processed_df (column ++ "_month_cos")%string (column ++ "_month")%string
                    (np_cos_cycle lib 12) ;;;
             derive processed_df (column ++ "_dayofweek_sin")%string (column ++ "_dayofweek")%string
                    (np_sin_cycle lib 7) ;;;
             derive processed_df (column ++ "_dayofweek_cos")%string (column ++ "_dayofweek")%string
                    (np_cos_cycle lib 7) ;;;
             ret (steps ++ [("Extracted datetime features from '" ++ column
                             ++ "': year, month, day, day_of_week, quarter, is_weekend, cyclical encodings")%string])
         end
     | _ => ret steps
     end) [] ;;
   ret (processed_df, steps))%m.

(** The body of the loop of [_encode_categorical_variables], for one
    column; [st] holds the local variables [processed_df] and [steps]. *)
Definition encode_column (df : nat) (target_column : option string)
    (st : nat * list string) (column : string) : M (nat * list string) :=
  (let processed_df := fst st in
   let steps := snd st in
   if is_target column target_column then ret st
   else
     series <- df_getitem df column ;;
     column_info <- lift (_analyze_column lib series column) ;;
     match detected_type column_info with
     | t_categorical =>
         let unique_count := unique_count column_info in
         if (unique_count <=? 10)%nat then
           x <- df_getitem processed_df column ;;
           r <- lift (one_hot_fit_transform lib column x) ;;
           dropped <- df_drop processed_df column ;;
           processed_df <- pd_concat dropped (fst r) ;;
           set_encoder column (snd r) ;;;
           ret (processed_df,
                steps ++ [("Applied one-hot encoding to '" ++ column ++ "' ("
                           ++ pretty unique_count ++ " categories)")%string])
         else
           x <- df_getitem processed_df column ;;
           let r := label_fit_transform lib x in
           df_setitem processed_df column (fst r) ;;;
           set_encoder column (snd r) ;;;
           ret (processed_df,
                steps ++ [("Applied label encoding to '" ++ column ++ "' ("
                           ++ pretty unique_count ++ " categories)")%string])
     | _ => ret st
     end)%m.

Definition _encode_categorical_variables (df : nat) (target_column : option string)
  : M (nat * list string) :=
  (processed_df <- df_copy df ;;
   cols <- df_columns df ;;
   for_each cols (encode_column df target_column) (processed_df, []))%m.

Definition _scale_numeric_features (df : nat) (target_column : option string)
  : M (nat * list string) :=
  (processed_df <- df_copy df ;;
   cols <- df_columns df ;;
   numeric_columns <- for_each cols (fun numeric_columns column =>
     if is_target column target_column then ret numeric_columns
     else
       series <- df_getitem df column ;;
       column_info <- lift (_analyze_column lib series column) ;;
       match detected_type column_info with
       | t_numeric => ret (numeric_columns ++ [column])
       | _ => ret numeric_columns
       end) [] ;;
   match numeric_columns with
   | [] => ret (processed_df, [])
   | _ =>
       xs <- df_getitems processed_df numeric_columns ;;
       match standard_scaler lib xs with
       | None => raise (LibraryError "StandardScaler")
       | Some ys =>
           df_setitems processed_df numeric_columns ys ;;;
           set_scaler "numeric_features" (StandardScaler xs) ;;;
           ret (processed_df,
                [("Applied standard scaling to " ++ pretty (length numeric_columns)
                  ++ " numeric columns")%string])
       end
   end)%m.

(** [segment_counts] is the mapping [value_counts().to_dict()], kept as a
    list of pairs; the order of its keys carries no meaning. *)
Definition _prepare_segmentation (df : nat) (segmentation_column : string)
  : M SegmentationInfo :=
  (series <- df_getitem df segmentation_column ;;
   let segments := unique_values (s_values series) in
   ret (mkSegmentationInfo segmentation_column segments
          (map (fun v => (v, count_of v (s_values series)))
               (List.filter notnull segments))
          (length segments)))%m.

(** [bool(segmentation_column)]: neither [None] nor the empty string *)
Definition truthy (name : option string) : option string :=
  match name with
  | Some "" => None
  | other => other
  end.

Definition prepare_for_modeling (df : nat) (target_column segmentation_column : option string)
  : M Prepared :=
  (processed_df <- df_copy df ;;
   (* Step 1: Handle missing values *)
   r1 <- _handle_missing_values processed_df ;;
   (* Step 2: Process datetime columns *)
   r2 <- _process_datetime_columns (fst r1) ;;
   (* Step 3: Encode categorical variables *)
   r3 <- _encode_categorical_variables (fst r2) target_column ;;
   (* Step 4: Scale numeric features *)
   r4 <- _scale_numeric_features (fst r3) target_column ;;
   let processed_df := fst r4 in
   let preprocessing_steps := snd r1 ++ snd r2 ++ snd r3 ++ snd r4 in
   (* Step 5: Prepare segmentation info *)
   final_columns <- df_columns processed_df ;;
   segmentation_info <-
     match truthy segmentation_column with
     | Some c =>
         if bool_decide (c ∈ final_columns)
         then (i <- _prepare_segmentation processed_df c ;; ret (Some i))
         else ret None
     | None => ret None
     end ;;
   encoders_used <- get_encoders ;;
   scalers_used <- get_scalers ;;
   ret (mkPrepared processed_df preprocessing_steps segmentation_info
          (List.filter (fun col => negb (is_target col target_column)) final_columns)
          target_column encoders_used scalers_used))%m.

End Analyzer.

(** ** [DataPreprocessor]: scaling and encoding by method name *)

Definition is_number_dtype (d : dtype) : bool :=
  match d with dt_int64 | dt_float64 => true | _ => false end.

(** [df.select_dtypes(include=...).columns] *)
Definition select_dtypes (keep : dtype -> bool) (t : Table) : list string :=
  columns (List.filter (fun p => keep (s_dtype (snd p))) t).

Section Preprocessor.
Context (lib : Library).

Definition scale_features (df : nat) (cols : option (list string)) (method : string) : M nat :=
  (cols <- match cols with
           | None => (t <- read_frame df ;; ret (select_dtypes is_number_dtype t))
           | Some l => ret l
           end ;;
   processed_df <- df_copy df ;;
   scaler <- (if bool_decide (method = "minmax") then ret (minmax_scaler lib, MinMaxScaler)
              else if bool_decide (method = "standard") then ret (standard_scaler lib, StandardScaler)
              else raise (ValueError "Method must be 'minmax' or 'standard'")) ;;
   xs <- df_getitems processed_df cols ;;
   match fst scaler xs with
   | None => raise (LibraryError "fit_transform")
   | Some ys =>
       df_setitems processed_df cols ys ;;;
       set_scaler method (snd scaler xs) ;;;
       ret processed_df
   end)%m.

Definition encode_categorical (df : nat) (cols : option (list string)) (method : string) : M nat :=
  (cols <- match cols with
           | None => (t <- read_frame df ;;
                      ret (select_dtypes (fun d => bool_decide (d = dt_object)) t))
           | Some l => ret l
           end ;;
   processed_df <- df_copy df ;;
   for_each cols (fun processed_df col =>
     if bool_decide (method = "label") then
       x <- df_getitem processed_df col ;;
       let r := label_fit_transform lib x in
       df_setitem processed_df col (fst r) ;;;
       set_encoder col (snd r) ;;;
       ret processed_df
     else if bool_decide (method = "onehot") then
       x <- df_getitem processed_df col ;;
       dummies <- lift (get_dummies lib col x) ;;
       dropped <- df_drop processed_df col ;;
       pd_concat dropped dummies
     else ret processed_df) processed_df)%m.

End Preprocessor.

(** ** A library instance to run the code on

    Dates are read from ISO date strings only, numbers from strings of
    decimal digits only; every number prints as 0.0, and the date fields
    and the scalers leave the columns as they are. *)

Definition iso_date : list pat_tok :=
  digits 4 ++ [PLit "-"%char] ++ digits 2 ++ [PLit "-"%char] ++ digits 2.

Definition is_iso_date (v : value) : bool :=
  match v with
  | VStr s => re_match iso_date s && (String.length s =? 10)%nat
  | VNull => true
  | VNum _ => false
  end.

Fixpoint digits_value (acc : Z) (s : string) : option Z :=
  match s with
  | EmptyString => Some acc
  | String c s' =>
      if is_digit c
      then digits_value (10 * acc + (Z.of_nat (nat_of_ascii c) - 48)) s'
      else None
  end.

Definition decimal_to_numeric (s : string) : option Qc :=
  match s with
  | EmptyString => None
  | _ => option_map num (digits_value 0 s)
  end.

Definition plain_library : Library :=
  mkLibrary
    (fun s => if forallb is_iso_date (s_values s)
              then Some (mkSeries dt_datetime64 (s_values s)) else None)
    decimal_to_numeric
    (fun _ => "0.0")
    (fun s => s) (fun s => s) (fun s => s) (fun s => s) (fun s => s)
    (fun _ s => s) (fun _ s => s)
    Some Some.

(** The store of a caller who holds one frame, under reference 0. *)
Definition world_of (t : Table) : World :=
  mkWorld {[ 0%nat := t ]} 1 ∅ ∅ ∅.

Definition obj (l : list value) : Series := mkSeries dt_object l.
Definition flt (l : list value) : Series := mkSeries dt_float64 l.

(** ** Notions the properties are stated with *)

(** A cell that [pd.to_numeric] reads as a number. *)
Definition parses_as_number (lib : Library) (v : value) : bool :=
  match v with
  | VNull => false
  | VNum _ => true
  | VStr x => bool_decide (is_Some (str_to_numeric lib x))
  end.

(** How many cells of a column are read as numbers. *)
Definition numeric_count (lib : Library) (s : Series) : nat :=
  length (List.filter (parses_as_number lib) (s_values s)).

(** A column of strings s0, s1, ... with [n] distinct values. *)
Definition labels (n : nat) : Series :=
  obj (map (fun i => VStr ("s" ++ pretty i)) (seq 0 n)).

(** The frames a caller holds, those below reference [n], are the same in
    both stores, and no reference is handed out twice. *)
Definition keeps_below (n : nat) (w w' : World) : Prop :=
  (next_ref w <= next_ref w')%nat
  /\ forall r, (r < n)%nat -> frames w' !! r = frames w !! r.

(** A method body that writes to no frame below [n], whether it returns or
    raises, and whose result satisfies [P] when it returns. *)
Definition safe {A} (n : nat) (c : M A) (P : A -> Prop) : Prop :=
  forall w, (n <= next_ref w)%nat ->
    keeps_below n w (snd (c w)) /\ forall a, fst (c w) = Ok a -> P a.

(** The registries of [self] are the same in both stores. *)
Definition same_registries (w w' : World) : Prop :=
  imputers w' = imputers w /\ encoders w' = encoders w /\ scalers w' = scalers w.

(** The tables of the scenarios. *)
Definition age_column : Series :=
  flt [VNum (num 25); VNum (num 30); VNull; VNum (num 40)].

Definition city_column : Series :=
  obj [VStr "NYC"; VStr "LA"; VStr "NYC"; VStr "NYC"; VStr "LA"].

Definition age_table : Table := [("age", age_column)].

Definition city_table : Table := [("city", city_column)].

Definition customers : Table :=
  [("age", age_column); ("city", obj [VStr "NYC"; VStr "LA"; VNull; VStr "NYC"])].

Definition orders : Table :=
  [("age", age_column);
   ("city", obj [VStr "NYC"; VStr "LA"; VNull; VStr "NYC"]);
   ("day", obj [VNull; VStr "2020-01-01"; VNull; VStr "2020-01-03"])].

(** What the loop of [_handle_missing_values] makes of one column. *)
Definition impute_column (lib : Library) (column : string) (s : Series) : Outcome Series :=
  if has_null s then
    obind (_analyze_column lib s column) (fun column_info =>
      match detected_type column_info with
      | t_numeric => obind (impute_median lib s) (fun r => Ok (fst r))
      | t_categorical => obind (impute_most_frequent s) (fun r => Ok (fst r))
      | _ => Ok (ffill s)
      end)
  else Ok s.

(** The nearest non-null cell before row [i], null when there is none. *)
Definition preceding_valid (l : list value) (i : nat) : value :=
  List.last (List.filter notnull (firstn i l)) VNull.

(** Column [s'] is column [s] imputed in the way that goes with the
    detected type of analysis [a]: the median of its numbers for a numeric
    column, a value that is most frequent for a categorical one, and for
    every other type the nearest non-null cell before each null. *)
Definition imputed_as_detected (lib : Library) (a : ColumnAnalysis) (s s' : Series) : Prop :=
  match detected_type a with
  | t_numeric =>
      exists m,
        median (numbers_of (s_values (to_numeric_coerce lib s))) = Some m
        /\ s_values s' = map (fun v => if isnull v then VNum m else v)
                             (s_values (to_numeric_coerce lib s))
  | t_categorical =>
      exists m,
        In m (s_values s)
        /\ isnull m = false
        /\ (forall v, (count_of v (List.filter notnull (s_values s))
                       <= count_of m (List.filter notnull (s_values s)))%nat)
        /\ s_values s' = map (fun v => if isnull v then m else v) (s_values s)
  | _ =>
      length (s_values s') = length (s_values s)
      /\ forall i v, s_values s !! i = Some v ->
           s_values s' !! i = Some (if isnull v then preceding_valid (s_values s) i else v)
  end.

(** What the loop of [_encode_categorical_variables] does with one column:
    nothing, a one-hot encoding on the categories found, or a label
    encoding. *)
Inductive encoding_action :=
  | Keep
  | OneHot (cats : list value)
  | Label.

Definition encoding_of (lib : Library) (target_column : option string)
    (column : string) (s : Series) : Outcome encoding_action :=
  if is_target column target_column then Ok Keep
  else
    obind (_analyze_column lib s column) (fun column_info =>
      match detected_type column_info with
      | t_categorical =>
          if (unique_count column_info <=? 10)%nat
          then obind (fit_categories (s_values s)) (fun cats => Ok (OneHot cats))
          else Ok Label
      | _ => Ok Keep
      end).

Definition apply_action (lib : Library) (column : string) (s : Series)
    (act : encoding_action) (tp : Table) : Table :=
  match act with
  | Keep => tp
  | OneHot cats => table_drop tp column ++ indicator_columns lib column cats (s_values s)
  | Label => table_set tp column (fst (label_fit_transform lib s))
  end.

(** The number in row [i] of a column, and the sum of row [i] over several
    columns. *)
Definition cell (s : Series) (i : nat) : Qc :=
  match s_values s !! i with
  | Some (VNum q) => q
  | _ => 0%Qc
  end.

Definition row_sum (cols : list Series) (i : nat) : Qc :=
  fold_right (fun s acc => (cell s i + acc)%Qc) 0%Qc cols.

(** No indicator column that stage 3 makes is named like a column of the
    table it works on. *)
Definition no_name_clash (lib : Library) (target_column : option string) (t : Table) : Prop :=
  forall c s cats,
    table_get t c = Some s ->
    encoding_of lib target_column c s = Ok (OneHot cats) ->
    forall cat, In cat cats -> (c ++ "_" ++ astype_str lib cat)%string ∉ columns t.

(** The same, as a test that can be run. *)
Definition no_name_clash_b (lib : Library) (target_column : option string) (t : Table) : bool :=
  forallb (fun p =>
    match encoding_of lib target_column (fst p) (snd p) with
    | Ok (OneHot cats) =>
        forallb (fun cat =>
          negb (bool_decide ((fst p ++ "_" ++ astype_str lib cat)%string ∈ columns t))) cats
    | _ => true
    end) t.

(** What a table holds for a column once its action is applied: the
    column as it was, no such column but one indicator column for each
    category, or the column of label codes. *)
Definition encoded_in (lib : Library) (c : string) (s : Series) (act : encoding_action)
    (tp : Table) : Prop :=
  match act with
  | Keep => table_get tp c = Some s
  | OneHot cats =>
      table_get tp c = None
      /\ forall cat, In cat cats ->
           In ((c ++ "_" ++ astype_str lib cat)%string, indicator cat (s_values s)) tp
  | Label => table_get tp c = Some (fst (label_fit_transform lib s))
  end.

Definition stores : Table :=
  [("city", obj [VStr "NYC"; VStr "LA"; VStr "NYC"; VStr "NYC"; VStr "LA"; VStr "LA";
                 VStr "NYC"; VStr "LA"; VStr "NYC"; VStr "NYC"; VStr "LA"]);
   ("store_id", labels 11)].

Definition region_column : Series :=
  obj [VStr "North"; VStr "South"; VStr "North"; VNull; VStr "South"; VStr "North"].

Definition region_table : Table := [("region", region_column)].

(** A string that begins like a date, in the sense of the four patterns. *)
Definition date_like (x : string) : bool :=
  existsb (fun pattern => re_match pattern x) date_patterns.

Definition diary_column : Series :=
  obj [VStr "12"; VStr "2020-01-01 was a good day"; VStr "15"; VStr "11"; VStr "14";
       VStr "13"; VStr "18"; VStr "16"; VStr "17"; VStr "19"].

(** The store after [df.copy()] of a frame that holds table [t]. *)
Definition copy_world (w : World) (t : Table) : World :=
  mkWorld (<[next_ref w := t]> (frames w)) (S (next_ref w))
          (imputers w) (encoders w) (scalers w).

Definition no_rows : Table :=
  [("sales", flt []); ("region", obj [])].

(** The columns stage 4 hands to the scaler: not the target, and numeric
    for the detector. *)
Definition is_scaled (lib : Library) (target_column : option string) (t : Table)
    (c : string) : bool :=
  negb (is_target c target_column)
  && match table_get t c with
     | Some s =>
         match _analyze_column lib s c with
         | Ok a => bool_decide (detected_type a = t_numeric)
         | Raise _ => false
         end
     | None => false
     end.

(** The store once frame [p] holds [tp]. *)
Definition put_frame (w : World) (p : nat) (tp : Table) : World :=
  mkWorld (<[p := tp]> (frames w)) (next_ref w) (imputers w) (encoders w) (scalers w).

(** Several assignments [df[name] = series], in order. *)
Definition table_sets (tp : Table) (l : list (string * Series)) : Table :=
  fold_left (fun t p => table_set t (fst p) (snd p)) l tp.

(** What stage 2 assigns for a datetime column, in the order of the
    assignments, once [pd.to_datetime] has made [d] of the column. *)
Definition datetime_features (lib : Library) (column : string) (d : Series)
  : list (string * Series) :=
  [(column, d);
   ((column ++ "_year")%string, dt_year lib d);
   ((column ++ "_month")%string, dt_month lib d);
   ((column ++ "_day")%string, dt_day lib d);
   ((column ++ "_dayofweek")%string, dt_dayofweek lib d);
   ((column ++ "_quarter")%string, dt_quarter lib d);
   ((column ++ "_is_weekend")%string, ge5_as_int (dt_dayofweek lib d));
   ((column ++ "_month_sin")%string, np_sin_cycle lib 12 (dt_month lib d));
   ((column ++ "_month_cos")%string, np_cos_cycle lib 12 (dt_month lib d));
   ((column ++ "_dayofweek_sin")%string, np_sin_cycle lib 7 (dt_dayofweek lib d));
   ((column ++ "_dayofweek_cos")%string, np_cos_cycle lib 7 (dt_dayofweek lib d))].

(** The names of those assignments. *)
Definition derived_names (column : string) : list string :=
  [column;
   (column ++ "_year")%string; (column ++ "_month")%string; (column ++ "_day")%string;
   (column ++ "_dayofweek")%string; (column ++ "_quarter")%string;
   (column ++ "_is_weekend")%string;
   (column ++ "_month_sin")%string; (column ++ "_month_cos")%string;
   (column ++ "_dayofweek_sin")%string; (column ++ "_dayofweek_cos")%string].

(** The columns of [t] that stage 2 treats as dates. *)
Definition is_datetime_in (lib : Library) (t : Table) (c : string) : bool :=
  match table_get t c with
  | Some s =>
      match _analyze_column lib s c with
      | Ok a => bool_decide (detected_type a = t_datetime)
      | Raise _ => false
      end
  | None => false
  end.

(** One turn of the loop of [_process_datetime_columns], as a function of
    the table [t] of [df] and of the local state: the table of
    [processed_df] and [steps]. *)
Definition datetime_column_pass (lib : Library) (t : Table) (st : Table * list string)
    (column : string) : Outcome (Table * list string) :=
  match table_get t column with
  | None => Raise (KeyError column)
  | Some series =>
      obind (_analyze_column lib series column) (fun column_info =>
        match detected_type column_info with
        | t_datetime =>
            match table_get (fst st) column with
            | None => Raise (KeyError column)
            | Some x =>
                match pd_to_datetime lib x with
                | None => Raise (LibraryError "to_datetime")
                | Some d =>
                    Ok (table_sets (fst st) (datetime_features lib column d),
                        snd st ++ [("Extracted datetime features from '" ++ column
                             ++ "': year, month, day, day_of_week, quarter, is_weekend, cyclical encodings")%string])
                end
            end
        | _ => Ok st
        end)
  end.

Fixpoint datetime_pass (lib : Library) (t : Table) (cols : list string)
    (st : Table * list string) : Outcome (Table * list string) :=
  match cols with
  | [] => Ok st
  | c :: cols' => obind (datetime_column_pass lib t st c) (datetime_pass lib t cols')
  end.

Definition calendar : Table :=
  [("day", obj [VStr "2020-01-01"; VStr "2020-01-03"; VStr "2020-01-04"]);
   ("units", flt [VNum (num 1); VNum (num 2); VNum (num 3)])].

(** A method body all of whose runs, returning or raising, take a store
    to one related to it by [R]. *)
Definition within (R : World -> World -> Prop) {A} (c : M A) : Prop :=
  forall w, R w (snd (c w)).

(** No key leaves a registry. *)
Definition registries_grow (w w' : World) : Prop :=
  (forall k, is_Some (imputers w !! k) -> is_Some (imputers w' !! k))
  /\ (forall k, is_Some (encoders w !! k) -> is_Some (encoders w' !! k))
  /\ (forall k, is_Some (scalers w !! k) -> is_Some (scalers w' !! k)).

(** What [AutoDataAnalyzer] does to the registries of [self]: no key
    leaves, and among the scalers only [numeric_features] is assigned. *)
Definition analyzer_registries (w w' : World) : Prop :=
  registries_grow w w'
  /\ forall k, k <> "numeric_features" -> scalers w' !! k = scalers w !! k.

(** What [DataPreprocessor.scale_features] does to them: only the scaler
    under the method name is assigned. *)
Definition scaling_registries (method : string) (w w' : World) : Prop :=
  imputers w' = imputers w
  /\ encoders w' = encoders w
  /\ forall k, k <> method -> scalers w' !! k = scalers w !! k.

(** What [DataPreprocessor.encode_categorical] does to them: encoders are
    assigned by the label method only, and only under the names of the
    columns to encode. *)
Definition encoding_registries (method : string) (cols : list string) (w w' : World) : Prop :=
  imputers w' = imputers w
  /\ scalers w' = scalers w
  /\ (method <> "label" -> encoders w' = encoders w)
  /\ forall k, k ∉ cols -> encoders w' !! k = encoders w !! k.

(** The encoder stage 3 registers for a column, by the action it takes. *)
Definition encoder_of (lib : Library) (s : Series) (act : encoding_action) : option Encoder :=
  match act with
  | Keep => None
  | OneHot cats => Some (OneHotEncoder cats)
  | Label => Some (snd (label_fit_transform lib s))
  end.

(* ================================================================== *)
(** * Properties *)

(** ** Arithmetic of the thresholds *)

Lemma pos_of_nat_Z (n : nat) : (0 < n)%nat -> Z.pos (Pos.of_nat n) = Z.of_nat n.
Proof.
  intros H. destruct n as [|n]; [lia|].
  rewrite <- Pos.of_nat_succ. lia.
Qed.

Lemma ratio_gt_08 (k n : nat) :
  (0 < n)%nat -> (threshold_08 < ratio k n)%Qc <-> (4 * n < 5 * k)%nat.
Proof.
  intros Hn. unfold Qclt, threshold_08, ratio. simpl this.
  rewrite !Qred_correct. unfold Qlt. simpl Qnum. simpl Qden.
  rewrite pos_of_nat_Z by exact Hn. lia.
Qed.

Lemma ratio_lt_05 (k n : nat) :
  (0 < n)%nat -> (ratio k n < threshold_05)%Qc <-> (2 * k < n)%nat.
Proof.
  intros Hn. unfold Qclt, threshold_05, ratio. simpl this.
  rewrite !Qred_correct. unfold Qlt. simpl Qnum. simpl Qden.
  rewrite pos_of_nat_Z by exact Hn. lia.
Qed.

(** ** The detector *)

Section DetectorFacts.
Context (lib : Library).

Lemma coerce_notnull_count (s : Series) :
  length (List.filter notnull (s_values (to_numeric_coerce lib s))) = numeric_count lib s.
Proof.
  unfold numeric_count, to_numeric_coerce. simpl.
  induction (s_values s) as [|v l IH]; [reflexivity|].
  simpl. destruct v as [|q|x]; simpl; try (f_equal; exact IH); try exact IH.
  destruct (str_to_numeric lib x) as [q|] eqn:E; simpl.
  - f_equal. exact IH.
  - exact IH.
Qed.

Lemma dropna_notnull (s : Series) :
  Forall (fun v => notnull v = true) (s_values (dropna s)).
Proof.
  unfold dropna. simpl. apply List.Forall_forall. intros v Hv.
  apply filter_In in Hv. tauto.
Qed.

Lemma no_raise_all_numeric (s : Series) :
  Forall (fun v => notnull v = true) (s_values s) ->
  to_numeric_raises lib s = false ->
  numeric_count lib s = slen s.
Proof.
  unfold to_numeric_raises, numeric_count, slen.
  induction (s_values s) as [|v l IH]; intros Hnn Hr; [reflexivity|].
  inversion Hnn as [|? ? Hv Hl]; subst.
  simpl in Hr. apply orb_false_iff in Hr as [Hr1 Hr2].
  simpl. destruct v as [|q|x]; simpl in *.
  - discriminate.
  - f_equal. auto.
  - apply negb_false_iff in Hr1. rewrite Hr1. simpl. f_equal. auto.
Qed.

Lemma numeric_count_le (s : Series) : (numeric_count lib s <= slen s)%nat.
Proof. unfold numeric_count, slen. apply filter_length_le. Qed.

(** The numeric test, as a comparison of whole numbers: more than four
    fifths of the cells are read as numbers. *)
Lemma is_numeric_column_iff (s : Series) :
  (0 < slen s)%nat ->
  Forall (fun v => notnull v = true) (s_values s) ->
  _is_numeric_column lib s = true <-> (4 * slen s < 5 * numeric_count lib s)%nat.
Proof.
  intros Hlen Hnn. unfold _is_numeric_column.
  destruct (to_numeric_raises lib s) eqn:Hr.
  - rewrite coerce_notnull_count, bool_decide_eq_true.
    apply ratio_gt_08. exact Hlen.
  - rewrite (no_raise_all_numeric s Hnn Hr). split; [lia | reflexivity].
Qed.

(** What [_analyze_column] answers once the empty and the datetime tests
    are behind it. *)
Lemma analyze_after_datetime (s : Series) (name : string) :
  (0 < slen (dropna s))%nat ->
  _is_datetime_column lib (dropna s) = false ->
  exists a, _analyze_column lib s name = Ok a
    /\ unique_count a = nunique s
    /\ detected_type a =
         (if _is_numeric_column lib (dropna s) then t_numeric
          else if _is_categorical_column (dropna s) then t_categorical
          else t_text).
Proof.
  intros Hlen Hdt. unfold _analyze_column.
  assert (Hs : (slen s =? 0)%nat = false).
  { apply Nat.eqb_neq. pose proof (filter_length_le notnull (s_values s)) as Hle.
    unfold slen, dropna in *. simpl in *. lia. }
  rewrite Hs.
  assert (Hd : (slen (dropna s) =? 0)%nat = false) by (apply Nat.eqb_neq; lia).
  rewrite Hd, Hdt.
  destruct (_is_numeric_column lib (dropna s)); [eexists; split; [reflexivity|]; split; reflexivity|].
  destruct (_is_categorical_column (dropna s)); eexists; (split; [reflexivity|]); split; reflexivity.
Qed.

Lemma analyze_categorical_inv (s : Series) (name : string) (a : ColumnAnalysis) :
  _analyze_column lib s name = Ok a ->
  detected_type a = t_categorical ->
  unique_count a = nunique s
  /\ encoding_recommendation a = Some (recommend (nunique s)).
Proof.
  unfold _analyze_column. intros H Ht.
  repeat match type of H with
         | (if ?c then _ else _) = _ => destruct c
         | match ?c with _ => _ end = _ => destruct c
         end;
    inversion H; subst; simpl in *; try discriminate; auto.
Qed.

End DetectorFacts.

(** *** The 80 percent threshold *)




(** *** The encoding recommendation *)

(** C3.  For a column the detector classifies as categorical, the
    recommendation is one-hot up to 10 distinct values, label from 11 to
    50, and target encoding from 51 on; [unique_count] is the number of
    distinct non-null values of the column. *)
Theorem C3_encoding_recommendation (lib : Library) (s : Series) (name : string)
    (a : ColumnAnalysis) :
  _analyze_column lib s name = Ok a ->
  detected_type a = t_categorical ->
  unique_count a = nunique s
  /\ ((unique_count a <= 10)%nat -> encoding_recommendation a = Some one_hot_encoding)
  /\ ((10 < unique_count a <= 50)%nat -> encoding_recommendation a = Some label_encoding)
  /\ ((50 < unique_count a)%nat -> encoding_recommendation a = Some target_encoding)
  /\ (unique_count a = 10%nat -> encoding_recommendation a = Some one_hot_encoding)
  /\ (unique_count a = 11%nat -> encoding_recommendation a = Some label_encoding)
  /\ (unique_count a = 51%nat -> encoding_recommendation a = Some target_encoding).
Proof.
  intros Ha Ht.
  destruct (analyze_categorical_inv lib s name a Ha Ht) as [Hu Hr].
  rewrite Hr, Hu. unfold recommend.
  split; [reflexivity|].
  repeat split; intros H;
    destruct (Nat.leb_spec (nunique s) 10); destruct (Nat.leb_spec (nunique s) 50);
    try reflexivity; lia.
Qed.

Lemma C3_witness :
  exists a, _analyze_column plain_library (labels 11) "store_id" = Ok a
    /\ detected_type a = t_categorical
    /\ unique_count a = 11%nat
    /\ encoding_recommendation a = Some label_encoding.
Proof.
  assert (H : exists a, _analyze_column plain_library (labels 11) "store_id" = Ok a
                /\ detected_type a = t_categorical).
  { eexists. split; [vm_compute; reflexivity | reflexivity]. }
  destruct H as (a & Ha & Ht). exists a.
  destruct (C3_encoding_recommendation plain_library (labels 11) "store_id" a Ha Ht)
    as (Hu & _ & _ & _ & _ & H11 & _).
  assert (Hn : unique_count a = 11%nat) by (rewrite Hu; vm_compute; reflexivity).
  repeat split; auto.
Defined.

Example recommendation_at_10 :
  obind (_analyze_column plain_library (labels 10) "store_id")
        (fun a => Ok (detected_type a, unique_count a, encoding_recommendation a))
  = Ok (t_categorical, 10%nat, Some one_hot_encoding).
Proof. vm_compute. reflexivity. Qed.

Example recommendation_at_51 :
  obind (_analyze_column plain_library (labels 51) "store_id")
        (fun a => Ok (detected_type a, unique_count a, encoding_recommendation a))
  = Ok (t_categorical, 51%nat, Some target_encoding).
Proof. vm_compute. reflexivity. Qed.

(** *** Object columns are never text *)

(** C10.  For a column of object dtype the detector never answers text;
    when such a column has a non-null value and fails the datetime and the
    numeric tests, the answer is categorical. *)
Theorem C10_object_never_text (lib : Library) (s : Series) (name : string) :
  s_dtype s = dt_object ->
  (0 < slen (dropna s))%nat ->
  (forall a, _analyze_column lib s name = Ok a -> detected_type a <> t_text)
  /\ (_is_datetime_column lib (dropna s) = false ->
      _is_numeric_column lib (dropna s) = false ->
      exists a, _analyze_column lib s name = Ok a /\ detected_type a = t_categorical).
Proof.
  intros Hobj Hlen.
  assert (Hcat : _is_categorical_column (dropna s) = true).
  { unfold _is_categorical_column. simpl. rewrite Hobj.
    rewrite (bool_decide_eq_true_2 (dt_object = dt_object)) by reflexivity.
    apply orb_true_r. }
  split.
  - intros a Ha. unfold _analyze_column in Ha. rewrite Hcat in Ha.
    repeat match type of Ha with
           | (if ?c then _ else _) = _ => destruct c
           | match ?c with _ => _ end = _ => destruct c
           end;
      inversion Ha; subst; simpl; discriminate.
  - intros Hdt Hnum.
    destruct (analyze_after_datetime lib s name Hlen Hdt) as (a & Ha & _ & Ht).
    exists a. split; [exact Ha|]. rewrite Ht, Hnum, Hcat. reflexivity.
Qed.

Lemma C10_witness :
  let s := obj [VStr "alpha"; VStr "beta"; VStr "gamma"] in
  s_dtype s = dt_object
  /\ (0 < slen (dropna s))%nat
  /\ (forall a, _analyze_column plain_library s "description" = Ok a ->
                detected_type a <> t_text)
  /\ exists a, _analyze_column plain_library s "description" = Ok a
       /\ detected_type a = t_categorical.
Proof.
  intros s.
  assert (Hobj : s_dtype s = dt_object) by reflexivity.
  assert (Hlen : (0 < slen (dropna s))%nat) by (vm_compute; lia).
  destruct (C10_object_never_text plain_library s "description" Hobj Hlen) as [H1 H2].
  split; [exact Hobj|]. split; [exact Hlen|]. split; [exact H1|].
  apply H2; reflexivity.
Defined.

(** ** Writes go to fresh frames only *)

Lemma keeps_below_refl (n : nat) (w : World) : keeps_below n w w.
Proof. split; [lia | reflexivity]. Qed.

Lemma keeps_below_trans (n : nat) (w1 w2 w3 : World) :
  keeps_below n w1 w2 -> keeps_below n w2 w3 -> keeps_below n w1 w3.
Proof.
  intros [H1 H2] [H3 H4]. split; [lia|].
  intros r Hr. rewrite H4, H2 by exact Hr. reflexivity.
Qed.

Lemma safe_ret {A} (n : nat) (a : A) (P : A -> Prop) : P a -> safe n (ret a) P.
Proof.
  intros HP w _. simpl. split; [apply keeps_below_refl|].
  intros a' H. inversion H; subst. exact HP.
Qed.

Lemma safe_raise {A} (n : nat) (e : exn) (P : A -> Prop) : safe n (raise e) P.
Proof.
  intros w _. simpl. split; [apply keeps_below_refl|]. intros a H. discriminate.
Qed.

Lemma safe_lift {A} (n : nat) (o : Outcome A) (P : A -> Prop) :
  (forall a, o = Ok a -> P a) -> safe n (lift o) P.
Proof.
  intros HP w _. simpl. split; [apply keeps_below_refl | exact HP].
Qed.

Lemma safe_bind {A B} (n : nat) (c : M A) (k : A -> M B) (P : A -> Prop) (Q : B -> Prop) :
  safe n c P -> (forall a, P a -> safe n (k a) Q) -> safe n (bind c k) Q.
Proof.
  intros Hc Hk w Hw. unfold bind.
  destruct (Hc w Hw) as [Hkeep HP].
  destruct (c w) as [[a|e] w1]; simpl in *.
  - destruct (Hk a (HP a eq_refl) w1) as [Hkeep' HQ].
    { destruct Hkeep. lia. }
    split; [eapply keeps_below_trans; eassumption | exact HQ].
  - split; [exact Hkeep | intros b H; discriminate].
Qed.

Lemma safe_weaken {A} (n : nat) (c : M A) (P Q : A -> Prop) :
  safe n c P -> (forall a, P a -> Q a) -> safe n c Q.
Proof.
  intros Hc HPQ w Hw. destruct (Hc w Hw) as [H1 H2]. split; auto.
Qed.

Lemma safe_for_each {A S} (n : nat) (l : list A) (body : S -> A -> M S) (I : S -> Prop) :
  (forall s x, I s -> safe n (body s x) I) ->
  forall s, I s -> safe n (for_each l body s) I.
Proof.
  intros Hbody. induction l as [|x l IH]; intros s Hs; simpl.
  - apply safe_ret. exact Hs.
  - eapply safe_bind; [apply Hbody; exact Hs | exact IH].
Qed.

Lemma safe_read_frame (n r : nat) : safe n (read_frame r) (fun _ => True).
Proof.
  intros w _. unfold read_frame. destruct (frames w !! r); simpl;
    (split; [apply keeps_below_refl | auto]).
Qed.

Lemma safe_new_frame (n : nat) (t : Table) : safe n (new_frame t) (fun r => (n <= r)%nat).
Proof.
  intros w Hw. unfold new_frame. simpl. split.
  - split; simpl; [lia|]. intros r Hr. apply lookup_insert_ne. lia.
  - intros a H. inversion H; subst. exact Hw.
Qed.

Lemma safe_write_frame (n r : nat) (t : Table) :
  (n <= r)%nat -> safe n (write_frame r t) (fun _ => True).
Proof.
  intros Hr w _. unfold write_frame. simpl. split; [|auto].
  split; simpl; [lia|]. intros r' Hr'. apply lookup_insert_ne. lia.
Qed.

Lemma safe_df_copy (n df : nat) : safe n (df_copy df) (fun r => (n <= r)%nat).
Proof.
  unfold df_copy. eapply safe_bind; [apply safe_read_frame|].
  intros t _. apply safe_new_frame.
Qed.

Lemma safe_df_columns (n df : nat) : safe n (df_columns df) (fun _ => True).
Proof.
  unfold df_columns. eapply safe_bind; [apply safe_read_frame|].
  intros t _. apply safe_ret. exact I.
Qed.

Lemma safe_df_getitem (n df : nat) (c : string) : safe n (df_getitem df c) (fun _ => True).
Proof.
  unfold df_getitem. eapply safe_bind; [apply safe_read_frame|].
  intros t _. destruct (table_get t c); [apply safe_ret; exact I | apply safe_raise].
Qed.

Lemma safe_df_setitem (n df : nat) (c : string) (s : Series) :
  (n <= df)%nat -> safe n (df_setitem df c s) (fun _ => True).
Proof.
  intros H. unfold df_setitem. eapply safe_bind; [apply safe_read_frame|].
  intros t _. apply safe_write_frame. exact H.
Qed.

Lemma safe_df_drop (n df : nat) (c : string) : safe n (df_drop df c) (fun r => (n <= r)%nat).
Proof.
  unfold df_drop. eapply safe_bind; [apply safe_read_frame|].
  intros t _. destruct (bool_decide (c ∈ columns t)); [apply safe_new_frame | apply safe_raise].
Qed.

Lemma safe_pd_concat (n df : nat) (new_columns : Table) :
  safe n (pd_concat df new_columns) (fun r => (n <= r)%nat).
Proof.
  unfold pd_concat. eapply safe_bind; [apply safe_read_frame|].
  intros t _. apply safe_new_frame.
Qed.

Lemma safe_set_imputer (n : nat) (k : string) (x : Imputer) :
  safe n (set_imputer k x) (fun _ => True).
Proof. intros w _. split; [split; simpl; [lia | reflexivity] | auto]. Qed.

Lemma safe_set_encoder (n : nat) (k : string) (x : Encoder) :
  safe n (set_encoder k x) (fun _ => True).
Proof. intros w _. split; [split; simpl; [lia | reflexivity] | auto]. Qed.

Lemma safe_set_scaler (n : nat) (k : string) (x : Scaler) :
  safe n (set_scaler k x) (fun _ => True).
Proof. intros w _. split; [split; simpl; [lia | reflexivity] | auto]. Qed.

Lemma safe_get_encoders (n : nat) : safe n get_encoders (fun _ => True).
Proof. intros w _. split; [apply keeps_below_refl | auto]. Qed.

Lemma safe_get_scalers (n : nat) : safe n get_scalers (fun _ => True).
Proof. intros w _. split; [apply keeps_below_refl | auto]. Qed.

Lemma safe_df_getitems (n df : nat) (cols : list string) :
  safe n (df_getitems df cols) (fun _ => True).
Proof.
  induction cols as [|c cols IH]; simpl; [apply safe_ret; exact I|].
  eapply safe_bind; [apply safe_df_getitem|]. intros s _.
  eapply safe_bind; [exact IH|]. intros l _. apply safe_ret. exact I.
Qed.

Lemma safe_df_setitems (n df : nat) (cols : list string) (l : list Series) :
  (n <= df)%nat -> safe n (df_setitems df cols l) (fun _ => True).
Proof.
  intros H. revert l. induction cols as [|c cols IH]; intros [|s l]; simpl;
    try apply safe_raise; [apply safe_ret; exact I|].
  eapply safe_bind; [apply safe_df_setitem; exact H|]. intros _ _. apply IH.
Qed.

Lemma safe_derive (n df : nat) (dst src : string) (f : Series -> Series) :
  (n <= df)%nat -> safe n (derive df dst src f) (fun _ => True).
Proof.
  intros H. unfold derive. eapply safe_bind; [apply safe_df_getitem|].
  intros x _. apply safe_df_setitem. exact H.
Qed.

Lemma safe_lift_any {A} (n : nat) (o : Outcome A) : safe n (lift o) (fun _ => True).
Proof. apply safe_lift. auto. Qed.

Create HintDb safe.
#[local] Hint Resolve safe_read_frame safe_new_frame safe_write_frame safe_df_copy
  safe_df_columns safe_df_getitem safe_df_setitem safe_df_drop safe_pd_concat
  safe_set_imputer safe_set_encoder safe_set_scaler safe_get_encoders safe_get_scalers
  safe_df_getitems safe_df_setitems safe_derive safe_lift_any : safe.

Ltac safe_tac :=
  repeat first
    [ progress intros
    | apply safe_ret; simpl; first [exact I | lia | assumption]
    | apply safe_raise
    | eapply safe_bind; [ solve [eauto with safe] | ]
    | match goal with
      | |- safe _ (match ?x with _ => _ end) _ => destruct x
      end ].

Section PipelineWrites.
Context (lib : Library).

Lemma safe_handle_missing_values (n df : nat) :
  safe n (_handle_missing_values lib df) (fun r => (n <= fst r)%nat).
Proof.
  unfold _handle_missing_values.
  eapply safe_bind; [apply safe_df_copy|]. intros processed_df Hp.
  eapply safe_bind; [apply safe_df_columns|]. intros cols _.
  eapply safe_bind with (P := fun _ => True).
  - apply safe_for_each; [|exact I]. intros steps column _.
    unfold handle_missing_column. safe_tac.
  - intros steps _. apply safe_ret. exact Hp.
Qed.

Lemma safe_process_datetime_columns (n df : nat) :
  safe n (_process_datetime_columns lib df) (fun r => (n <= fst r)%nat).
Proof.
  unfold _process_datetime_columns.
  eapply safe_bind; [apply safe_df_copy|]. intros processed_df Hp.
  eapply safe_bind; [apply safe_df_columns|]. intros cols _.
  eapply safe_bind with (P := fun _ => True).
  - apply safe_for_each; [|exact I]. intros steps column _. safe_tac.
  - intros steps _. apply safe_ret. exact Hp.
Qed.

Lemma safe_encode_categorical_variables (n df : nat) (target : option string) :
  safe n (_encode_categorical_variables lib df target) (fun r => (n <= fst r)%nat).
Proof.
  unfold _encode_categorical_variables.
  eapply safe_bind; [apply safe_df_copy|]. intros processed_df Hp.
  eapply safe_bind; [apply safe_df_columns|]. intros cols _.
  apply safe_for_each; [|exact Hp].
  intros [p steps] column Hst. simpl in Hst. unfold encode_column.
  simpl fst. simpl snd. safe_tac.
Qed.

Lemma safe_scale_numeric_features (n df : nat) (target : option string) :
  safe n (_scale_numeric_features lib df target) (fun r => (n <= fst r)%nat).
Proof.
  unfold _scale_numeric_features.
  eapply safe_bind; [apply safe_df_copy|]. intros processed_df Hp.
  eapply safe_bind; [apply safe_df_columns|]. intros cols _.
  eapply safe_bind with (P := fun _ => True).
  - apply safe_for_each; [|exact I]. intros numeric_columns column _. safe_tac.
  - intros numeric_columns _. safe_tac.
Qed.

Lemma safe_prepare_segmentation (n df : nat) (c : string) :
  safe n (_prepare_segmentation df c) (fun _ => True).
Proof. unfold _prepare_segmentation. safe_tac. Qed.

Lemma safe_prepare_for_modeling (n df : nat) (target seg : option string) :
  safe n (prepare_for_modeling lib df target seg) (fun r => (n <= processed_data r)%nat).
Proof.
  unfold prepare_for_modeling.
  eapply safe_bind; [apply safe_df_copy|]. intros processed_df Hp.
  eapply safe_bind; [apply safe_handle_missing_values|]. intros r1 H1.
  eapply safe_bind; [apply safe_process_datetime_columns|]. intros r2 H2.
  eapply safe_bind; [apply safe_encode_categorical_variables|]. intros r3 H3.
  eapply safe_bind; [apply safe_scale_numeric_features|]. intros r4 H4.
  eapply safe_bind; [apply safe_df_columns|]. intros final_columns _.
  eapply safe_bind with (P := fun _ => True).
  - destruct (truthy seg) as [c|]; [|apply safe_ret; exact I].
    destruct (bool_decide (c ∈ final_columns)); [|apply safe_ret; exact I].
    eapply safe_bind; [apply safe_prepare_segmentation|]. intros i _.
    apply safe_ret. exact I.
  - intros info _. safe_tac.
Qed.

End PipelineWrites.

(** ** The caller's table *)

(** C7.  Whatever [prepare_for_modeling] does, and whether it returns or
    raises, every frame the caller holds is afterwards what it was before;
    the processed table it returns is a fresh frame. *)
Theorem C7_caller_table_not_mutated (lib : Library) (w : World) (df d : nat)
    (target seg : option string) :
  (d < next_ref w)%nat ->
  frames (snd (prepare_for_modeling lib df target seg w)) !! d = frames w !! d
  /\ forall r, fst (prepare_for_modeling lib df target seg w) = Ok r ->
               processed_data r <> d.
Proof.
  intros Hd.
  destruct (safe_prepare_for_modeling lib (next_ref w) df target seg w (Nat.le_refl _))
    as [[_ Hframes] Hres].
  split; [apply Hframes; exact Hd|].
  intros r Hr. specialize (Hres r Hr). lia.
Qed.

Lemma C7_witness :
  let w := world_of customers in
  (0 < next_ref w)%nat
  /\ frames (snd (prepare_for_modeling plain_library 0 (Some "age") (Some "city") w)) !! 0%nat
     = frames w !! 0%nat
  /\ forall r, fst (prepare_for_modeling plain_library 0 (Some "age") (Some "city") w) = Ok r ->
               processed_data r <> 0%nat.
Proof.
  intros w.
  assert (H : (0 < next_ref w)%nat) by (vm_compute; lia).
  split; [exact H|].
  exact (C7_caller_table_not_mutated plain_library w 0 0 (Some "age") (Some "city") H).
Defined.

(** ** An absent segmentation column *)

Lemma df_columns_inv (df : nat) (w w' : World) (l : list string) :
  df_columns df w = (Ok l, w') ->
  w' = w /\ exists t, frames w !! df = Some t /\ l = columns t.
Proof.
  unfold df_columns, bind, read_frame, ret. destruct (frames w !! df) as [t|]; intros H;
    inversion H; subst. eauto.
Qed.

(** C9.  When the four stages complete and the segmentation column that is
    asked for is not a column of the processed table, the call returns
    what it returns without a segmentation column: the same processed
    table, steps, feature columns and registries, and no segmentation
    info. *)
Theorem C9_absent_segmentation_column (lib : Library) (w w' : World) (df : nat)
    (target : option string) (seg : string) (r : Prepared) (t : Table) :
  prepare_for_modeling lib df target None w = (Ok r, w') ->
  frames w' !! processed_data r = Some t ->
  seg ∉ columns t ->
  prepare_for_modeling lib df target (Some seg) w = (Ok r, w')
  /\ segmentation_info r = None.
Proof.
  unfold prepare_for_modeling. intros Hrun Ht Hseg.
  unfold bind at 1 in Hrun. unfold bind at 1.
  destruct (df_copy df w) as [[p0|e] w0]; [|discriminate].
  unfold bind at 1 in Hrun. unfold bind at 1.
  destruct (_handle_missing_values lib p0 w0) as [[r1|e] w1]; [|discriminate].
  unfold bind at 1 in Hrun. unfold bind at 1.
  destruct (_process_datetime_columns lib r1.1 w1) as [[r2|e] w2]; [|discriminate].
  unfold bind at 1 in Hrun. unfold bind at 1.
  destruct (_encode_categorical_variables lib r2.1 target w2) as [[r3|e] w3]; [|discriminate].
  unfold bind at 1 in Hrun. unfold bind at 1.
  destruct (_scale_numeric_features lib r3.1 target w3) as [[r4|e] w4]; [|discriminate].
  unfold bind at 1 in Hrun. unfold bind at 1.
  destruct (df_columns r4.1 w4) as [[final_columns|e] w5] eqn:Hcols; [|discriminate].
  apply df_columns_inv in Hcols as (-> & t4 & Ht4 & ->).
  simpl truthy in Hrun.
  unfold bind, ret, get_encoders, get_scalers in Hrun. simpl in Hrun.
  inversion Hrun; subst; clear Hrun. simpl in Ht.
  rewrite Ht4 in Ht. inversion Ht; subst; clear Ht.
  split; [|reflexivity].
  assert (Hnot : match truthy (Some seg) with
                 | Some c => bool_decide (c ∈ columns t) = false
                 | None => True
                 end).
  { destruct (truthy (Some seg)) as [c|] eqn:E; [|exact I].
    assert (c = seg) as ->.
    { destruct seg as [|a s']; simpl in E; [discriminate | inversion E; reflexivity]. }
    apply bool_decide_eq_false_2. exact Hseg. }
  destruct (truthy (Some seg)) as [c|].
  - rewrite Hnot. reflexivity.
  - reflexivity.
Qed.

Lemma C9_witness :
  exists r w' t,
    prepare_for_modeling plain_library 0 None None (world_of customers) = (Ok r, w')
    /\ frames w' !! processed_data r = Some t
    /\ ("region" ∉ columns t)
    /\ prepare_for_modeling plain_library 0 None (Some "region") (world_of customers) = (Ok r, w')
    /\ segmentation_info r = None.
Proof.
  destruct (prepare_for_modeling plain_library 0 None None (world_of customers))
    as [[r|e] w'] eqn:Hrun; [|vm_compute in Hrun; discriminate].
  destruct (frames w' !! processed_data r) as [t|] eqn:Ht.
  - assert (Hseg : "region" ∉ columns t).
    { vm_compute in Hrun. inversion Hrun; subst; clear Hrun.
      vm_compute in Ht. inversion Ht; subst; clear Ht.
      apply (bool_decide_eq_false_1 _). vm_compute. reflexivity. }
    exists r, w', t.
    destruct (C9_absent_segmentation_column plain_library (world_of customers) w' 0 None
                "region" r t Hrun Ht Hseg) as [H1 H2].
    repeat split; assumption.
  - exfalso. vm_compute in Hrun. inversion Hrun; subst; clear Hrun.
    vm_compute in Ht. discriminate.
Defined.

(** ** Unsupported method names in [DataPreprocessor] *)

Lemma read_frame_some (df : nat) (w : World) (t : Table) :
  frames w !! df = Some t -> read_frame df w = (Ok t, w).
Proof. intros H. unfold read_frame. rewrite H. reflexivity. Qed.

(** C8, as amended.  A call of [scale_features] with a method name other
    than minmax and standard raises [ValueError] with the fixed message
    of the code, which does not name the method that was asked for.  The
    raise comes after the table was copied and before anything else: every
    frame the caller holds is unchanged and the registries are not
    updated. *)
Theorem C8_scale_features_unsupported_method (lib : Library) (w : World) (df : nat)
    (t : Table) (cols : option (list string)) (method : string) :
  frames w !! df = Some t ->
  method <> "minmax" ->
  method <> "standard" ->
  fst (scale_features lib df cols method w)
    = Raise (ValueError "Method must be 'minmax' or 'standard'")
  /\ same_registries w (snd (scale_features lib df cols method w))
  /\ forall r, r <> next_ref w ->
       frames (snd (scale_features lib df cols method w)) !! r = frames w !! r.
Proof.
  intros Ht Hm Hs. unfold scale_features.
  assert (Hcols : forall k : list string -> M nat,
             bind (match cols with
                   | None => bind (read_frame df) (fun t => ret (select_dtypes is_number_dtype t))
                   | Some l => ret l
                   end) k w
             = k (match cols with
                  | None => select_dtypes is_number_dtype t
                  | Some l => l
                  end) w).
  { intros k. destruct cols; unfold bind, ret; [reflexivity|].
    rewrite (read_frame_some df w t Ht). reflexivity. }
  rewrite Hcols.
  unfold bind, df_copy, bind. rewrite (read_frame_some df w t Ht).
  unfold new_frame at 1. cbv beta iota.
  rewrite (bool_decide_eq_false_2 _ Hm), (bool_decide_eq_false_2 _ Hs).
  unfold raise. simpl.
  split; [reflexivity|]. split; [repeat split|].
  intros r Hr. apply lookup_insert_ne. congruence.
Qed.

Lemma C8_witness :
  let w := world_of customers in
  frames w !! 0%nat = Some customers
  /\ "robust" <> "minmax"
  /\ "robust" <> "standard"
  /\ fst (scale_features plain_library 0 None "robust" w)
       = Raise (ValueError "Method must be 'minmax' or 'standard'")
  /\ same_registries w (snd (scale_features plain_library 0 None "robust" w))
  /\ forall r, r <> next_ref w ->
       frames (snd (scale_features plain_library 0 None "robust" w)) !! r = frames w !! r.
Proof.
  intros w.
  assert (Ht : frames w !! 0%nat = Some customers) by reflexivity.
  assert (Hm : "robust" <> "minmax") by discriminate.
  assert (Hs : "robust" <> "standard") by discriminate.
  split; [exact Ht|]. split; [exact Hm|]. split; [exact Hs|].
  exact (C8_scale_features_unsupported_method plain_library w 0 customers None "robust" Ht Hm Hs).
Defined.

(** Two different unsupported scaling methods raise one and the same
    exception, so the exception does not carry the method name; and an
    unsupported encoding method raises nothing: the call returns a copy of
    the table. *)
Lemma C8_counterexample :
  let w := world_of customers in
  fst (scale_features plain_library 0 None "robust" w)
    = Raise (ValueError "Method must be 'minmax' or 'standard'")
  /\ fst (scale_features plain_library 0 None "zscore" w)
    = Raise (ValueError "Method must be 'minmax' or 'standard'")
  /\ fst (encode_categorical plain_library 0 None "target" w) = Ok 1%nat
  /\ frames (snd (encode_categorical plain_library 0 None "target" w)) !! 1%nat
     = Some customers.
Proof. intros w. repeat split; vm_compute; reflexivity. Qed.

(** An encoding method other than label and onehot is ignored: the call
    returns a copy of the table and leaves the registries alone. *)
Lemma encode_categorical_unsupported_method (lib : Library) (w : World) (df : nat)
    (t : Table) (cols : list string) (method : string) :
  frames w !! df = Some t ->
  method <> "label" ->
  method <> "onehot" ->
  fst (encode_categorical lib df (Some cols) method w) = Ok (next_ref w)
  /\ frames (snd (encode_categorical lib df (Some cols) method w)) !! next_ref w = Some t
  /\ same_registries w (snd (encode_categorical lib df (Some cols) method w)).
Proof.
  intros Ht Hm Hs.
  assert (H : forall l p w0,
             for_each l (fun (processed_df : nat) (_ : string) => ret processed_df) p w0
             = (Ok p, w0)).
  { induction l as [|x l IH]; intros p w0; simpl; [reflexivity|].
    unfold bind, ret at 1. apply IH. }
  assert (Hrun : encode_categorical lib df (Some cols) method w
                 = (Ok (next_ref w),
                    mkWorld (<[next_ref w := t]> (frames w)) (S (next_ref w))
                            (imputers w) (encoders w) (scalers w))).
  { unfold encode_categorical.
    unfold bind at 1, ret at 1. unfold bind at 1, df_copy, bind at 1.
    rewrite (read_frame_some df w t Ht). unfold new_frame.
    rewrite (bool_decide_eq_false_2 _ Hm), (bool_decide_eq_false_2 _ Hs).
    apply H. }
  rewrite Hrun. simpl. split; [reflexivity|]. split; [apply lookup_insert_eq | repeat split].
Qed.

(** ** Tables and runs *)

Lemma table_get_some_in (t : Table) (c : string) (s : Series) :
  table_get t c = Some s -> c ∈ columns t.
Proof.
  induction t as [|[c' s'] t IH]; simpl; [discriminate|].
  case_bool_decide as E; intros H.
  - subst. apply elem_of_cons. auto.
  - apply elem_of_cons. auto.
Qed.

Lemma table_get_in (t : Table) (c : string) :
  c ∈ columns t -> exists s, table_get t c = Some s.
Proof.
  induction t as [|[c' s'] t IH]; simpl; intros H.
  - apply elem_of_nil in H. contradiction.
  - case_bool_decide as E; [eauto|].
    apply elem_of_cons in H as [H|H]; [congruence | auto].
Qed.

Lemma table_get_set_eq (t : Table) (c : string) (s : Series) :
  table_get (table_set t c s) c = Some s.
Proof.
  induction t as [|[c' s'] t IH]; simpl.
  - rewrite bool_decide_eq_true_2; reflexivity.
  - case_bool_decide as E; simpl.
    + rewrite bool_decide_eq_true_2; reflexivity.
    + rewrite bool_decide_eq_false_2 by exact E. exact IH.
Qed.

Lemma table_get_set_ne (t : Table) (c c' : string) (s : Series) :
  c <> c' -> table_get (table_set t c s) c' = table_get t c'.
Proof.
  intros Hne. induction t as [|[c0 s0] t IH]; simpl.
  - rewrite bool_decide_eq_false_2; [reflexivity | exact Hne].
  - case_bool_decide as E; simpl.
    + subst c0. rewrite !bool_decide_eq_false_2 by exact Hne. reflexivity.
    + case_bool_decide; [reflexivity | exact IH].
Qed.

Lemma columns_table_set (t : Table) (c : string) (s : Series) :
  c ∈ columns t -> columns (table_set t c s) = columns t.
Proof.
  induction t as [|[c0 s0] t IH]; simpl; intros H.
  - apply elem_of_nil in H. contradiction.
  - case_bool_decide as E; simpl; [congruence|].
    apply elem_of_cons in H as [H|H]; [congruence|].
    f_equal. auto.
Qed.

Lemma table_set_id (t : Table) (c : string) (s : Series) :
  table_get t c = Some s -> table_set t c s = t.
Proof.
  induction t as [|[c0 s0] t IH]; simpl; [discriminate|].
  case_bool_decide as E; intros H.
  - inversion H; subst. reflexivity.
  - f_equal. auto.
Qed.

Lemma bind_run {A B} (c : M A) (k : A -> M B) (w w1 : World) (a : A) :
  c w = (Ok a, w1) -> bind c k w = k a w1.
Proof. intros H. unfold bind. rewrite H. reflexivity. Qed.

Lemma bind_ok_inv {A B} (c : M A) (k : A -> M B) (w w' : World) (b : B) :
  bind c k w = (Ok b, w') -> exists a w1, c w = (Ok a, w1) /\ k a w1 = (Ok b, w').
Proof.
  unfold bind. destruct (c w) as [[a|e] w1]; intros H; [eauto | discriminate].
Qed.

Lemma lift_ok_inv {A} (o : Outcome A) (w w' : World) (a : A) :
  lift o w = (Ok a, w') -> o = Ok a /\ w' = w.
Proof. unfold lift. intros H. inversion H; subst. auto. Qed.

Lemma df_getitem_run (w : World) (df : nat) (t : Table) (c : string) (s : Series) :
  frames w !! df = Some t -> table_get t c = Some s -> df_getitem df c w = (Ok s, w).
Proof.
  intros Ht Hs. unfold df_getitem. rewrite (bind_run _ _ _ _ _ (read_frame_some df w t Ht)).
  rewrite Hs. reflexivity.
Qed.

Lemma df_getitem_ok_inv (w w' : World) (df : nat) (c : string) (s : Series) :
  df_getitem df c w = (Ok s, w') ->
  w' = w /\ exists t, frames w !! df = Some t /\ table_get t c = Some s.
Proof.
  unfold df_getitem, bind, read_frame. destruct (frames w !! df) as [t|]; [|discriminate].
  destruct (table_get t c) as [s'|] eqn:E; unfold ret, raise; intros H; inversion H; subst.
  eauto.
Qed.

Lemma df_setitem_run (w : World) (df : nat) (t : Table) (c : string) (s : Series) :
  frames w !! df = Some t ->
  df_setitem df c s w
  = (Ok tt, mkWorld (<[df := table_set t c s]> (frames w)) (next_ref w)
                    (imputers w) (encoders w) (scalers w)).
Proof.
  intros Ht. unfold df_setitem. rewrite (bind_run _ _ _ _ _ (read_frame_some df w t Ht)).
  reflexivity.
Qed.

Lemma df_copy_run (w : World) (df : nat) (t : Table) :
  frames w !! df = Some t ->
  df_copy df w
  = (Ok (next_ref w), mkWorld (<[next_ref w := t]> (frames w)) (S (next_ref w))
                              (imputers w) (encoders w) (scalers w)).
Proof.
  intros Ht. unfold df_copy. rewrite (bind_run _ _ _ _ _ (read_frame_some df w t Ht)).
  reflexivity.
Qed.

Lemma df_columns_run (w : World) (df : nat) (t : Table) :
  frames w !! df = Some t -> df_columns df w = (Ok (columns t), w).
Proof.
  intros Ht. unfold df_columns. rewrite (bind_run _ _ _ _ _ (read_frame_some df w t Ht)).
  reflexivity.
Qed.

(** ** Stage 1: missing values *)

Section MissingValues.
Context (lib : Library).

(** One turn of the loop writes the imputed column to the working copy
    and to nothing else. *)
Lemma handle_missing_column_run (w w' : World) (df p : nat) (t tp : Table)
    (steps steps' : list string) (c : string) (s : Series) :
  frames w !! df = Some t ->
  frames w !! p = Some tp ->
  table_get t c = Some s ->
  table_get tp c = Some s ->
  handle_missing_column lib df p steps c w = (Ok steps', w') ->
  exists s', impute_column lib c s = Ok s'
    /\ frames w' = <[p := table_set tp c s']> (frames w).
Proof.
  intros Ht Htp Hs Hps. unfold handle_missing_column, impute_column.
  rewrite (bind_run _ _ _ _ _ (df_getitem_run w df t c s Ht Hs)).
  destruct (has_null s).
  - unfold bind at 1, lift at 1.
    destruct (_analyze_column lib s c) as [a|e]; [|discriminate]. simpl obind.
    destruct (detected_type a);
      rewrite (bind_run _ _ _ _ _ (df_getitem_run w p tp c s Htp Hps));
      try (rewrite (bind_run _ _ _ _ _ (df_setitem_run w p tp c _ Htp));
           unfold ret; intros H; inversion H; subst; eexists; split; reflexivity).
    + unfold bind at 1, lift at 1.
      destruct (impute_median lib s) as [[s1 imp]|e]; [|discriminate]. simpl.
      rewrite (bind_run _ _ _ _ _ (df_setitem_run w p tp c _ Htp)).
      unfold bind, set_imputer, ret. simpl. intros H; inversion H; subst.
      eexists; split; reflexivity.
    + unfold bind at 1, lift at 1.
      destruct (impute_most_frequent s) as [[s1 imp]|e]; [|discriminate]. simpl.
      rewrite (bind_run _ _ _ _ _ (df_setitem_run w p tp c _ Htp)).
      unfold bind, set_imputer, ret. simpl. intros H; inversion H; subst.
      eexists; split; reflexivity.
  - unfold ret. intros H; inversion H; subst. exists s. split; [reflexivity|].
    rewrite (table_set_id tp c s Hps). symmetry. apply insert_id. exact Htp.
Qed.

Lemma handle_missing_loop (df p : nat) (t : Table) :
  p <> df ->
  forall (cols : list string) (steps steps' : list string) (w w' : World) (tp : Table),
    NoDup cols ->
    frames w !! df = Some t ->
    frames w !! p = Some tp ->
    (forall c, c ∈ cols -> exists s, table_get t c = Some s /\ table_get tp c = Some s) ->
    for_each cols (handle_missing_column lib df p) steps w = (Ok steps', w') ->
    exists tp', frames w' !! p = Some tp'
      /\ columns tp' = columns tp
      /\ (forall c, c ∉ cols -> table_get tp' c = table_get tp c)
      /\ (forall c s, c ∈ cols -> table_get t c = Some s ->
            exists s', impute_column lib c s = Ok s' /\ table_get tp' c = Some s').
Proof.
  intros Hne. induction cols as [|c cols IH]; intros steps steps' w w' tp Hnd Ht Htp Hsame Hrun.
  - simpl in Hrun. unfold ret in Hrun. inversion Hrun; subst.
    exists tp. repeat split; auto. intros c s Hc. apply elem_of_nil in Hc. contradiction.
  - simpl in Hrun. apply bind_ok_inv in Hrun as (steps1 & w1 & Hstep & Hrest).
    apply NoDup_cons in Hnd as [Hc Hnd].
    destruct (Hsame c) as (s & Hs & Hps); [apply elem_of_cons; auto|].
    destruct (handle_missing_column_run w w1 df p t tp steps steps1 c s Ht Htp Hs Hps Hstep)
      as (s' & Himp & Hframes).
    assert (Ht1 : frames w1 !! df = Some t).
    { rewrite Hframes, lookup_insert_ne by exact Hne. exact Ht. }
    assert (Htp1 : frames w1 !! p = Some (table_set tp c s')).
    { rewrite Hframes. apply lookup_insert_eq. }
    destruct (IH steps1 steps' w1 w' (table_set tp c s') Hnd Ht1 Htp1) as (tp' & H1 & H2 & H3 & H4).
    { intros c0 Hc0. destruct (Hsame c0) as (s0 & Hs0 & Hps0); [apply elem_of_cons; auto|].
      exists s0. split; [exact Hs0|].
      rewrite table_get_set_ne; [exact Hps0|]. intros ->. contradiction. }
    { exact Hrest. }
    exists tp'. split; [exact H1|]. split.
    { rewrite H2. apply columns_table_set. eapply table_get_some_in. exact Hps. }
    split.
    + intros c0 Hc0. apply not_elem_of_cons in Hc0 as [Hc0 Hc0'].
      rewrite H3 by exact Hc0'. apply table_get_set_ne. congruence.
    + intros c0 s0 Hc0 Hs0. apply elem_of_cons in Hc0 as [->|Hc0].
      * rewrite Hs in Hs0. inversion Hs0; subst. exists s'. split; [exact Himp|].
        rewrite H3 by exact Hc. apply table_get_set_eq.
      * apply H4; assumption.
Qed.

(** Stage 1 as a whole: the frame it returns has the columns of its
    argument, each as the loop leaves it. *)
Lemma handle_missing_values_run (w w' : World) (df p : nat) (t : Table)
    (steps : list string) :
  frames w !! df = Some t ->
  (df < next_ref w)%nat ->
  NoDup (columns t) ->
  _handle_missing_values lib df w = (Ok (p, steps), w') ->
  exists t', frames w' !! p = Some t'
    /\ columns t' = columns t
    /\ forall c s, table_get t c = Some s ->
         exists s', impute_column lib c s = Ok s' /\ table_get t' c = Some s'.
Proof.
  intros Ht Hdf Hnd. unfold _handle_missing_values.
  rewrite (bind_run _ _ _ _ _ (df_copy_run w df t Ht)).
  set (w0 := mkWorld _ _ _ _ _).
  assert (Ht0 : frames w0 !! df = Some t).
  { subst w0. simpl. rewrite lookup_insert_ne by lia. exact Ht. }
  assert (Hp0 : frames w0 !! next_ref w = Some t).
  { subst w0. simpl. apply lookup_insert_eq. }
  rewrite (bind_run _ _ _ _ _ (df_columns_run w0 df t Ht0)).
  intros Hrun.
  apply bind_ok_inv in Hrun as (steps1 & w1 & Hloop & Hret).
  unfold ret in Hret. inversion Hret; subst; clear Hret.
  destruct (handle_missing_loop df (next_ref w) t ltac:(lia) (columns t) [] steps w0 w' t
              Hnd Ht0 Hp0) as (t' & H1 & H2 & _ & H4).
  { intros c Hc. destruct (table_get_in t c Hc) as [s Hs]. eauto. }
  { exact Hloop. }
  exists t'. split; [exact H1|]. split; [exact H2|].
  intros c s Hs. apply H4; [|exact Hs]. eapply table_get_some_in. exact Hs.
Qed.

End MissingValues.

(** ** What the imputers do to a column *)

Lemma last_cons_default {A} (l : list A) (v d : A) : List.last (v :: l) d = List.last l v.
Proof.
  revert v d. induction l as [|a l IH]; intros v d; [reflexivity|].
  change (List.last (v :: a :: l) d) with (List.last (a :: l) d).
  rewrite (IH a d), (IH a v). reflexivity.
Qed.

(** Forward fill puts into every row the nearest non-null cell at or
    before it, and the start value where there is none. *)
Lemma ffill_from_lookup (l : list value) :
  forall (v0 : value) (i : nat), (i < length l)%nat ->
    ffill_from v0 l !! i = Some (List.last (List.filter notnull (firstn (S i) l)) v0).
Proof.
  induction l as [|v l IH]; intros v0 i Hi; simpl in Hi; [lia|].
  destruct i as [|i].
  - simpl. destruct v; reflexivity.
  - change (ffill_from v0 (v :: l) !! S i)
      with (ffill_from (if isnull v then v0 else v) l !! i).
    rewrite IH by lia.
    change (firstn (S (S i)) (v :: l)) with (v :: firstn (S i) l).
    simpl List.filter. destruct v as [|q|x]; simpl; try reflexivity;
      f_equal; symmetry;
      exact (last_cons_default (List.filter notnull (firstn (S i) l)) _ v0).
Qed.

Lemma ffill_from_length (l : list value) (v0 : value) :
  length (ffill_from v0 l) = length l.
Proof. revert v0. induction l as [|v l IH]; intros v0; simpl; [reflexivity | f_equal; apply IH]. Qed.

(** A null that forward fill leaves behind has only nulls before it. *)
Lemma ffill_from_null_leading (l : list value) :
  forall (v0 : value) (i : nat),
    ffill_from v0 l !! i = Some VNull ->
    v0 = VNull /\ forall j, (j <= i)%nat -> l !! j = Some VNull.
Proof.
  induction l as [|v l IH]; intros v0 i H; [destruct i; discriminate|].
  destruct i as [|i].
  - simpl in H. destruct v; simpl in H; inversion H; subst.
    split; [reflexivity|]. intros j Hj. assert (j = 0%nat) as -> by lia. reflexivity.
  - change (ffill_from v0 (v :: l) !! S i)
      with (ffill_from (if isnull v then v0 else v) l !! i) in H.
    apply IH in H as [Hv Hl].
    destruct v; simpl in Hv; try discriminate. subst v0.
    split; [reflexivity|]. intros [|j] Hj; [reflexivity|]. apply Hl. lia.
Qed.

Lemma unique_values_In (l : list value) (v : value) :
  In v (unique_values l) <-> In v l.
Proof.
  induction l as [|a l IH]; simpl; [tauto|].
  rewrite filter_In, IH. split.
  - intros [H|[H _]]; auto.
  - intros [H|H]; [auto|]. destruct (decide (v = a)) as [->|Hne]; [auto|].
    right. split; [exact H|]. rewrite bool_decide_eq_false_2 by exact Hne. reflexivity.
Qed.

Lemma count_of_not_in (l : list value) (v : value) : ~ In v l -> count_of v l = 0%nat.
Proof.
  unfold count_of. induction l as [|a l IH]; intros H; [reflexivity|].
  simpl in *. rewrite bool_decide_eq_false_2 by (intros ->; tauto). apply IH. tauto.
Qed.

Lemma head_In {A} (l : list A) (x : A) : List.head l = Some x -> In x l.
Proof. destruct l; simpl; intros H; inversion H; auto. Qed.

(** The value the most-frequent imputer picks occurs in the column, and
    no value occurs more often. *)
Lemma most_frequent_spec (l : list value) (m : value) :
  most_frequent l = Some m ->
  In m l /\ forall v, (count_of v l <= count_of m l)%nat.
Proof.
  unfold most_frequent. intros H. apply head_In in H.
  apply (Permutation_in _ (merge_sort_Permutation value_le _)) in H.
  apply filter_In in H as [Hin Hbest]. apply Nat.eqb_eq in Hbest.
  split; [apply unique_values_In; exact Hin|].
  intros v. rewrite Hbest.
  destruct (in_dec value_eq_dec v l) as [Hv|Hv].
  - pose proof (proj1 (list_max_le (map (fun v => count_of v l) (unique_values l)) _)
                  (Nat.le_refl _)) as Hall.
    rewrite List.Forall_forall in Hall. apply Hall.
    apply in_map_iff. exists v. split; [reflexivity|]. apply unique_values_In. exact Hv.
  - rewrite (count_of_not_in l v Hv). lia.
Qed.

Lemma has_null_false_iff (s : Series) :
  has_null s = false <-> forall v, In v (s_values s) -> isnull v = false.
Proof.
  unfold has_null. split.
  - intros H v Hv. destruct (isnull v) eqn:E; [|reflexivity].
    assert (existsb isnull (s_values s) = true) by (apply existsb_exists; eauto).
    congruence.
  - intros H. destruct (existsb isnull (s_values s)) eqn:E; [|reflexivity].
    apply existsb_exists in E as (v & Hv & Hn). rewrite (H v Hv) in Hn. discriminate.
Qed.

Lemma impute_most_frequent_spec (s s' : Series) (imp : Imputer) :
  impute_most_frequent s = Ok (s', imp) ->
  exists m, most_frequent (List.filter notnull (s_values s)) = Some m
    /\ isnull m = false
    /\ s_values s' = map (fun v => if isnull v then m else v) (s_values s)
    /\ has_null s' = false.
Proof.
  unfold impute_most_frequent.
  destruct (mixed_kinds _); [discriminate|].
  destruct (most_frequent _) as [m|] eqn:Hm; [|discriminate].
  intros H. inversion H; subst; clear H. exists m.
  assert (Hnn : isnull m = false).
  { apply most_frequent_spec in Hm as [Hin _]. apply filter_In in Hin as [_ Hin].
    unfold notnull in Hin. apply negb_true_iff in Hin. exact Hin. }
  repeat split; auto.
  apply has_null_false_iff. simpl. intros v Hv.
  apply in_map_iff in Hv as (u & <- & _). destruct (isnull u) eqn:E; assumption.
Qed.

Section MedianImputer.
Context (lib : Library).

Lemma coerce_no_raise_notnull (s : Series) :
  to_numeric_raises lib s = false ->
  forall v, In v (s_values (to_numeric_coerce lib s)) -> isnull v = true ->
    In VNull (s_values s).
Proof.
  unfold to_numeric_raises, to_numeric_coerce. simpl.
  induction (s_values s) as [|u l IH]; intros Hr v Hv Hn; [contradiction|].
  simpl in Hr. apply orb_false_iff in Hr as [Hu Hl].
  simpl in Hv. destruct Hv as [Hv|Hv].
  - destruct u as [|q|x]; subst v; simpl in *; auto; try discriminate.
    destruct (str_to_numeric lib x); simpl in *; discriminate.
  - right. eapply IH; eauto.
Qed.

Lemma impute_median_spec (s s' : Series) (imp : Imputer) :
  impute_median lib s = Ok (s', imp) ->
  to_numeric_raises lib s = false
  /\ exists m, median (numbers_of (s_values (to_numeric_coerce lib s))) = Some m
       /\ imp = mkImputer "median" (VNum m)
       /\ s_values s' = map (fun v => if isnull v then VNum m else v)
                            (s_values (to_numeric_coerce lib s))
       /\ has_null s' = false.
Proof.
  unfold impute_median.
  destruct (to_numeric_raises lib s); [discriminate|].
  destruct (median _) as [m|]; [|discriminate].
  intros H. inversion H; subst; clear H. split; [reflexivity|].
  exists m. repeat split.
  apply has_null_false_iff. simpl. intros v Hv.
  apply in_map_iff in Hv as (u & <- & _). destruct (isnull u) eqn:E; [reflexivity | exact E].
Qed.

End MedianImputer.

Lemma ffill_lookup (l : list value) (i : nat) (v : value) :
  l !! i = Some v ->
  ffill_from VNull l !! i = Some (if isnull v then preceding_valid l i else v).
Proof.
  intros Hv. rewrite ffill_from_lookup by (eapply lookup_lt_Some; exact Hv).
  rewrite (take_S_r l i v Hv), List.filter_app. unfold preceding_valid.
  destruct v as [|q|x]; simpl.
  - rewrite app_nil_r. reflexivity.
  - rewrite last_last. reflexivity.
  - rewrite last_last. reflexivity.
Qed.

(** ** Stage 1, column by column *)

Section Imputation.
Context (lib : Library).

(** What stage 1 does to a column, read off the loop. *)
Lemma impute_column_spec (c : string) (s s' : Series) :
  impute_column lib c s = Ok s' ->
  (has_null s = false -> s' = s)
  /\ (has_null s = true ->
      exists a, _analyze_column lib s c = Ok a
        /\ match detected_type a with
           | t_numeric =>
               exists m, median (numbers_of (s_values (to_numeric_coerce lib s))) = Some m
                 /\ s_values s' = map (fun v => if isnull v then VNum m else v)
                                      (s_values (to_numeric_coerce lib s))
                 /\ has_null s' = false
           | t_categorical =>
               exists m, most_frequent (List.filter notnull (s_values s)) = Some m
                 /\ isnull m = false
                 /\ s_values s' = map (fun v => if isnull v then m else v) (s_values s)
                 /\ has_null s' = false
           | _ => s' = ffill s
           end).
Proof.
  unfold impute_column. destruct (has_null s).
  - intros H. split; [discriminate|]. intros _.
    destruct (_analyze_column lib s c) as [a|e]; [|discriminate].
    exists a. split; [reflexivity|]. simpl in H.
    destruct (detected_type a); try (inversion H; reflexivity).
    + destruct (impute_median lib s) as [[s1 imp]|e] eqn:E; [|discriminate].
      inversion H; subst; clear H.
      apply impute_median_spec in E as (_ & m & Hm & _ & Hv & Hn). eauto.
    + destruct (impute_most_frequent s) as [[s1 imp]|e] eqn:E; [|discriminate].
      inversion H; subst; clear H.
      apply impute_most_frequent_spec in E as (m & Hm & Hnn & Hv & Hn). eauto 6.
  - intros H. inversion H; subst. split; [reflexivity | discriminate].
Qed.

End Imputation.



(** ** No nulls after stage 1 *)

Lemma ffill_from_null_prefix (l : list value) :
  forall (v0 : value) (i : nat),
    ffill_from v0 l !! i = Some VNull ->
    forall j, (j <= i)%nat -> ffill_from v0 l !! j = Some VNull.
Proof.
  induction l as [|v l IH]; intros v0 i H j Hj; [destruct i; discriminate|].
  destruct i as [|i].
  - assert (j = 0%nat) as -> by lia. exact H.
  - change (ffill_from v0 (v :: l) !! S i)
      with (ffill_from (if isnull v then v0 else v) l !! i) in H.
    destruct j as [|j].
    + apply ffill_from_null_leading in H as [Hv _]. simpl. rewrite Hv. reflexivity.
    + change (ffill_from v0 (v :: l) !! S j)
        with (ffill_from (if isnull v then v0 else v) l !! j).
      eapply IH; [exact H | lia].
Qed.

Lemma has_null_false_lookup (s : Series) (i : nat) :
  has_null s = false -> s_values s !! i = Some VNull -> False.
Proof.
  intros Hn Hi. apply list_elem_of_lookup_2 in Hi. apply list_elem_of_In in Hi.
  pose proof (proj1 (has_null_false_iff s) Hn VNull Hi) as H. discriminate.
Qed.



(** The three columns of the orders table after stage 1: the median, the
    most frequent value, and a forward fill that keeps its leading null. *)
Example stage_1_on_orders :
  frames (snd (_handle_missing_values plain_library 0 (world_of orders))) !! 1%nat
  = Some [("age", flt [VNum (num 25); VNum (num 30); VNum (num 30); VNum (num 40)]);
          ("city", obj [VStr "NYC"; VStr "LA"; VStr "NYC"; VStr "NYC"]);
          ("day", obj [VNull; VStr "2020-01-01"; VStr "2020-01-01"; VStr "2020-01-03"])].
Proof. vm_compute. reflexivity. Qed.

(** ** Stage 3: categorical encoding *)

Lemma table_get_none_iff (t : Table) (c : string) :
  table_get t c = None <-> c ∉ columns t.
Proof.
  split.
  - intros H Hin. apply table_get_in in Hin as [s Hs]. congruence.
  - intros H. destruct (table_get t c) as [s|] eqn:E; [|reflexivity].
    exfalso. apply H. eapply table_get_some_in. exact E.
Qed.

Lemma table_get_app (t1 t2 : Table) (c : string) :
  table_get (t1 ++ t2) c
  = match table_get t1 c with Some x => Some x | None => table_get t2 c end.
Proof.
  induction t1 as [|[c0 s0] t1 IH]; simpl; [reflexivity|].
  case_bool_decide as E; [reflexivity | exact IH].
Qed.

Lemma table_get_drop_ne (t : Table) (c c' : string) :
  c <> c' -> table_get (table_drop t c) c' = table_get t c'.
Proof.
  intros Hne. unfold table_drop. induction t as [|[c0 s0] t IH]; simpl; [reflexivity|].
  case_bool_decide as E; simpl.
  - subst c0. rewrite bool_decide_eq_false_2 by exact Hne. exact IH.
  - case_bool_decide as E'; [reflexivity | exact IH].
Qed.

Lemma table_get_drop_eq (t : Table) (c : string) : table_get (table_drop t c) c = None.
Proof.
  unfold table_drop. induction t as [|[c0 s0] t IH]; simpl; [reflexivity|].
  case_bool_decide as E; simpl; [exact IH|].
  rewrite bool_decide_eq_false_2 by exact E. exact IH.
Qed.

Lemma table_drop_In_ne (t : Table) (c n : string) (x : Series) :
  n <> c -> In (n, x) t -> In (n, x) (table_drop t c).
Proof.
  intros Hne Hin. unfold table_drop. apply filter_In. split; [exact Hin|].
  simpl. rewrite bool_decide_eq_false_2 by exact Hne. reflexivity.
Qed.

Lemma table_set_In_ne (t : Table) (c n : string) (x y : Series) :
  n <> c -> In (n, x) t -> In (n, x) (table_set t c y).
Proof.
  intros Hne. induction t as [|[c0 s0] t IH]; simpl; [tauto|].
  intros [H|H].
  - inversion H; subst. rewrite bool_decide_eq_false_2 by exact Hne. left. reflexivity.
  - case_bool_decide as E; [right; exact H | right; auto].
Qed.

Lemma df_drop_run (w : World) (df : nat) (t : Table) (c : string) :
  frames w !! df = Some t ->
  c ∈ columns t ->
  df_drop df c w
  = (Ok (next_ref w), mkWorld (<[next_ref w := table_drop t c]> (frames w)) (S (next_ref w))
                              (imputers w) (encoders w) (scalers w)).
Proof.
  intros Ht Hc. unfold df_drop. rewrite (bind_run _ _ _ _ _ (read_frame_some df w t Ht)).
  rewrite bool_decide_eq_true_2 by exact Hc. reflexivity.
Qed.

Lemma pd_concat_run (w : World) (df : nat) (t new_columns : Table) :
  frames w !! df = Some t ->
  pd_concat df new_columns w
  = (Ok (next_ref w), mkWorld (<[next_ref w := t ++ new_columns]> (frames w)) (S (next_ref w))
                              (imputers w) (encoders w) (scalers w)).
Proof.
  intros Ht. unfold pd_concat. rewrite (bind_run _ _ _ _ _ (read_frame_some df w t Ht)).
  reflexivity.
Qed.

Section Encoding.
Context (lib : Library).

(** One turn of the loop of stage 3: the working copy becomes what the
    action for the column makes of it, and the frame the stage reads from
    stays as it is. *)
Lemma encode_column_run (w w' : World) (df p p' : nat) (t tp : Table)
    (target : option string) (steps steps' : list string) (c : string) (s : Series) :
  frames w !! df = Some t ->
  frames w !! p = Some tp ->
  (df < next_ref w)%nat ->
  (p < next_ref w)%nat ->
  p <> df ->
  table_get t c = Some s ->
  table_get tp c = Some s ->
  encode_column lib df target (p, steps) c w = (Ok (p', steps'), w') ->
  exists act, encoding_of lib target c s = Ok act
    /\ frames w' !! df = Some t
    /\ frames w' !! p' = Some (apply_action lib c s act tp)
    /\ (df < next_ref w')%nat
    /\ (p' < next_ref w')%nat
    /\ p' <> df.
Proof.
  intros Ht Htp Hdf Hp Hne Hs Hps. unfold encode_column, encoding_of.
  simpl fst. simpl snd.
  destruct (is_target c target).
  { unfold ret. intros H; inversion H; subst. exists Keep. simpl. auto 10. }
  rewrite (bind_run _ _ _ _ _ (df_getitem_run w df t c s Ht Hs)).
  unfold bind at 1, lift at 1.
  destruct (_analyze_column lib s c) as [a|e]; [|discriminate]. simpl obind.
  destruct (detected_type a);
    try solve [unfold ret; intros H; inversion H; subst; exists Keep; simpl; auto 10].
  destruct (unique_count a <=? 10)%nat.
  - rewrite (bind_run _ _ _ _ _ (df_getitem_run w p tp c s Htp Hps)).
    unfold bind at 1, lift at 1, one_hot_fit_transform.
    destruct (fit_categories (s_values s)) as [cats|e]; [|discriminate]. simpl obind.
    cbv beta iota.
    rewrite (bind_run _ _ _ _ _ (df_drop_run w p tp c Htp (table_get_some_in tp c s Hps))).
    set (w1 := mkWorld _ _ _ _ _).
    assert (H1 : frames w1 !! next_ref w = Some (table_drop tp c)) by apply lookup_insert_eq.
    rewrite (bind_run _ _ _ _ _ (pd_concat_run w1 (next_ref w) _ _ H1)).
    unfold bind, set_encoder, ret. simpl. intros H; inversion H; subst; clear H.
    exists (OneHot cats). simpl. split; [reflexivity|]. split.
    { rewrite !lookup_insert_ne by lia. exact Ht. }
    split; [apply lookup_insert_eq|]. lia.
  - rewrite (bind_run _ _ _ _ _ (df_getitem_run w p tp c s Htp Hps)).
    rewrite (bind_run _ _ _ _ _ (df_setitem_run w p tp c _ Htp)).
    unfold bind, set_encoder, ret. simpl. intros H; inversion H; subst; clear H.
    exists Label. simpl. split; [reflexivity|]. split.
    { rewrite lookup_insert_ne by exact Hne. exact Ht. }
    split; [apply lookup_insert_eq|]. auto.
Qed.

End Encoding.

Section EncodingLoop.
Context (lib : Library).

Lemma indicator_columns_get_none (c c' : string) (cats l : list value) :
  (forall cat, In cat cats -> (c ++ "_" ++ astype_str lib cat)%string <> c') ->
  table_get (indicator_columns lib c cats l) c' = None.
Proof.
  unfold indicator_columns. induction cats as [|cat cats IH]; intros H; simpl; [reflexivity|].
  rewrite bool_decide_eq_false_2 by (apply H; left; reflexivity).
  apply IH. intros cat' Hin. apply H. right. exact Hin.
Qed.

Lemma indicator_columns_In (c : string) (cats l : list value) (cat : value) :
  In cat cats ->
  In ((c ++ "_" ++ astype_str lib cat)%string, indicator cat l) (indicator_columns lib c cats l).
Proof.
  intros H. unfold indicator_columns.
  apply (in_map (fun cat => ((c ++ "_" ++ astype_str lib cat)%string, indicator cat l))).
  exact H.
Qed.

(** The action for column [c] leaves every other column of the table
    where it is. *)
Lemma apply_action_get_other (c c' : string) (s : Series) (act : encoding_action) (tp : Table) :
  c <> c' ->
  (forall cats, act = OneHot cats ->
     forall cat, In cat cats -> (c ++ "_" ++ astype_str lib cat)%string <> c') ->
  table_get (apply_action lib c s act tp) c' = table_get tp c'.
Proof.
  intros Hne Hnames. destruct act as [|cats|]; simpl.
  - reflexivity.
  - rewrite table_get_app, (table_get_drop_ne tp c c' Hne).
    rewrite (indicator_columns_get_none c c' cats (s_values s) (Hnames cats eq_refl)).
    destruct (table_get tp c'); reflexivity.
  - apply table_get_set_ne. exact Hne.
Qed.

Lemma apply_action_In_other (c n : string) (s x : Series) (act : encoding_action) (tp : Table) :
  n <> c -> In (n, x) tp -> In (n, x) (apply_action lib c s act tp).
Proof.
  intros Hne Hin. destruct act as [|cats|]; simpl.
  - exact Hin.
  - apply in_or_app. left. apply table_drop_In_ne; assumption.
  - apply table_set_In_ne; assumption.
Qed.

Lemma apply_action_own (c : string) (s : Series) (act : encoding_action) (tp : Table) :
  table_get tp c = Some s ->
  (forall cats, act = OneHot cats ->
     forall cat, In cat cats -> (c ++ "_" ++ astype_str lib cat)%string <> c) ->
  encoded_in lib c s act (apply_action lib c s act tp).
Proof.
  intros Hs Hnames. destruct act as [|cats|]; simpl.
  - exact Hs.
  - split.
    + rewrite table_get_app, table_get_drop_eq.
      apply indicator_columns_get_none. exact (Hnames cats eq_refl).
    + intros cat Hcat. apply in_or_app. right. apply indicator_columns_In. exact Hcat.
  - apply table_get_set_eq.
Qed.

Lemma encode_loop (df : nat) (t : Table) (target : option string) :
  no_name_clash lib target t ->
  forall (cols : list string) (steps steps' : list string) (w w' : World) (p p' : nat)
         (tp : Table),
    NoDup cols ->
    frames w !! df = Some t ->
    frames w !! p = Some tp ->
    (df < next_ref w)%nat ->
    (p < next_ref w)%nat ->
    p <> df ->
    (forall c, c ∈ cols -> exists s, table_get t c = Some s /\ table_get tp c = Some s) ->
    for_each cols (encode_column lib df target) (p, steps) w = (Ok (p', steps'), w') ->
    exists tp', frames w' !! p' = Some tp'
      /\ (forall c, c ∈ columns t -> c ∉ cols -> table_get tp' c = table_get tp c)
      /\ (forall n x, In (n, x) tp -> n ∉ cols -> In (n, x) tp')
      /\ (forall c s, c ∈ cols -> table_get t c = Some s ->
            exists act, encoding_of lib target c s = Ok act /\ encoded_in lib c s act tp').
Proof.
  intros Hclash. induction cols as [|c cols IH];
    intros steps steps' w w' p p' tp Hnd Ht Htp Hdf Hp Hne Hsame Hrun.
  - simpl in Hrun. unfold ret in Hrun. inversion Hrun; subst.
    exists tp. repeat split; auto. intros c s Hc. apply elem_of_nil in Hc. contradiction.
  - simpl in Hrun. apply bind_ok_inv in Hrun as ([p1 steps1] & w1 & Hstep & Hrest).
    apply NoDup_cons in Hnd as [Hc Hnd].
    destruct (Hsame c) as (s & Hs & Hps); [apply elem_of_cons; auto|].
    destruct (encode_column_run lib w w1 df p p1 t tp target steps steps1 c s
                Ht Htp Hdf Hp Hne Hs Hps Hstep)
      as (act & Hact & Ht1 & Htp1 & Hdf1 & Hp1 & Hne1).
    assert (Hnames : forall cats, act = OneHot cats ->
              forall cat, In cat cats ->
                (c ++ "_" ++ astype_str lib cat)%string ∉ columns t).
    { intros cats -> cat Hcat. exact (Hclash c s cats Hs Hact cat Hcat). }
    assert (Hother : forall c', c' ∈ columns t -> c <> c' ->
              table_get (apply_action lib c s act tp) c' = table_get tp c').
    { intros c' Hc' Hcc'. apply apply_action_get_other; [exact Hcc'|].
      intros cats Hcats cat Hcat Heq. apply (Hnames cats Hcats cat Hcat).
      rewrite Heq. exact Hc'. }
    destruct (IH steps1 steps' w1 w' p1 p' (apply_action lib c s act tp)
                Hnd Ht1 Htp1 Hdf1 Hp1 Hne1) as (tp' & H1 & H2 & H3 & H4).
    { intros c0 Hc0. destruct (Hsame c0) as (s0 & Hs0 & Hps0); [apply elem_of_cons; auto|].
      exists s0. split; [exact Hs0|]. rewrite Hother; [exact Hps0 | |].
      - eapply table_get_some_in. exact Hs0.
      - intros ->. contradiction. }
    { exact Hrest. }
    exists tp'. split; [exact H1|]. split; [|split].
    + intros c0 Hc0 Hnot. apply not_elem_of_cons in Hnot as [Hne0 Hnot].
      rewrite (H2 c0 Hc0 Hnot). apply Hother; [exact Hc0 | congruence].
    + intros n x Hin Hnot. apply not_elem_of_cons in Hnot as [Hne0 Hnot].
      apply H3; [|exact Hnot]. apply apply_action_In_other; assumption.
    + intros c0 s0 Hc0 Hs0. apply elem_of_cons in Hc0 as [->|Hc0]; [|apply H4; assumption].
      rewrite Hs in Hs0. inversion Hs0; subst s0. exists act. split; [exact Hact|].
      assert (Hin_t : c ∈ columns t) by (eapply table_get_some_in; exact Hs).
      assert (Hown : encoded_in lib c s act (apply_action lib c s act tp)).
      { apply apply_action_own; [exact Hps|].
        intros cats Hcats cat Hcat Heq. apply (Hnames cats Hcats cat Hcat).
        rewrite Heq. exact Hin_t. }
      destruct act as [|cats|]; simpl in *.
      * rewrite (H2 c Hin_t Hc). exact Hown.
      * destruct Hown as [Hnone Hind]. split; [rewrite (H2 c Hin_t Hc); exact Hnone|].
        intros cat Hcat. apply H3; [apply Hind; exact Hcat|].
        intros Hin. apply (Hnames cats eq_refl cat Hcat).
        destruct (Hsame _ (proj2 (elem_of_cons _ _ _) (or_intror Hin))) as (s1 & Hs1 & _).
        eapply table_get_some_in. exact Hs1.
      * rewrite (H2 c Hin_t Hc). exact Hown.
Qed.

End EncodingLoop.

(** ** Categories, indicators and label codes *)

Lemma table_get_In (t : Table) (c : string) (s : Series) :
  table_get t c = Some s -> In (c, s) t.
Proof.
  induction t as [|[c0 s0] t IH]; simpl; [discriminate|].
  case_bool_decide as E; intros H.
  - inversion H; subst. left. reflexivity.
  - right. auto.
Qed.

Lemma no_name_clash_b_sound (lib : Library) (target : option string) (t : Table) :
  no_name_clash_b lib target t = true -> no_name_clash lib target t.
Proof.
  unfold no_name_clash_b, no_name_clash. intros H c s cats Hs Henc cat Hcat.
  rewrite forallb_forall in H. specialize (H (c, s) (table_get_In t c s Hs)).
  simpl in H. rewrite Henc in H. rewrite forallb_forall in H.
  specialize (H cat Hcat). apply negb_true_iff, bool_decide_eq_false in H. exact H.
Qed.

Lemma unique_values_NoDup (l : list value) : NoDup (unique_values l).
Proof.
  induction l as [|a l IH]; simpl; [constructor|].
  constructor.
  - intros Hin. apply list_elem_of_In, filter_In in Hin as [_ Hin].
    rewrite bool_decide_eq_true_2 in Hin by reflexivity. discriminate.
  - apply NoDup_ListNoDup, List.NoDup_filter, NoDup_ListNoDup. exact IH.
Qed.

(** The categories an encoder finds are the distinct values of the
    column, each once. *)
Lemma fit_categories_spec (l cats : list value) :
  fit_categories l = Ok cats ->
  NoDup cats /\ forall v, In v cats <-> In v l.
Proof.
  unfold fit_categories. destruct (mixed_kinds l); [discriminate|].
  intros H. inversion H; subst; clear H.
  pose proof (merge_sort_Permutation value_le (unique_values l)) as Hperm.
  split.
  - rewrite Hperm. apply unique_values_NoDup.
  - intros v. rewrite <- (unique_values_In l v). split; intros Hin.
    + eapply Permutation_in; [exact Hperm | exact Hin].
    + eapply Permutation_in; [symmetry; exact Hperm | exact Hin].
Qed.

Lemma lookup_map {A B} (f : A -> B) (l : list A) (i : nat) :
  map f l !! i = option_map f (l !! i).
Proof.
  revert i. induction l as [|a l IH]; intros [|i]; simpl; try reflexivity. apply IH.
Qed.

Lemma indicator_binary (cat : value) (l : list value) (v : value) :
  In v (s_values (indicator cat l)) -> v = VNum 0%Qc \/ v = VNum 1%Qc.
Proof.
  unfold indicator. simpl. intros H. apply in_map_iff in H as (u & <- & _).
  case_bool_decide; auto.
Qed.

Lemma cell_indicator (cat v : value) (l : list value) (i : nat) :
  l !! i = Some v ->
  cell (indicator cat l) i = if bool_decide (v = cat) then 1%Qc else 0%Qc.
Proof.
  intros H. unfold cell, indicator. simpl. rewrite lookup_map, H. simpl.
  case_bool_decide; reflexivity.
Qed.

Lemma row_sum_indicators_absent (cats l : list value) (i : nat) (v : value) :
  l !! i = Some v -> ~ In v cats ->
  row_sum (map (fun cat => indicator cat l) cats) i = 0%Qc.
Proof.
  intros Hv. induction cats as [|cat cats IH]; intros Hnot; simpl; [reflexivity|].
  rewrite (cell_indicator cat v l i Hv).
  rewrite bool_decide_eq_false_2 by (intros ->; apply Hnot; left; reflexivity).
  rewrite IH by (intros H; apply Hnot; right; exact H). ring.
Qed.

(** In a row whose value is one of the categories, exactly one indicator
    is 1. *)
Lemma row_sum_indicators (cats l : list value) (i : nat) (v : value) :
  NoDup cats -> l !! i = Some v -> In v cats ->
  row_sum (map (fun cat => indicator cat l) cats) i = 1%Qc.
Proof.
  intros Hnd Hv. induction cats as [|cat cats IH]; intros Hin; simpl; [contradiction|].
  apply NoDup_cons in Hnd as [Hcat Hnd].
  rewrite (cell_indicator cat v l i Hv). case_bool_decide as E.
  - subst cat. rewrite (row_sum_indicators_absent cats l i v Hv).
    + ring.
    + intros H. apply Hcat. apply list_elem_of_In. exact H.
  - rewrite IH; [ring | exact Hnd |]. destruct Hin as [H|H]; [congruence | exact H].
Qed.

Lemma label_fit_transform_spec (lib : Library) (s : Series) :
  s_dtype (fst (label_fit_transform lib s)) = dt_int64
  /\ length (s_values (fst (label_fit_transform lib s))) = length (s_values s)
  /\ forall v, In v (s_values (fst (label_fit_transform lib s))) ->
       exists k : nat, v = VNum (num (Z.of_nat k)).
Proof.
  unfold label_fit_transform. simpl. split; [reflexivity|]. split.
  - rewrite !length_map. reflexivity.
  - intros v Hv. apply in_map_iff in Hv as (x & <- & _). eauto.
Qed.

(** ** Stage 3 as a whole *)

Section EncodingStage.
Context (lib : Library).

Lemma encode_categorical_variables_run (w w' : World) (df p : nat) (t : Table)
    (target : option string) (steps : list string) :
  frames w !! df = Some t ->
  (df < next_ref w)%nat ->
  NoDup (columns t) ->
  no_name_clash lib target t ->
  _encode_categorical_variables lib df target w = (Ok (p, steps), w') ->
  exists t', frames w' !! p = Some t'
    /\ forall c s, table_get t c = Some s ->
         exists act, encoding_of lib target c s = Ok act /\ encoded_in lib c s act t'.
Proof.
  intros Ht Hdf Hnd Hclash. unfold _encode_categorical_variables.
  rewrite (bind_run _ _ _ _ _ (df_copy_run w df t Ht)).
  set (w0 := mkWorld _ _ _ _ _).
  assert (Ht0 : frames w0 !! df = Some t).
  { subst w0. simpl. rewrite lookup_insert_ne by lia. exact Ht. }
  assert (Hp0 : frames w0 !! next_ref w = Some t).
  { subst w0. simpl. apply lookup_insert_eq. }
  rewrite (bind_run _ _ _ _ _ (df_columns_run w0 df t Ht0)).
  intros Hrun.
  destruct (encode_loop lib df t target Hclash (columns t) [] steps w0 w' (next_ref w) p t
              Hnd Ht0 Hp0) as (t' & H1 & _ & _ & H4).
  { subst w0. simpl. lia. }
  { subst w0. simpl. lia. }
  { lia. }
  { intros c Hc. destruct (table_get_in t c Hc) as [s Hs]. eauto. }
  { exact Hrun. }
  exists t'. split; [exact H1|].
  intros c s Hs. apply H4; [|exact Hs]. eapply table_get_some_in. exact Hs.
Qed.

(** The action for a categorical column that is not the target: at most
    10 distinct values, one-hot; more, label. *)
Lemma encoding_of_categorical (target : option string) (c : string) (s : Series)
    (a : ColumnAnalysis) (act : encoding_action) :
  Some c <> target ->
  _analyze_column lib s c = Ok a ->
  detected_type a = t_categorical ->
  encoding_of lib target c s = Ok act ->
  ((unique_count a <= 10)%nat -> exists cats, fit_categories (s_values s) = Ok cats
                                              /\ act = OneHot cats)
  /\ ((10 < unique_count a)%nat -> act = Label).
Proof.
  intros Htar Ha Hcat. unfold encoding_of, is_target.
  rewrite bool_decide_eq_false_2 by exact Htar. rewrite Ha. simpl. rewrite Hcat.
  destruct (Nat.leb_spec (unique_count a) 10) as [Hle|Hgt]; intros H.
  - split; [|lia]. intros _.
    destruct (fit_categories (s_values s)) as [cats|e]; [|discriminate].
    simpl in H. inversion H; subst. eauto.
  - split; [lia|]. intros _. inversion H; reflexivity.
Qed.

End EncodingStage.



(** The stores table after stage 3: the city column is gone, its two
    indicator columns are there, and the store column holds codes. *)
Example stage_3_on_stores :
  option_map columns
    (frames (snd (_encode_categorical_variables plain_library 0 None (world_of stores))) !! 3%nat)
  = Some ["store_id"; "city_LA"; "city_NYC"].
Proof. vm_compute. reflexivity. Qed.

(** ** Rows of a one-hot encoding *)

(** C6.  For a column that stage 3 one-hot encodes, the indicator columns
    it produces, one for each category, are in the result, and in every
    row whose original value is not null they sum to 1. *)
Theorem C6_one_hot_rows_sum_to_one (lib : Library) (w w' : World) (df p : nat) (t : Table)
    (target : option string) (steps : list string) :
  frames w !! df = Some t ->
  (df < next_ref w)%nat ->
  NoDup (columns t) ->
  no_name_clash lib target t ->
  _encode_categorical_variables lib df target w = (Ok (p, steps), w') ->
  exists t', frames w' !! p = Some t'
    /\ forall c s a,
         table_get t c = Some s ->
         Some c <> target ->
         _analyze_column lib s c = Ok a ->
         detected_type a = t_categorical ->
         (unique_count a <= 10)%nat ->
         exists cats,
           (forall cat, In cat cats ->
              In ((c ++ "_" ++ astype_str lib cat)%string, indicator cat (s_values s)) t')
           /\ forall i v, s_values s !! i = Some v -> isnull v = false ->
                row_sum (map (fun cat => indicator cat (s_values s)) cats) i = 1%Qc.
Proof.
  intros Ht Hdf Hnd Hclash Hrun.
  destruct (encode_categorical_variables_run lib w w' df p t target steps
              Ht Hdf Hnd Hclash Hrun) as (t' & H1 & H2).
  exists t'. split; [exact H1|].
  intros c s a Hs Htar Ha Hcat Hle.
  destruct (H2 c s Hs) as (act & Hact & Henc).
  destruct (encoding_of_categorical lib target c s a act Htar Ha Hcat Hact) as [Hlow _].
  destruct (Hlow Hle) as (cats & Hfit & ->). simpl in Henc. destruct Henc as [_ Hind].
  exists cats. split; [exact Hind|].
  intros i v Hv _. destruct (fit_categories_spec _ _ Hfit) as [Hnd' Hiff].
  apply (row_sum_indicators cats (s_values s) i v Hnd' Hv).
  apply Hiff. apply list_elem_of_In. eapply list_elem_of_lookup_2. exact Hv.
Qed.

Lemma C6_witness :
  let w := world_of city_table in
  exists w' steps,
    frames w !! 0%nat = Some city_table
    /\ (0 < next_ref w)%nat
    /\ NoDup (columns city_table)
    /\ no_name_clash plain_library None city_table
    /\ _encode_categorical_variables plain_library 0 None w = (Ok (3%nat, steps), w')
    /\ exists t', frames w' !! 3%nat = Some t'
         /\ forall c s a,
              table_get city_table c = Some s ->
              Some c <> None ->
              _analyze_column plain_library s c = Ok a ->
              detected_type a = t_categorical ->
              (unique_count a <= 10)%nat ->
              exists cats,
                (forall cat, In cat cats ->
                   In ((c ++ "_" ++ astype_str plain_library cat)%string,
                       indicator cat (s_values s)) t')
                /\ forall i v, s_values s !! i = Some v -> isnull v = false ->
                     row_sum (map (fun cat => indicator cat (s_values s)) cats) i = 1%Qc.
Proof.
  intros w.
  destruct (_encode_categorical_variables plain_library 0 None w) as [[[p steps]|e] w'] eqn:Hrun;
    [|vm_compute in Hrun; discriminate].
  assert (Hp : p = 3%nat) by (vm_compute in Hrun; inversion Hrun; reflexivity).
  subst p.
  assert (H0 : frames w !! 0%nat = Some city_table) by reflexivity.
  assert (H1 : (0 < next_ref w)%nat) by (vm_compute; lia).
  assert (H2 : NoDup (columns city_table))
    by (apply (bool_decide_eq_true_1 (NoDup (columns city_table))); vm_compute; reflexivity).
  assert (H3 : no_name_clash plain_library None city_table)
    by (apply no_name_clash_b_sound; vm_compute; reflexivity).
  exists w', steps.
  split; [exact H0|]. split; [exact H1|]. split; [exact H2|]. split; [exact H3|].
  split; [first [exact Hrun | reflexivity]|].
  exact (C6_one_hot_rows_sum_to_one plain_library w w' 0%nat 3%nat city_table None steps
           H0 H1 H2 H3 Hrun).
Defined.

(** The city scenario: two categories, the columns city_LA and city_NYC,
    and 1 as the sum of each of the five rows. *)
Example city_one_hot :
  frames (snd (_encode_categorical_variables plain_library 0 None (world_of city_table))) !! 3%nat
  = Some [("city_LA", flt [VNum 0%Qc; VNum 1%Qc; VNum 0%Qc; VNum 0%Qc; VNum 1%Qc]);
          ("city_NYC", flt [VNum 1%Qc; VNum 0%Qc; VNum 1%Qc; VNum 1%Qc; VNum 0%Qc])]
  /\ map (row_sum [flt [VNum 0%Qc; VNum 1%Qc; VNum 0%Qc; VNum 0%Qc; VNum 1%Qc];
                   flt [VNum 1%Qc; VNum 0%Qc; VNum 1%Qc; VNum 1%Qc; VNum 0%Qc]])
         (seq 0 5)
     = [1%Qc; 1%Qc; 1%Qc; 1%Qc; 1%Qc].
Proof. split; vm_compute; reflexivity. Qed.

(** ** The age scenario, whatever the date parser says *)

(** The date parser of pandas reads numbers as offsets from the epoch, so
    a numeric column can come out as datetime.  The age column is then
    forward filled, and the null is filled with 30 all the same: whenever
    stage 1 returns on the age table, the column is [25, 30, 30, 40]. *)
Lemma age_null_filled_with_30 (lib : Library) (w' : World) (p : nat) (steps : list string) :
  _handle_missing_values lib 0 (world_of age_table) = (Ok (p, steps), w') ->
  frames w' !! p
  = Some [("age", flt [VNum (num 25); VNum (num 30); VNum (num 30); VNum (num 40)])].
Proof.
  intros Hrun.
  assert (H0 : frames (world_of age_table) !! 0%nat = Some age_table) by reflexivity.
  assert (H1 : (0 < next_ref (world_of age_table))%nat) by (vm_compute; lia).
  assert (H2 : NoDup (columns age_table))
    by (apply (bool_decide_eq_true_1 (NoDup (columns age_table))); vm_compute; reflexivity).
  destruct (handle_missing_values_run lib _ w' 0 p age_table steps H0 H1 H2 Hrun)
    as (t' & Ht' & Hcols & Hcol).
  destruct (Hcol "age" age_column eq_refl) as (s' & Himp & Hget).
  assert (Hs' : s' = flt [VNum (num 25); VNum (num 30); VNum (num 30); VNum (num 40)]).
  { unfold impute_column in Himp. change (has_null age_column) with true in Himp.
    cbv iota in Himp. unfold _analyze_column in Himp.
    change (slen age_column =? 0)%nat with false in Himp.
    change (slen (dropna age_column) =? 0)%nat with false in Himp.
    change (_is_numeric_column lib (dropna age_column)) with true in Himp.
    cbv iota in Himp.
    destruct (_is_datetime_column lib (dropna age_column)).
    - destruct (pd_to_datetime lib (dropna age_column)); [|discriminate].
      simpl in Himp. inversion Himp. reflexivity.
    - assert (Hmed : impute_median lib age_column
                     = Ok (flt [VNum (num 25); VNum (num 30); VNum (num 30); VNum (num 40)],
                           mkImputer "median" (VNum (num 30)))) by (vm_compute; reflexivity).
      cbv beta iota zeta delta [obind detected_type] in Himp.
      rewrite Hmed in Himp. inversion Himp. reflexivity. }
  subst s'. transitivity (Some t'); [exact Ht'|]. f_equal.
  destruct t' as [|[c x] [|? ?]]; simpl in Hcols; try discriminate.
  inversion Hcols; subst c. simpl in Hget. inversion Hget. reflexivity.
Qed.

(* ================================================================== *)
(** * Further properties of the code *)

(** ** The segmentation summary *)

Lemma count_of_cons (v a : value) (l : list value) :
  count_of v (a :: l) = ((if bool_decide (a = v) then 1 else 0) + count_of v l)%nat.
Proof. unfold count_of. simpl. case_bool_decide; reflexivity. Qed.

Lemma sum_counts_cons (L l : list value) (a : value) :
  NoDup L ->
  list_sum (map (fun v => count_of v (a :: l)) L)
  = (list_sum (map (fun v => count_of v l) L) + (if bool_decide (a ∈ L) then 1 else 0))%nat.
Proof.
  induction L as [|v L IH]; intros Hnd; [reflexivity|].
  apply NoDup_cons in Hnd as [Hv Hnd]. simpl. rewrite (IH Hnd), count_of_cons.
  destruct (decide (a = v)) as [->|Hne].
  - rewrite (bool_decide_eq_true_2 (v = v)) by reflexivity.
    rewrite (bool_decide_eq_false_2 (v ∈ L)) by exact Hv.
    rewrite (bool_decide_eq_true_2 (v ∈ v :: L)) by (apply elem_of_cons; auto). lia.
  - rewrite (bool_decide_eq_false_2 (a = v)) by exact Hne.
    destruct (decide (a ∈ L)) as [Hin|Hnin].
    + rewrite (bool_decide_eq_true_2 (a ∈ L)) by exact Hin.
      rewrite (bool_decide_eq_true_2 (a ∈ v :: L)) by (apply elem_of_cons; auto). lia.
    + rewrite (bool_decide_eq_false_2 (a ∈ L)) by exact Hnin.
      rewrite (bool_decide_eq_false_2 (a ∈ v :: L))
        by (intros H; apply elem_of_cons in H as [H|H]; auto). lia.
Qed.

Lemma sum_counts_without (L l : list value) (a : value) :
  NoDup L ->
  list_sum (map (fun v => count_of v l) L)
  = ((if bool_decide (a ∈ L) then count_of a l else 0)
     + list_sum (map (fun v => count_of v l)
                     (List.filter (fun w => negb (bool_decide (w = a))) L)))%nat.
Proof.
  induction L as [|v L IH]; intros Hnd; [reflexivity|].
  apply NoDup_cons in Hnd as [Hv Hnd]. simpl. rewrite (IH Hnd).
  destruct (decide (v = a)) as [->|Hne].
  - rewrite (bool_decide_eq_true_2 (a = a)) by reflexivity. simpl.
    rewrite (bool_decide_eq_false_2 (a ∈ L)) by exact Hv.
    rewrite (bool_decide_eq_true_2 (a ∈ a :: L)) by (apply elem_of_cons; auto). lia.
  - rewrite (bool_decide_eq_false_2 (v = a)) by exact Hne. simpl.
    destruct (decide (a ∈ L)) as [Hin|Hnin].
    + rewrite (bool_decide_eq_true_2 (a ∈ L)) by exact Hin.
      rewrite (bool_decide_eq_true_2 (a ∈ v :: L)) by (apply elem_of_cons; auto). lia.
    + rewrite (bool_decide_eq_false_2 (a ∈ L)) by exact Hnin.
      rewrite (bool_decide_eq_false_2 (a ∈ v :: L))
        by (intros H; apply elem_of_cons in H as [H|H]; auto). lia.
Qed.

(** The counts of the distinct values of a list add up to its length. *)
Lemma sum_counts_unique (l : list value) :
  list_sum (map (fun v => count_of v l) (unique_values l)) = length l.
Proof.
  induction l as [|a l IH]; [reflexivity|].
  rewrite (sum_counts_cons _ l a (unique_values_NoDup (a :: l))).
  rewrite (bool_decide_eq_true_2 (a ∈ unique_values (a :: l)))
    by (simpl; apply elem_of_cons; auto).
  simpl unique_values. simpl map. simpl list_sum.
  pose proof (sum_counts_without (unique_values l) l a (unique_values_NoDup l)) as H.
  rewrite IH in H.
  destruct (decide (a ∈ unique_values l)) as [Hin|Hnin].
  - rewrite (bool_decide_eq_true_2 _ Hin) in H. simpl. lia.
  - rewrite (bool_decide_eq_false_2 _ Hnin) in H.
    rewrite (count_of_not_in l a).
    + simpl. lia.
    + intros Hl. apply Hnin. apply list_elem_of_In, unique_values_In. exact Hl.
Qed.

Lemma filter_filter_comm {A} (f g : A -> bool) (l : list A) :
  List.filter f (List.filter g l) = List.filter g (List.filter f l).
Proof.
  induction l as [|a l IH]; [reflexivity|]. simpl.
  destruct (f a) eqn:Ef; destruct (g a) eqn:Eg; simpl; rewrite ?Ef, ?Eg, IH; reflexivity.
Qed.

Lemma filter_notnull_ne_null (l : list value) :
  List.filter notnull (List.filter (fun w => negb (bool_decide (w = VNull))) l)
  = List.filter notnull l.
Proof.
  induction l as [|a l IH]; [reflexivity|]. simpl.
  destruct a; simpl; rewrite ?IH; reflexivity.
Qed.

Lemma unique_values_dropna (l : list value) :
  List.filter notnull (unique_values l) = unique_values (List.filter notnull l).
Proof.
  induction l as [|a l IH]; [reflexivity|]. simpl.
  destruct (notnull a) eqn:E; simpl.
  - rewrite filter_filter_comm, IH. reflexivity.
  - destruct a; try discriminate. rewrite filter_notnull_ne_null. exact IH.
Qed.

Lemma count_of_dropna (l : list value) (v : value) :
  notnull v = true -> count_of v (List.filter notnull l) = count_of v l.
Proof.
  intros Hv. unfold count_of. induction l as [|a l IH]; [reflexivity|]. simpl.
  destruct (notnull a) eqn:E; simpl.
  - case_bool_decide; simpl; rewrite IH; reflexivity.
  - rewrite bool_decide_eq_false_2 by (intros ->; congruence). exact IH.
Qed.

Lemma filter_split_length {A} (f : A -> bool) (l : list A) :
  length l = (length (List.filter f l) + length (List.filter (fun x => negb (f x)) l))%nat.
Proof.
  induction l as [|a l IH]; [reflexivity|]. simpl.
  destruct (f a); simpl; lia.
Qed.

Lemma nulls_of_distinct (L : list value) :
  NoDup L ->
  length (List.filter isnull L) = if existsb isnull L then 1%nat else 0%nat.
Proof.
  induction L as [|v L IH]; intros Hnd; [reflexivity|].
  apply NoDup_cons in Hnd as [Hv Hnd]. simpl. destruct v; simpl; try exact (IH Hnd).
  rewrite (IH Hnd). destruct (existsb isnull L) eqn:E; [|reflexivity].
  exfalso. apply existsb_exists in E as (u & Hu & Hn). destruct u; try discriminate.
  apply Hv. apply list_elem_of_In. exact Hu.
Qed.

Lemma existsb_isnull_unique (l : list value) :
  existsb isnull (unique_values l) = existsb isnull l.
Proof.
  destruct (existsb isnull l) eqn:E.
  - apply existsb_exists in E as (u & Hu & Hn). apply existsb_exists.
    exists u. split; [apply unique_values_In; exact Hu | exact Hn].
  - destruct (existsb isnull (unique_values l)) eqn:E'; [|reflexivity].
    apply existsb_exists in E' as (u & Hu & Hn).
    assert (existsb isnull l = true)
      by (apply existsb_exists; exists u; split; [apply unique_values_In; exact Hu | exact Hn]).
    congruence.
Qed.

(** X1.  On a column that exists, [_prepare_segmentation] returns without
    touching the store.  Its segments are the distinct values of the
    column, each once; the counts have one entry for each segment that is
    not null and add up to the number of non-null rows; and
    [total_segments] counts a null as a segment although the counts have
    no entry for it. *)
Theorem X1_segmentation_counts (w : World) (df : nat) (t : Table) (c : string) (s : Series) :
  frames w !! df = Some t ->
  table_get t c = Some s ->
  exists info, _prepare_segmentation df c w = (Ok info, w)
    /\ seg_column info = c
    /\ NoDup (segments info)
    /\ (forall v, In v (segments info) <-> In v (s_values s))
    /\ NoDup (map fst (segment_counts info))
    /\ (forall v, In v (map fst (segment_counts info))
                  <-> In v (segments info) /\ isnull v = false)
    /\ (forall v n, In (v, n) (segment_counts info) -> n = count_of v (s_values s))
    /\ list_sum (map snd (segment_counts info)) = length (List.filter notnull (s_values s))
    /\ total_segments info
       = (length (segment_counts info) + (if has_null s then 1 else 0))%nat.
Proof.
  intros Ht Hs. unfold _prepare_segmentation.
  rewrite (bind_run _ _ _ _ _ (df_getitem_run w df t c s Ht Hs)).
  eexists. split; [reflexivity|]. simpl.
  split; [reflexivity|]. split; [apply unique_values_NoDup|].
  split; [intros v; apply unique_values_In|].
  assert (Hkeys : map fst (map (fun v => (v, count_of v (s_values s)))
                            (List.filter notnull (unique_values (s_values s))))
                  = List.filter notnull (unique_values (s_values s)))
    by (rewrite map_map; simpl; apply map_id).
  split.
  { rewrite Hkeys. apply NoDup_ListNoDup, List.NoDup_filter, NoDup_ListNoDup.
    apply unique_values_NoDup. }
  split.
  { intros v. rewrite Hkeys, filter_In. unfold notnull. rewrite negb_true_iff. tauto. }
  split.
  { intros v n Hin. apply in_map_iff in Hin as (u & Hu & _). inversion Hu; reflexivity. }
  split.
  - rewrite map_map. simpl. rewrite unique_values_dropna.
    rewrite <- (sum_counts_unique (List.filter notnull (s_values s))).
    f_equal. apply map_ext_in. intros v Hv. symmetry. apply count_of_dropna.
    apply unique_values_In, filter_In in Hv. tauto.
  - rewrite length_map.
    rewrite (filter_split_length notnull (unique_values (s_values s))) at 1.
    f_equal. unfold has_null. rewrite <- existsb_isnull_unique.
    rewrite <- (nulls_of_distinct _ (unique_values_NoDup (s_values s))).
    f_equal. apply filter_ext. intros v. destruct v; reflexivity.
Qed.

Lemma X1_witness :
  let w := world_of region_table in
  frames w !! 0%nat = Some region_table
  /\ table_get region_table "region" = Some region_column
  /\ exists info, _prepare_segmentation 0 "region" w = (Ok info, w)
       /\ seg_column info = "region"
       /\ NoDup (segments info)
       /\ (forall v, In v (segments info) <-> In v (s_values region_column))
       /\ NoDup (map fst (segment_counts info))
       /\ (forall v, In v (map fst (segment_counts info))
                     <-> In v (segments info) /\ isnull v = false)
       /\ (forall v n, In (v, n) (segment_counts info) ->
             n = count_of v (s_values region_column))
       /\ list_sum (map snd (segment_counts info))
          = length (List.filter notnull (s_values region_column))
       /\ total_segments info
          = (length (segment_counts info) + (if has_null region_column then 1 else 0))%nat.
Proof.
  intros w.
  assert (H0 : frames w !! 0%nat = Some region_table) by reflexivity.
  assert (H1 : table_get region_table "region" = Some region_column) by reflexivity.
  split; [exact H0|]. split; [exact H1|].
  exact (X1_segmentation_counts w 0 region_table "region" region_column H0 H1).
Defined.

(** North three times, South twice and one null: two counts, three
    segments. *)
Example segmentation_of_regions :
  fst (_prepare_segmentation 0 "region" (world_of region_table))
  = Ok (mkSegmentationInfo "region" [VStr "North"; VStr "South"; VNull]
          [(VStr "North", 3%nat); (VStr "South", 2%nat)] 3).
Proof. vm_compute. reflexivity. Qed.

(** ** One date-like cell *)

Lemma firstn_min_length {A} (n : nat) (l : list A) :
  firstn (min n (length l)) l = firstn n l.
Proof.
  destruct (Nat.le_ge_cases n (length l)) as [H|H].
  - rewrite Nat.min_l by exact H. reflexivity.
  - rewrite Nat.min_r by exact H. rewrite firstn_all, firstn_all2 by exact H. reflexivity.
Qed.

(** The datetime test succeeds as soon as one of the first 100 cells
    begins like a date, whatever the date parser makes of the sample. *)
Lemma is_datetime_column_date_like (lib : Library) (s : Series) (v : value) :
  In v (firstn 100 (s_values s)) ->
  date_like (astype_str lib v) = true ->
  _is_datetime_column lib s = true.
Proof.
  intros Hin Hlike. unfold _is_datetime_column.
  destruct (pd_to_datetime lib _); [reflexivity|].
  unfold date_like in Hlike. apply existsb_exists in Hlike as (pattern & Hp & Hm).
  apply existsb_exists. exists pattern. split; [exact Hp|].
  apply existsb_exists. exists (astype_str lib v). split; [|exact Hm].
  apply in_map. unfold head, slen. cbn [s_values]. rewrite firstn_min_length. exact Hin.
Qed.

(** X2.  A column with a string cell that begins like a date among its
    first 100 non-null cells is never classified numeric, categorical or
    text, however many numbers it holds: the detector answers datetime,
    and it raises exactly when the conversion of the whole column to
    dates fails. *)
Theorem X2_one_date_like_cell_decides (lib : Library) (s : Series) (name x : string) :
  In (VStr x) (firstn 100 (s_values (dropna s))) ->
  date_like x = true ->
  (forall a, _analyze_column lib s name = Ok a -> detected_type a = t_datetime)
  /\ (pd_to_datetime lib (dropna s) = None ->
      _analyze_column lib s name = Raise (LibraryError "to_datetime"))
  /\ (is_Some (pd_to_datetime lib (dropna s)) ->
      exists a, _analyze_column lib s name = Ok a /\ detected_type a = t_datetime).
Proof.
  intros Hin Hlike.
  assert (Hdt : _is_datetime_column lib (dropna s) = true)
    by (apply (is_datetime_column_date_like lib (dropna s) (VStr x)); assumption).
  assert (Hlen : (0 < slen (dropna s))%nat).
  { unfold slen. destruct (s_values (dropna s)); [|simpl; lia].
    rewrite firstn_nil in Hin. contradiction. }
  assert (Hs : (slen s =? 0)%nat = false).
  { apply Nat.eqb_neq. pose proof (filter_length_le notnull (s_values s)) as Hle.
    unfold slen, dropna in *. simpl in *. lia. }
  assert (Hd : (slen (dropna s) =? 0)%nat = false) by (apply Nat.eqb_neq; lia).
  unfold _analyze_column. rewrite Hs, Hd, Hdt.
  destruct (pd_to_datetime lib (dropna s)) as [d|].
  - split; [intros a Ha; inversion Ha; reflexivity|].
    split; [discriminate|]. intros _. eexists. split; reflexivity.
  - split; [discriminate|]. split; [reflexivity|]. intros [d Hd']. discriminate.
Qed.

(** Nine numbers and one sentence that begins with a date. *)
Lemma X2_witness :
  In (VStr "2020-01-01 was a good day") (firstn 100 (s_values (dropna diary_column)))
  /\ date_like "2020-01-01 was a good day" = true
  /\ (forall a, _analyze_column plain_library diary_column "amount" = Ok a ->
                detected_type a = t_datetime)
  /\ _analyze_column plain_library diary_column "amount" = Raise (LibraryError "to_datetime").
Proof.
  assert (H1 : In (VStr "2020-01-01 was a good day")
                  (firstn 100 (s_values (dropna diary_column)))) by (simpl; auto).
  assert (H2 : date_like "2020-01-01 was a good day" = true) by reflexivity.
  destruct (X2_one_date_like_cell_decides plain_library diary_column "amount" _ H1 H2)
    as (Ha & Hb & _).
  split; [exact H1|]. split; [exact H2|]. split; [exact Ha|].
  apply Hb. reflexivity.
Defined.

(** ** Label codes *)

Lemma index_of_lookup {A} `{EqDecision A} (x : A) (l : list A) :
  In x l -> l !! index_of x l = Some x.
Proof.
  induction l as [|y l IH]; intros Hin; [contradiction|]. simpl.
  case_bool_decide as E; [subst; reflexivity|].
  simpl. apply IH. destruct Hin as [H|H]; [congruence | exact H].
Qed.

Lemma num_of_nat_inj (j k : nat) : num (Z.of_nat j) = num (Z.of_nat k) -> j = k.
Proof.
  unfold num. intros H. apply (f_equal this) in H. simpl in H.
  rewrite !Qred_identity in H by (simpl; apply Z.gcd_1_r).
  inversion H. lia.
Qed.


(** ** Tables that stage 1 and stage 2 have nothing to do with *)

Lemma copy_world_lookup (w : World) (t : Table) (df : nat) :
  frames w !! df = Some t -> frames (copy_world w t) !! df = Some t.
Proof.
  intros Ht. unfold copy_world. simpl.
  destruct (decide (next_ref w = df)) as [->|Hne].
  - apply lookup_insert_eq.
  - rewrite lookup_insert_ne by exact Hne. exact Ht.
Qed.

Lemma copy_world_fresh (w : World) (t : Table) :
  frames (copy_world w t) !! next_ref w = Some t.
Proof. unfold copy_world. simpl. apply lookup_insert_eq. Qed.

Lemma df_copy_copy_world (w : World) (df : nat) (t : Table) :
  frames w !! df = Some t -> df_copy df w = (Ok (next_ref w), copy_world w t).
Proof. apply df_copy_run. Qed.

Section NothingToDo.
Context (lib : Library).

Lemma handle_missing_loop_no_nulls (w : World) (df p : nat) (t : Table) :
  frames w !! df = Some t ->
  (forall c s, table_get t c = Some s -> has_null s = false) ->
  forall (cols : list string) (steps : list string),
    (forall c, c ∈ cols -> c ∈ columns t) ->
    for_each cols (handle_missing_column lib df p) steps w = (Ok steps, w).
Proof.
  intros Ht Hnn. induction cols as [|c cols IH]; intros steps Hcols; [reflexivity|].
  simpl. destruct (table_get_in t c) as [s Hs]; [apply Hcols, elem_of_cons; auto|].
  assert (Hbody : handle_missing_column lib df p steps c w = (Ok steps, w)).
  { unfold handle_missing_column.
    rewrite (bind_run _ _ _ _ _ (df_getitem_run w df t c s Ht Hs)).
    rewrite (Hnn c s Hs). reflexivity. }
  rewrite (bind_run _ _ _ _ _ Hbody). apply IH.
  intros c0 Hc0. apply Hcols, elem_of_cons. auto.
Qed.

Lemma handle_missing_values_no_nulls (w : World) (df : nat) (t : Table) :
  frames w !! df = Some t ->
  (forall c s, table_get t c = Some s -> has_null s = false) ->
  _handle_missing_values lib df w = (Ok (next_ref w, []), copy_world w t).
Proof.
  intros Ht Hnn. unfold _handle_missing_values.
  pose proof (copy_world_lookup w t df Ht) as Ht'.
  rewrite (bind_run _ _ _ _ _ (df_copy_copy_world w df t Ht)).
  rewrite (bind_run _ _ _ _ _ (df_columns_run _ df t Ht')).
  erewrite bind_run; [reflexivity|].
  apply (handle_missing_loop_no_nulls _ df (next_ref w) t Ht' Hnn). auto.
Qed.

(** X4.  On a table in which no column has a null, stage 1 returns a copy
    of the table as it is, logs no step and leaves the registries alone.
    It does not ask the detector, so it returns even where the detector
    would raise. *)
Theorem X4_stage_1_without_nulls (w : World) (df : nat) (t : Table) :
  frames w !! df = Some t ->
  (forall c s, table_get t c = Some s -> has_null s = false) ->
  _handle_missing_values lib df w = (Ok (next_ref w, []), copy_world w t).
Proof.
  intros Ht Hnn. unfold _handle_missing_values.
  rewrite (bind_run _ _ _ _ _ (df_copy_copy_world w df t Ht)).
  rewrite (bind_run _ _ _ _ _ (df_columns_run _ df t (copy_world_lookup w t df Ht))).
  rewrite (bind_run _ _ _ _ _
             (handle_missing_loop_no_nulls _ df (next_ref w) t (copy_world_lookup w t df Ht)
                Hnn (columns t) [] (fun c H => H))).
  reflexivity.
Qed.

(** Stage 2 on a table in which the detector finds no datetime column:
    a copy, no step. *)
Lemma process_datetime_columns_no_datetime (w : World) (df : nat) (t : Table) :
  frames w !! df = Some t ->
  (forall c s, table_get t c = Some s ->
     exists a, _analyze_column lib s c = Ok a /\ detected_type a <> t_datetime) ->
  _process_datetime_columns lib df w = (Ok (next_ref w, []), copy_world w t).
Proof.
  intros Ht Hnd. unfold _process_datetime_columns.
  rewrite (bind_run _ _ _ _ _ (df_copy_copy_world w df t Ht)).
  rewrite (bind_run _ _ _ _ _ (df_columns_run _ df t (copy_world_lookup w t df Ht))).
  match goal with
  | |- bind (for_each _ ?body _) _ _ = _ => set (body0 := body)
  end.
  assert (Hloop : forall (cols : list string) (steps : list string),
             (forall c, c ∈ cols -> c ∈ columns t) ->
             for_each cols body0 steps (copy_world w t) = (Ok steps, copy_world w t)).
  { induction cols as [|c cols IH]; intros steps Hcols; [reflexivity|].
    simpl. destruct (table_get_in t c) as [s Hs]; [apply Hcols, elem_of_cons; auto|].
    destruct (Hnd c s Hs) as (a & Ha & Hty).
    assert (Hbody : body0 steps c (copy_world w t) = (Ok steps, copy_world w t)).
    { subst body0. cbv beta.
      rewrite (bind_run _ _ _ _ _
                 (df_getitem_run _ df t c s (copy_world_lookup w t df Ht) Hs)).
      unfold bind at 1, lift at 1. rewrite Ha.
      destruct (detected_type a); try contradiction; reflexivity. }
    rewrite (bind_run _ _ _ _ _ Hbody). apply IH.
    intros c0 Hc0. apply Hcols, elem_of_cons. auto. }
  rewrite (bind_run _ _ _ _ _ (Hloop (columns t) [] (fun c H => H))).
  reflexivity.
Qed.

End NothingToDo.

Lemma no_nulls_b_sound (t : Table) :
  forallb (fun p => negb (has_null (snd p))) t = true ->
  forall c s, table_get t c = Some s -> has_null s = false.
Proof.
  intros H c s Hs. rewrite forallb_forall in H.
  specialize (H (c, s) (table_get_In t c s Hs)). simpl in H.
  apply negb_true_iff in H. exact H.
Qed.

Lemma X4_witness :
  let w := world_of city_table in
  frames w !! 0%nat = Some city_table
  /\ (forall c s, table_get city_table c = Some s -> has_null s = false)
  /\ _handle_missing_values plain_library 0 w = (Ok (next_ref w, []), copy_world w city_table).
Proof.
  intros w.
  assert (H0 : frames w !! 0%nat = Some city_table) by reflexivity.
  assert (H1 : forall c s, table_get city_table c = Some s -> has_null s = false)
    by (apply no_nulls_b_sound; reflexivity).
  split; [exact H0|]. split; [exact H1|].
  exact (X4_stage_1_without_nulls plain_library w 0 city_table H0 H1).
Defined.

(** ** A table without rows *)

Lemma bind_raise {A B} (c : M A) (k : A -> M B) (w w1 : World) (e : exn) :
  c w = (Raise e, w1) -> bind c k w = (Raise e, w1).
Proof. intros H. unfold bind. rewrite H. reflexivity. Qed.

(** X5.  On a table that has a column but no row, [prepare_for_modeling]
    raises [ZeroDivisionError]: stage 1 finds no null and returns, and in
    stage 2 the detector divides the number of distinct values of the
    first column by its length. *)
Theorem X5_no_rows_raises (lib : Library) (w : World) (df : nat) (t : Table)
    (target seg : option string) :
  frames w !! df = Some t ->
  t <> [] ->
  (forall c s, table_get t c = Some s -> slen s = 0%nat) ->
  fst (prepare_for_modeling lib df target seg w) = Raise ZeroDivisionError.
Proof.
  intros Ht Hne Hrows.
  assert (Hnn : forall c s, table_get t c = Some s -> has_null s = false).
  { intros c s Hs. specialize (Hrows c s Hs). unfold slen in Hrows. unfold has_null.
    destruct (s_values s); [reflexivity | discriminate]. }
  unfold prepare_for_modeling.
  rewrite (bind_run _ _ _ _ _ (df_copy_copy_world w df t Ht)).
  set (w0 := copy_world w t).
  assert (Ht0 : frames w0 !! next_ref w = Some t) by apply copy_world_fresh.
  rewrite (bind_run _ _ _ _ _ (handle_missing_values_no_nulls lib w0 (next_ref w) t Ht0 Hnn)).
  set (w1 := copy_world w0 t). cbn [fst].
  assert (Ht1 : frames w1 !! next_ref w0 = Some t) by apply copy_world_fresh.
  assert (Hstage2 : exists w2,
             _process_datetime_columns lib (next_ref w0) w1 = (Raise ZeroDivisionError, w2)).
  { unfold _process_datetime_columns.
    rewrite (bind_run _ _ _ _ _ (df_copy_copy_world w1 _ t Ht1)).
    pose proof (copy_world_lookup w1 t _ Ht1) as Ht2.
    rewrite (bind_run _ _ _ _ _ (df_columns_run _ _ t Ht2)).
    destruct t as [|[c0 s0] t']; [contradiction|].
    assert (Hs0 : table_get ((c0, s0) :: t') c0 = Some s0)
      by (simpl; rewrite bool_decide_eq_true_2 by reflexivity; reflexivity).
    eexists. apply bind_raise. simpl for_each. apply bind_raise.
    rewrite (bind_run _ _ _ _ _ (df_getitem_run _ _ _ c0 s0 Ht2 Hs0)).
    apply bind_raise. unfold lift, _analyze_column.
    rewrite (Hrows c0 s0 Hs0). reflexivity. }
  destruct Hstage2 as [w2 Hstage2].
  rewrite (bind_raise _ _ _ _ _ Hstage2). reflexivity.
Qed.

Lemma X5_witness :
  let w := world_of no_rows in
  frames w !! 0%nat = Some no_rows
  /\ no_rows <> []
  /\ (forall c s, table_get no_rows c = Some s -> slen s = 0%nat)
  /\ fst (prepare_for_modeling plain_library 0 (Some "sales") (Some "region") w)
     = Raise ZeroDivisionError.
Proof.
  intros w.
  assert (H0 : frames w !! 0%nat = Some no_rows) by reflexivity.
  assert (H1 : no_rows <> []) by discriminate.
  assert (H2 : forall c s, table_get no_rows c = Some s -> slen s = 0%nat).
  { intros c s Hs. apply table_get_In in Hs. simpl in Hs.
    destruct Hs as [Hs|[Hs|[]]]; inversion Hs; reflexivity. }
  split; [exact H0|]. split; [exact H1|]. split; [exact H2|].
  exact (X5_no_rows_raises plain_library w 0 no_rows (Some "sales") (Some "region") H0 H1 H2).
Defined.

(** ** Stage 4: what is scaled and what is not *)

Lemma df_getitems_ok_inv (df : nat) (cols : list string) (w w' : World) (xs : list Series) :
  df_getitems df cols w = (Ok xs, w') -> w' = w /\ length xs = length cols.
Proof.
  revert xs w'. induction cols as [|c cols IH]; intros xs w'; simpl.
  - unfold ret. intros H; inversion H; auto.
  - intros H. apply bind_ok_inv in H as (x & w1 & Hx & H).
    apply df_getitem_ok_inv in Hx as [-> _].
    apply bind_ok_inv in H as (l & w2 & Hl & H).
    apply IH in Hl as [-> Hlen]. unfold ret in H. inversion H; subst. simpl. auto.
Qed.

(** [df[cols] = new_columns] writes to the named columns of one frame. *)
Lemma df_setitems_ok_inv (p : nat) (cols : list string) :
  forall (ys : list Series) (w w' : World) (tp : Table),
    frames w !! p = Some tp ->
    df_setitems p cols ys w = (Ok tt, w') ->
    exists tp', frames w' = <[p := tp']> (frames w)
      /\ next_ref w' = next_ref w
      /\ same_registries w w'
      /\ (forall c, c ∉ cols -> table_get tp' c = table_get tp c)
      /\ ((forall c, c ∈ cols -> c ∈ columns tp) -> columns tp' = columns tp).
Proof.
  induction cols as [|c cols IH]; intros [|y ys] w w' tp Htp; simpl; try discriminate.
  - unfold ret. intros H; inversion H; subst. exists tp.
    split; [symmetry; apply insert_id; exact Htp|]. repeat split; auto.
  - intros H. apply bind_ok_inv in H as ([] & w1 & Hset & H).
    rewrite (df_setitem_run w p tp c y Htp) in Hset. inversion Hset; subst w1; clear Hset.
    destruct (IH ys _ w' (table_set tp c y) (lookup_insert_eq _ _ _) H)
      as (tp' & Hf & Hn & Hreg & Hget & Hcols).
    exists tp'. simpl in *. split; [rewrite Hf; apply insert_insert_eq|].
    split; [exact Hn|]. split; [exact Hreg|]. split.
    + intros c0 Hc0. apply not_elem_of_cons in Hc0 as [Hne Hc0].
      rewrite (Hget c0 Hc0). apply table_get_set_ne. congruence.
    + intros Hin. rewrite Hcols.
      * apply columns_table_set. apply Hin, elem_of_cons. auto.
      * intros c0 Hc0. rewrite columns_table_set by (apply Hin, elem_of_cons; auto).
        apply Hin, elem_of_cons. auto.
Qed.

Section Scaling.
Context (lib : Library).

(** What stage 4 returns: a fresh frame with the columns of its argument,
    in which every column that is not handed to the scaler is as it was. *)
Lemma scale_numeric_features_run (w w' : World) (df p : nat) (t : Table)
    (target : option string) (steps : list string) :
  frames w !! df = Some t ->
  _scale_numeric_features lib df target w = (Ok (p, steps), w') ->
  p = next_ref w
  /\ exists t', frames w' !! p = Some t'
       /\ columns t' = columns t
       /\ (forall c, is_scaled lib target t c = false -> table_get t' c = table_get t c)
       /\ (List.filter (is_scaled lib target t) (columns t) = [] ->
           steps = [] /\ t' = t /\ same_registries w w').
Proof.
  intros Ht. unfold _scale_numeric_features.
  rewrite (bind_run _ _ _ _ _ (df_copy_copy_world w df t Ht)).
  pose proof (copy_world_lookup w t df Ht) as Ht0.
  pose proof (copy_world_fresh w t) as Hp0.
  set (w0 := copy_world w t) in *.
  rewrite (bind_run _ _ _ _ _ (df_columns_run w0 df t Ht0)).
  match goal with
  | |- bind (for_each _ ?body _) _ _ = _ -> _ => set (body0 := body)
  end.
  assert (Hloop : forall (cols acc acc' : list string) (w1 : World),
             (forall c, c ∈ cols -> c ∈ columns t) ->
             for_each cols body0 acc w0 = (Ok acc', w1) ->
             w1 = w0 /\ acc' = acc ++ List.filter (is_scaled lib target t) cols).
  { induction cols as [|c cols IH]; intros acc acc' w1 Hcols Hrun.
    - simpl in Hrun. unfold ret in Hrun. inversion Hrun; subst.
      rewrite app_nil_r. auto.
    - simpl in Hrun. apply bind_ok_inv in Hrun as (acc1 & w2 & Hbody & Hrest).
      destruct (table_get_in t c) as [s Hs]; [apply Hcols, elem_of_cons; auto|].
      assert (Hstep : w2 = w0
                /\ acc1 = acc ++ (if is_scaled lib target t c then [c] else [])).
      { subst body0. cbv beta in Hbody. unfold is_scaled. rewrite Hs.
        destruct (is_target c target).
        - unfold ret in Hbody. inversion Hbody; subst. simpl. rewrite app_nil_r. auto.
        - rewrite (bind_run _ _ _ _ _ (df_getitem_run w0 df t c s Ht0 Hs)) in Hbody.
          unfold bind at 1, lift at 1 in Hbody.
          destruct (_analyze_column lib s c) as [a|e]; [|discriminate]. simpl.
          destruct (detected_type a); unfold ret in Hbody; inversion Hbody; subst;
            simpl; rewrite ?app_nil_r; auto. }
      destruct Hstep as [-> ->].
      apply IH in Hrest as [-> ->]; [|intros c0 Hc0; apply Hcols, elem_of_cons; auto].
      split; [reflexivity|]. simpl.
      destruct (is_scaled lib target t c); rewrite <- ?app_assoc, ?app_nil_r; reflexivity. }
  intros Hrun. apply bind_ok_inv in Hrun as (numeric_columns & w1 & Hcollect & Hrun).
  apply Hloop in Hcollect as [-> Hnum]; [|auto]. simpl in Hnum.
  assert (Hsub : forall c, c ∈ numeric_columns ->
             c ∈ columns t /\ is_scaled lib target t c = true).
  { intros c Hc. rewrite Hnum in Hc. apply list_elem_of_In, filter_In in Hc as [Hc Hsc].
    split; [apply list_elem_of_In; exact Hc | exact Hsc]. }
  destruct numeric_columns as [|c0 numeric_columns'] eqn:Enum.
  - unfold ret in Hrun. inversion Hrun; subst. split; [reflexivity|].
    exists t. split; [exact Hp0|]. split; [reflexivity|]. split; [reflexivity|].
    intros _. repeat split.
  - assert (Hne : numeric_columns <> []) by (rewrite Enum; discriminate).
    rewrite <- Enum in *. clear Enum.
    apply bind_ok_inv in Hrun as (xs & w1 & Hget & Hrun).
    apply df_getitems_ok_inv in Hget as [-> _].
    destruct (standard_scaler lib xs) as [ys|]; [|discriminate].
    apply bind_ok_inv in Hrun as ([] & w1 & Hset & Hrun).
    destruct (df_setitems_ok_inv _ numeric_columns ys w0 w1 t Hp0 Hset)
      as (t' & Hf & Hn & Hreg & Hkeep & Hcols).
    unfold bind, set_scaler, ret in Hrun. simpl in Hrun. inversion Hrun; subst; clear Hrun.
    split; [reflexivity|]. exists t'. simpl.
    split; [rewrite Hf; apply lookup_insert_eq|].
    split; [apply Hcols; intros c Hc; apply (Hsub c Hc)|].
    split.
    + intros c Hc. apply Hkeep. intros Hin. destruct (Hsub c Hin) as [_ H]. congruence.
    + intros Hnone. contradiction.
Qed.

End Scaling.

Lemma filter_none {A} (f : A -> bool) (l : list A) :
  (forall x, In x l -> f x = false) -> List.filter f l = [].
Proof.
  induction l as [|x l IH]; simpl; intros H; [reflexivity|].
  rewrite (H x) by auto. auto.
Qed.

(** X6.  Stage 4 returns a fresh frame with the column names of its
    argument, in the same order.  The target column, and every column the
    detector does not call numeric, hold what they held; when no column is
    handed to the scaler the table is unchanged, no step is reported and no
    scaler is registered. *)
Theorem X6_stage_4_touches_only_numeric (lib : Library) (w w' : World) (df p : nat)
    (t : Table) (target : option string) (steps : list string) :
  frames w !! df = Some t ->
  _scale_numeric_features lib df target w = (Ok (p, steps), w') ->
  p = next_ref w
  /\ exists t', frames w' !! p = Some t'
       /\ columns t' = columns t
       /\ (forall tc, target = Some tc -> table_get t' tc = table_get t tc)
       /\ (forall c s a, table_get t c = Some s ->
             _analyze_column lib s c = Ok a ->
             detected_type a <> t_numeric ->
             table_get t' c = Some s)
       /\ ((forall c s a, table_get t c = Some s ->
              _analyze_column lib s c = Ok a ->
              detected_type a = t_numeric -> Some c = target) ->
           steps = [] /\ t' = t /\ same_registries w w').
Proof.
  intros Ht Hrun.
  destruct (scale_numeric_features_run lib w w' df p t target steps Ht Hrun)
    as (Hp & t' & Ht' & Hcols & Hkeep & Hnone).
  split; [exact Hp|]. exists t'. split; [exact Ht'|]. split; [exact Hcols|].
  split; [|split].
  - intros tc ->. apply Hkeep. unfold is_scaled, is_target.
    rewrite bool_decide_eq_true_2 by reflexivity. reflexivity.
  - intros c s a Hs Ha Hty. rewrite <- Hs. apply Hkeep.
    unfold is_scaled. rewrite Hs, Ha.
    rewrite (bool_decide_eq_false_2 _ Hty). apply andb_false_r.
  - intros Hall. apply Hnone. apply filter_none.
    intros c Hc. unfold is_scaled.
    destruct (table_get_in t c (proj2 (list_elem_of_In _ _) Hc)) as [s Hs]. rewrite Hs.
    destruct (is_target c target) eqn:Htc; [reflexivity|]. simpl.
    destruct (_analyze_column lib s c) as [a|e] eqn:Ha; [|reflexivity].
    case_bool_decide as Hty; [|reflexivity].
    specialize (Hall c s a Hs Ha Hty). unfold is_target in Htc.
    rewrite bool_decide_eq_true_2 in Htc by exact Hall. discriminate.
Qed.

Lemma X6_witness :
  let w := world_of customers in
  exists w' steps,
    frames w !! 0%nat = Some customers
    /\ _scale_numeric_features plain_library 0 None w = (Ok (1%nat, steps), w')
    /\ exists t', frames w' !! 1%nat = Some t'
         /\ columns t' = columns customers
         /\ table_get t' "city" = table_get customers "city".
Proof.
  intros w.
  destruct (_scale_numeric_features plain_library 0 None w) as [[[p steps]|e] w'] eqn:Hrun;
    [|vm_compute in Hrun; discriminate].
  assert (Hp : p = 1%nat) by (vm_compute in Hrun; inversion Hrun; reflexivity).
  subst p.
  assert (H0 : frames w !! 0%nat = Some customers) by reflexivity.
  exists w', steps. split; [exact H0|]. split; [first [exact Hrun | reflexivity]|].
  destruct (X6_stage_4_touches_only_numeric plain_library w w' 0%nat 1%nat customers None
              steps H0 Hrun) as (_ & t' & Ht' & Hcols & _ & Hkeep & _).
  exists t'. split; [exact Ht'|]. split; [exact Hcols|].
  destruct (_analyze_column plain_library
              (obj [VStr "NYC"; VStr "LA"; VNull; VStr "NYC"]) "city") as [a|e] eqn:Ha;
    [|vm_compute in Ha; discriminate].
  apply (Hkeep "city" _ a eq_refl Ha).
  vm_compute in Ha. inversion Ha. discriminate.
Defined.

(** ** Stage 2: the features of the datetime columns *)

Lemma append_inj (c a b : string) : (c ++ a)%string = (c ++ b)%string -> a = b.
Proof. induction c as [|x c IH]; simpl; intros H; [exact H | inversion H; auto]. Qed.

Lemma append_self_inv (c a : string) : (c ++ a)%string = c -> a = EmptyString.
Proof. induction c as [|x c IH]; simpl; intros H; [exact H | inversion H; auto]. Qed.

Ltac names_ne :=
  let E := fresh "E" in
  intros E;
  first [ apply append_inj in E; discriminate E
        | apply append_self_inv in E; discriminate E
        | symmetry in E; apply append_self_inv in E; discriminate E ].

Lemma derived_names_NoDup (c : string) : NoDup (derived_names c).
Proof.
  unfold derived_names.
  repeat (apply NoDup_cons_2;
          [rewrite ?not_elem_of_cons; repeat split; try names_ne; apply not_elem_of_nil|]).
  apply NoDup_nil_2.
Qed.

Lemma datetime_features_names (lib : Library) (c : string) (d : Series) :
  map fst (datetime_features lib c d) = derived_names c.
Proof. reflexivity. Qed.

Lemma put_frame_lookup (w : World) (p : nat) (tp : Table) :
  frames (put_frame w p tp) !! p = Some tp.
Proof. apply lookup_insert_eq. Qed.

Lemma put_frame_lookup_ne (w : World) (p q : nat) (tp : Table) :
  p <> q -> frames (put_frame w p tp) !! q = frames w !! q.
Proof. intros H. apply lookup_insert_ne. exact H. Qed.

Lemma put_frame_id (w : World) (p : nat) (tp : Table) :
  frames w !! p = Some tp -> put_frame w p tp = w.
Proof.
  intros H. destruct w as [f n i e sc]. unfold put_frame. simpl in *.
  f_equal. apply insert_id. exact H.
Qed.

Lemma put_frame_put_frame (w : World) (p : nat) (a b : Table) :
  put_frame (put_frame w p a) p b = put_frame w p b.
Proof. unfold put_frame. simpl. f_equal. apply insert_insert_eq. Qed.

Lemma df_setitem_put (w : World) (p : nat) (tp : Table) (c : string) (s : Series) :
  frames w !! p = Some tp -> df_setitem p c s w = (Ok tt, put_frame w p (table_set tp c s)).
Proof. apply df_setitem_run. Qed.

Lemma derive_run (w : World) (p : nat) (tp : Table) (dst src : string)
    (f : Series -> Series) (x : Series) :
  frames w !! p = Some tp -> table_get tp src = Some x ->
  derive p dst src f w = (Ok tt, put_frame w p (table_set tp dst (f x))).
Proof.
  intros Hp Hx. unfold derive.
  rewrite (bind_run _ _ _ _ _ (df_getitem_run w p tp src x Hp Hx)).
  apply df_setitem_put. exact Hp.
Qed.

Lemma df_getitem_raise (w : World) (df : nat) (t : Table) (c : string) :
  frames w !! df = Some t -> table_get t c = None ->
  df_getitem df c w = (Raise (KeyError c), w).
Proof.
  intros Ht Hc. unfold df_getitem. rewrite (bind_run _ _ _ _ _ (read_frame_some df w t Ht)).
  rewrite Hc. reflexivity.
Qed.

Lemma columns_table_set_grow (t : Table) (c x : string) (s : Series) :
  x ∈ columns t -> x ∈ columns (table_set t c s).
Proof.
  intros Hx. destruct (decide (c = x)) as [->|Hne].
  - eapply table_get_some_in. apply table_get_set_eq.
  - destruct (table_get_in t x Hx) as [y Hy].
    eapply table_get_some_in. rewrite table_get_set_ne by exact Hne. exact Hy.
Qed.

Lemma table_sets_cons (t : Table) (c : string) (s : Series) (l : list (string * Series)) :
  table_sets t ((c, s) :: l) = table_sets (table_set t c s) l.
Proof. reflexivity. Qed.

Lemma columns_table_sets_grow (l : list (string * Series)) :
  forall (t : Table) (x : string), x ∈ columns t -> x ∈ columns (table_sets t l).
Proof.
  induction l as [|[c s] l IH]; intros t x Hx; [exact Hx|].
  rewrite table_sets_cons. apply IH. apply columns_table_set_grow. exact Hx.
Qed.

Lemma table_get_table_sets_other (l : list (string * Series)) :
  forall (t : Table) (x : string),
    x ∉ map fst l -> table_get (table_sets t l) x = table_get t x.
Proof.
  induction l as [|[c s] l IH]; intros t x Hx; [reflexivity|].
  simpl in Hx. apply not_elem_of_cons in Hx as [Hne Hx].
  rewrite table_sets_cons, IH by exact Hx.
  apply table_get_set_ne. congruence.
Qed.

Lemma table_get_table_sets_in (l : list (string * Series)) :
  forall (t : Table) (x : string) (y : Series),
    NoDup (map fst l) -> In (x, y) l -> table_get (table_sets t l) x = Some y.
Proof.
  induction l as [|[c s] l IH]; intros t x y Hnd Hin; [destruct Hin|].
  simpl in Hnd. apply NoDup_cons in Hnd as [Hc Hnd].
  rewrite table_sets_cons.
  destruct Hin as [Heq|Hin].
  - inversion Heq; subst.
    rewrite (table_get_table_sets_other l (table_set t x y) x Hc). apply table_get_set_eq.
  - apply IH; assumption.
Qed.

Lemma columns_table_sets_in (l : list (string * Series)) :
  forall (t : Table) (x : string), x ∈ map fst l -> x ∈ columns (table_sets t l).
Proof.
  induction l as [|[c s] l IH]; intros t x Hx; simpl in Hx.
  - apply elem_of_nil in Hx. contradiction.
  - rewrite table_sets_cons. apply elem_of_cons in Hx as [->|Hx].
    + apply columns_table_sets_grow. eapply table_get_some_in. apply table_get_set_eq.
    + apply IH. exact Hx.
Qed.

Section DatetimeColumns.
Context (lib : Library).

(** The loop of [_process_datetime_columns] computes [datetime_pass]. *)
Lemma process_datetime_columns_run (w : World) (df : nat) (t : Table) :
  frames w !! df = Some t ->
  (df < next_ref w)%nat ->
  match datetime_pass lib t (columns t) (t, []) with
  | Ok st =>
      _process_datetime_columns lib df w
      = (Ok (next_ref w, snd st), put_frame (copy_world w t) (next_ref w) (fst st))
  | Raise e => fst (_process_datetime_columns lib df w) = Raise e
  end.
Proof.
  intros Ht Hdf. unfold _process_datetime_columns.
  rewrite (bind_run _ _ _ _ _ (df_copy_copy_world w df t Ht)).
  pose proof (copy_world_lookup w t df Ht) as Ht0.
  pose proof (copy_world_fresh w t) as Hp0.
  set (w0 := copy_world w t) in *. set (p := next_ref w) in *.
  assert (Hne : p <> df) by (subst p; lia).
  rewrite (bind_run _ _ _ _ _ (df_columns_run w0 df t Ht0)).
  match goal with
  | |- context [bind (for_each _ ?body _) _ _] => set (body0 := body)
  end.
  assert (Hstep : forall (c : string) (st : Table * list string) (w1 : World),
             frames w1 !! df = Some t ->
             frames w1 !! p = Some (fst st) ->
             match datetime_column_pass lib t st c with
             | Ok st' => body0 (snd st) c w1 = (Ok (snd st'), put_frame w1 p (fst st'))
             | Raise e => exists w2, body0 (snd st) c w1 = (Raise e, w2)
             end).
  { intros c [tp steps] w1 Hdf1 Hp1. simpl in Hp1. unfold datetime_column_pass. simpl fst. simpl snd.
    subst body0. cbv beta.
    destruct (table_get t c) as [s|] eqn:Hs.
    2:{ exists w1. apply bind_raise. apply df_getitem_raise with t; assumption. }
    rewrite (bind_run _ _ _ _ _ (df_getitem_run w1 df t c s Hdf1 Hs)).
    destruct (_analyze_column lib s c) as [a|e] eqn:Ha; simpl obind.
    2:{ exists w1. apply bind_raise. reflexivity. }
    rewrite (bind_run _ _ _ w1 a (eq_refl : lift (Ok a) w1 = (Ok a, w1))).
    destruct (detected_type a) eqn:Hty;
      try (cbn [fst snd]; unfold ret; rewrite (put_frame_id w1 p tp Hp1); reflexivity).
    destruct (table_get tp c) as [x|] eqn:Hx.
    2:{ exists w1. apply bind_raise. apply df_getitem_raise with tp; assumption. }
    rewrite (bind_run _ _ _ _ _ (df_getitem_run w1 p tp c x Hp1 Hx)).
    destruct (pd_to_datetime lib x) as [d|] eqn:Hd.
    2:{ exists w1. reflexivity. }
    rewrite (bind_run _ _ _ _ _ (df_setitem_put w1 p tp c d Hp1)).
    repeat (erewrite bind_run;
            [| apply derive_run;
               [apply put_frame_lookup
               | rewrite ?table_get_set_ne by names_ne; apply table_get_set_eq]]).
    unfold ret. rewrite !put_frame_put_frame. reflexivity. }
  assert (Hloop : forall (cols : list string) (st : Table * list string) (w1 : World),
             frames w1 !! df = Some t ->
             frames w1 !! p = Some (fst st) ->
             match datetime_pass lib t cols st with
             | Ok st' =>
                 for_each cols body0 (snd st) w1 = (Ok (snd st'), put_frame w1 p (fst st'))
             | Raise e => fst (for_each cols body0 (snd st) w1) = Raise e
             end).
  { induction cols as [|c cols IH]; intros st w1 Hdf1 Hp1; simpl.
    - unfold ret. rewrite (put_frame_id w1 p (fst st) Hp1). reflexivity.
    - specialize (Hstep c st w1 Hdf1 Hp1).
      destruct (datetime_column_pass lib t st c) as [st1|e]; simpl obind.
      + rewrite (bind_run _ _ _ _ _ Hstep).
        specialize (IH st1 (put_frame w1 p (fst st1))).
        rewrite put_frame_lookup_ne in IH by exact Hne.
        specialize (IH Hdf1 (put_frame_lookup _ _ _)).
        destruct (datetime_pass lib t cols st1) as [st2|e].
        * rewrite IH. rewrite put_frame_put_frame. reflexivity.
        * exact IH.
      + destruct Hstep as [w2 Hstep]. rewrite (bind_raise _ _ _ _ _ Hstep). reflexivity. }
  specialize (Hloop (columns t) (t, []) w0 Ht0 Hp0). simpl fst in Hloop. simpl snd in Hloop.
  destruct (datetime_pass lib t (columns t) (t, [])) as [st|e].
  - rewrite (bind_run _ _ _ _ _ Hloop). reflexivity.
  - unfold bind at 1. destruct (for_each (columns t) body0 [] w0) as [[x|e'] w1]; simpl in *;
      [discriminate | congruence].
Qed.

End DatetimeColumns.

Lemma datetime_column_pass_ok_inv (lib : Library) (t : Table) (st st' : Table * list string)
    (c : string) :
  datetime_column_pass lib t st c = Ok st' ->
  (is_datetime_in lib t c = false /\ st' = st)
  \/ (is_datetime_in lib t c = true
      /\ exists x d, table_get (fst st) c = Some x
           /\ pd_to_datetime lib x = Some d
           /\ fst st' = table_sets (fst st) (datetime_features lib c d)
           /\ length (snd st') = S (length (snd st))).
Proof.
  unfold datetime_column_pass, is_datetime_in.
  destruct (table_get t c) as [s|]; [|discriminate].
  destruct (_analyze_column lib s c) as [a|e]; simpl; [|discriminate].
  destruct (detected_type a) eqn:Hty;
    try (intros H; inversion H; left; split; reflexivity).
  destruct (table_get (fst st) c) as [x|]; [|discriminate].
  destruct (pd_to_datetime lib x) as [d|] eqn:Hd; [|discriminate].
  intros H. inversion H. right. split; [reflexivity|].
  exists x, d. repeat split; try assumption.
  simpl. rewrite length_app. simpl. lia.
Qed.

(** What a run of the loop keeps, and what it adds. *)
Lemma datetime_pass_props (lib : Library) (t : Table) (cols : list string) :
  forall st st', datetime_pass lib t cols st = Ok st' ->
    (forall x, x ∈ columns (fst st) -> x ∈ columns (fst st'))
    /\ (forall x, (forall c, c ∈ cols -> is_datetime_in lib t c = true -> x ∉ derived_names c) ->
          table_get (fst st') x = table_get (fst st) x)
    /\ (forall c x, c ∈ cols -> is_datetime_in lib t c = true -> x ∈ derived_names c ->
          x ∈ columns (fst st'))
    /\ length (snd st') = length (snd st) + length (List.filter (is_datetime_in lib t) cols).
Proof.
  induction cols as [|c0 cols IH]; intros st st' H; simpl in H.
  - inversion H; subst. split; [auto|]. split; [auto|]. split.
    + intros c x Hc. apply elem_of_nil in Hc. contradiction.
    + simpl. lia.
  - destruct (datetime_column_pass lib t st c0) as [st1|e] eqn:H1; simpl in H; [|discriminate].
    destruct (IH st1 st' H) as (Hgrow & Hother & Hnames & Hlen).
    apply datetime_column_pass_ok_inv in H1
      as [[Hdt ->]|(Hdt & x0 & d & Hx0 & Hd & Hst1 & Hlen1)].
    + split; [exact Hgrow|]. split; [|split].
      * intros x Hx. apply Hother. intros c Hc. apply Hx, elem_of_cons. auto.
      * intros c x Hc Hc' Hx. apply elem_of_cons in Hc as [->|Hc]; [congruence|].
        apply (Hnames c x Hc Hc' Hx).
      * simpl. rewrite Hdt. exact Hlen.
    + split; [|split; [|split]].
      * intros x Hx. apply Hgrow. rewrite Hst1. apply columns_table_sets_grow. exact Hx.
      * intros x Hx. rewrite Hother by (intros c Hc; apply Hx, elem_of_cons; auto).
        rewrite Hst1. apply table_get_table_sets_other.
        rewrite datetime_features_names. apply Hx; [apply elem_of_cons; auto | exact Hdt].
      * intros c x Hc Hc' Hx. apply elem_of_cons in Hc as [->|Hc].
        -- apply Hgrow. rewrite Hst1. apply columns_table_sets_in.
           rewrite datetime_features_names. exact Hx.
        -- apply (Hnames c x Hc Hc' Hx).
      * simpl. rewrite Hdt. simpl. lia.
Qed.

(** What the loop leaves under the names of one datetime column, when no
    other datetime column writes one of them. *)
Lemma datetime_pass_features (lib : Library) (t : Table) (cols : list string) :
  forall st st' c s,
    datetime_pass lib t cols st = Ok st' ->
    NoDup cols ->
    c ∈ cols ->
    is_datetime_in lib t c = true ->
    table_get (fst st) c = Some s ->
    (forall c', c' ∈ cols -> c' <> c -> is_datetime_in lib t c' = true ->
       forall x, x ∈ derived_names c' -> x ∉ derived_names c) ->
    exists d, pd_to_datetime lib s = Some d
      /\ forall x y, In (x, y) (datetime_features lib c d) -> table_get (fst st') x = Some y.
Proof.
  induction cols as [|c0 cols IH]; intros st st' c s H Hnd Hc Hdt Hs Hapart.
  - apply elem_of_nil in Hc. contradiction.
  - simpl in H.
    destruct (datetime_column_pass lib t st c0) as [st1|e] eqn:H1; simpl in H; [|discriminate].
    apply NoDup_cons in Hnd as [Hc0 Hnd].
    assert (Hself : c ∈ derived_names c) by (apply elem_of_cons; auto).
    apply datetime_column_pass_ok_inv in H1
      as [[Hdt0 ->]|(Hdt0 & x0 & d & Hx0 & Hd & Hst1 & _)].
    + apply elem_of_cons in Hc as [->|Hc]; [congruence|].
      apply (IH st st' c s H Hnd Hc Hdt Hs).
      intros c' Hc' Hne. apply Hapart; [apply elem_of_cons; auto | exact Hne].
    + apply elem_of_cons in Hc as [->|Hc].
      * rewrite Hs in Hx0. inversion Hx0; subst x0. exists d. split; [exact Hd|].
        intros x y Hin.
        destruct (datetime_pass_props lib t cols st1 st' H) as (_ & Hother & _).
        rewrite Hother.
        -- rewrite Hst1. apply table_get_table_sets_in; [|exact Hin].
           rewrite datetime_features_names. apply derived_names_NoDup.
        -- intros c' Hc' Hdt' Hx.
           assert (Hne : c' <> c0) by (intros ->; contradiction).
           apply (Hapart c' (proj2 (elem_of_cons _ _ _) (or_intror Hc')) Hne Hdt' x Hx).
           rewrite <- (datetime_features_names lib c0 d).
           apply list_elem_of_In. exact (in_map fst _ _ Hin).
      * assert (Hne : c0 <> c) by (intros ->; contradiction).
        apply (IH st1 st' c s H Hnd Hc Hdt).
        -- rewrite Hst1, table_get_table_sets_other; [exact Hs|].
           rewrite datetime_features_names. intros Hin.
           apply (Hapart c0 (proj2 (elem_of_cons _ _ _) (or_introl eq_refl)) Hne Hdt0 c Hin Hself).
        -- intros c' Hc' Hne'. apply Hapart; [apply elem_of_cons; auto | exact Hne'].
Qed.

(** X7.  Stage 2 only adds to the table.  Every column name of its argument
    is a column of the fresh frame it returns, and so are the eleven names
    it assigns for each column it detects as a date; a column whose name is
    not among those assigned names holds what it held; one step is reported
    for each datetime column, and no registry changes. *)
Theorem X7_stage_2_only_adds (lib : Library) (w w' : World) (df p : nat) (t : Table)
    (steps : list string) :
  frames w !! df = Some t ->
  (df < next_ref w)%nat ->
  _process_datetime_columns lib df w = (Ok (p, steps), w') ->
  p = next_ref w
  /\ same_registries w w'
  /\ exists t', frames w' !! p = Some t'
       /\ (forall x, x ∈ columns t -> x ∈ columns t')
       /\ (forall c x, c ∈ columns t -> is_datetime_in lib t c = true ->
             x ∈ derived_names c -> x ∈ columns t')
       /\ (forall x,
             (forall c, c ∈ columns t -> is_datetime_in lib t c = true ->
                x ∉ derived_names c) ->
             table_get t' x = table_get t x)
       /\ length steps = length (List.filter (is_datetime_in lib t) (columns t)).
Proof.
  intros Ht Hdf Hrun.
  pose proof (process_datetime_columns_run lib w df t Ht Hdf) as Hspec.
  destruct (datetime_pass lib t (columns t) (t, [])) as [st|e] eqn:Hpass.
  - rewrite Hspec in Hrun. inversion Hrun; subst; clear Hrun.
    destruct (datetime_pass_props lib t (columns t) _ _ Hpass)
      as (Hgrow & Hother & Hnames & Hlen).
    split; [reflexivity|]. split; [repeat split|].
    exists (fst st). split; [apply put_frame_lookup|]. auto.
  - rewrite Hrun in Hspec. discriminate.
Qed.

Lemma X7_witness :
  let w := world_of calendar in
  exists w' steps,
    frames w !! 0%nat = Some calendar
    /\ (0 < next_ref w)%nat
    /\ _process_datetime_columns plain_library 0 w = (Ok (1%nat, steps), w')
    /\ exists t', frames w' !! 1%nat = Some t'
         /\ (forall x, x ∈ columns calendar -> x ∈ columns t')
         /\ length steps = 1%nat.
Proof.
  intros w.
  destruct (_process_datetime_columns plain_library 0 w) as [[[p steps]|e] w'] eqn:Hrun;
    [|vm_compute in Hrun; discriminate].
  assert (Hp : p = 1%nat) by (vm_compute in Hrun; inversion Hrun; reflexivity).
  subst p.
  assert (H0 : frames w !! 0%nat = Some calendar) by reflexivity.
  assert (H1 : (0 < next_ref w)%nat) by (vm_compute; lia).
  exists w', steps. split; [exact H0|]. split; [exact H1|].
  split; [first [exact Hrun | reflexivity]|].
  destruct (X7_stage_2_only_adds plain_library w w' 0%nat 1%nat calendar steps H0 H1 Hrun)
    as (_ & _ & t' & Ht' & Hgrow & _ & _ & Hlen).
  exists t'. split; [exact Ht'|]. split; [exact Hgrow|].
  rewrite Hlen. vm_compute. reflexivity.
Defined.

(** X8.  For a column that stage 2 detects as a date, and whose eleven
    assigned names no other datetime column assigns, the returned frame
    holds the column converted by [pd.to_datetime] and, under the ten
    derived names, the year, month, day, day of week, quarter, weekend flag
    and the four cyclical encodings computed from the converted column. *)
Theorem X8_datetime_column_features (lib : Library) (w w' : World) (df p : nat) (t : Table)
    (steps : list string) (c : string) (s : Series) :
  frames w !! df = Some t ->
  (df < next_ref w)%nat ->
  NoDup (columns t) ->
  table_get t c = Some s ->
  is_datetime_in lib t c = true ->
  (forall c', c' ∈ columns t -> c' <> c -> is_datetime_in lib t c' = true ->
     forall x, x ∈ derived_names c' -> x ∉ derived_names c) ->
  _process_datetime_columns lib df w = (Ok (p, steps), w') ->
  exists t' d,
    frames w' !! p = Some t'
    /\ pd_to_datetime lib s = Some d
    /\ table_get t' c = Some d
    /\ table_get t' (c ++ "_year")%string = Some (dt_year lib d)
    /\ table_get t' (c ++ "_month")%string = Some (dt_month lib d)
    /\ table_get t' (c ++ "_day")%string = Some (dt_day lib d)
    /\ table_get t' (c ++ "_dayofweek")%string = Some (dt_dayofweek lib d)
    /\ table_get t' (c ++ "_quarter")%string = Some (dt_quarter lib d)
    /\ table_get t' (c ++ "_is_weekend")%string = Some (ge5_as_int (dt_dayofweek lib d))
    /\ table_get t' (c ++ "_month_sin")%string = Some (np_sin_cycle lib 12 (dt_month lib d))
    /\ table_get t' (c ++ "_month_cos")%string = Some (np_cos_cycle lib 12 (dt_month lib d))
    /\ table_get t' (c ++ "_dayofweek_sin")%string
       = Some (np_sin_cycle lib 7 (dt_dayofweek lib d))
    /\ table_get t' (c ++ "_dayofweek_cos")%string
       = Some (np_cos_cycle lib 7 (dt_dayofweek lib d)).
Proof.
  intros Ht Hdf Hnd Hs Hdt Hapart Hrun.
  pose proof (process_datetime_columns_run lib w df t Ht Hdf) as Hspec.
  destruct (datetime_pass lib t (columns t) (t, [])) as [st|e] eqn:Hpass.
  - rewrite Hspec in Hrun. inversion Hrun; subst; clear Hrun.
    destruct (datetime_pass_features lib t (columns t) (t, []) st c s Hpass Hnd
                (table_get_some_in t c s Hs) Hdt Hs Hapart) as (d & Hd & Hfeat).
    exists (fst st), d. split; [apply put_frame_lookup|]. split; [exact Hd|].
    repeat split; apply Hfeat; simpl; tauto.
  - rewrite Hrun in Hspec. discriminate.
Qed.

Lemma X8_witness :
  let w := world_of calendar in
  let s := obj [VStr "2020-01-01"; VStr "2020-01-03"; VStr "2020-01-04"] in
  exists w' steps t' d,
    frames w !! 0%nat = Some calendar
    /\ (0 < next_ref w)%nat
    /\ NoDup (columns calendar)
    /\ table_get calendar "day" = Some s
    /\ is_datetime_in plain_library calendar "day" = true
    /\ _process_datetime_columns plain_library 0 w = (Ok (1%nat, steps), w')
    /\ frames w' !! 1%nat = Some t'
    /\ pd_to_datetime plain_library s = Some d
    /\ table_get t' "day_is_weekend"
       = Some (ge5_as_int (dt_dayofweek plain_library d)).
Proof.
  intros w s.
  destruct (_process_datetime_columns plain_library 0 w) as [[[p steps]|e] w'] eqn:Hrun;
    [|vm_compute in Hrun; discriminate].
  assert (Hp : p = 1%nat) by (vm_compute in Hrun; inversion Hrun; reflexivity).
  subst p.
  assert (H0 : frames w !! 0%nat = Some calendar) by reflexivity.
  assert (H1 : (0 < next_ref w)%nat) by (vm_compute; lia).
  assert (H2 : NoDup (columns calendar))
    by (apply (bool_decide_eq_true_1 (NoDup (columns calendar))); vm_compute; reflexivity).
  assert (H3 : table_get calendar "day" = Some s) by reflexivity.
  assert (H4 : is_datetime_in plain_library calendar "day" = true)
    by (vm_compute; reflexivity).
  assert (H5 : forall c', c' ∈ columns calendar -> c' <> "day" ->
                 is_datetime_in plain_library calendar c' = true ->
                 forall x, x ∈ derived_names c' -> x ∉ derived_names "day").
  { intros c' Hc' Hne Hdt'. apply list_elem_of_In in Hc'. simpl in Hc'.
    destruct Hc' as [<-|[<-|[]]]; [congruence | vm_compute in Hdt'; discriminate]. }
  destruct (X8_datetime_column_features plain_library w w' 0%nat 1%nat calendar steps
              "day" s H0 H1 H2 H3 H4 H5 Hrun)
    as (t' & d & Ht' & Hd & _ & _ & _ & _ & _ & _ & Hwe & _).
  exists w', steps, t', d.
  split; [exact H0|]. split; [exact H1|]. split; [exact H2|]. split; [exact H3|].
  split; [exact H4|]. split; [first [exact Hrun | reflexivity]|].
  split; [exact Ht'|]. split; [exact Hd|]. exact Hwe.
Defined.

(** ** The whole pipeline on a table without nulls and without dates *)

Lemma prepare_segmentation_ok_inv (df : nat) (c : string) (w w' : World)
    (i : SegmentationInfo) :
  _prepare_segmentation df c w = (Ok i, w') -> w' = w.
Proof.
  unfold _prepare_segmentation. intros H.
  apply bind_ok_inv in H as (s & w1 & Hs & H).
  apply df_getitem_ok_inv in Hs as [-> _].
  unfold ret in H. inversion H. reflexivity.
Qed.

Lemma truthy_some (name : option string) (c : string) :
  truthy name = Some c -> name = Some c.
Proof. destruct name as [[|x n]|]; simpl; intros H; [discriminate | exact H | discriminate]. Qed.

Section PlainTables.
Context (lib : Library).

(** On such a table stages 1 and 2 copy; the result is what stages 3 and
    4 make of the table itself. *)
Lemma prepare_for_modeling_plain (w w' : World) (df : nat) (t : Table)
    (target seg : option string) (r : Prepared) :
  frames w !! df = Some t ->
  (forall c s, table_get t c = Some s -> has_null s = false) ->
  (forall c s, table_get t c = Some s ->
     exists a, _analyze_column lib s c = Ok a /\ detected_type a <> t_datetime) ->
  NoDup (columns t) ->
  no_name_clash lib target t ->
  prepare_for_modeling lib df target seg w = (Ok r, w') ->
  exists t3 t4,
    frames w' !! processed_data r = Some t4
    /\ (forall c s, table_get t c = Some s ->
          exists act, encoding_of lib target c s = Ok act /\ encoded_in lib c s act t3)
    /\ columns t4 = columns t3
    /\ (forall c, is_scaled lib target t3 c = false -> table_get t4 c = table_get t3 c)
    /\ ((forall c, truthy seg = Some c -> c ∉ columns t4) -> segmentation_info r = None)
    /\ feature_columns r
       = List.filter (fun col => negb (is_target col target)) (columns t4).
Proof.
  intros Ht Hnn Hnd Hdup Hclash Hrun. unfold prepare_for_modeling in Hrun.
  rewrite (bind_run _ _ _ _ _ (df_copy_copy_world w df t Ht)) in Hrun.
  rewrite (bind_run _ _ _ _ _
             (handle_missing_values_no_nulls lib _ _ t (copy_world_fresh w t) Hnn)) in Hrun.
  cbn [fst snd] in Hrun.
  rewrite (bind_run _ _ _ _ _
             (process_datetime_columns_no_datetime lib _ _ t (copy_world_fresh _ t) Hnd))
    in Hrun.
  cbn [fst snd] in Hrun.
  apply bind_ok_inv in Hrun as ([p3 steps3] & w3 & H3 & Hrun).
  destruct (encode_categorical_variables_run lib _ w3 _ p3 t target steps3
              (copy_world_fresh _ t) (Nat.lt_succ_diag_r _) Hdup Hclash H3)
    as (t3 & Ht3 & Henc).
  apply bind_ok_inv in Hrun as ([p4 steps4] & w4 & H4 & Hrun).
  cbn [fst snd] in H4, Hrun.
  destruct (scale_numeric_features_run lib w3 w4 p3 p4 t3 target steps4 Ht3 H4)
    as (_ & t4 & Ht4 & Hcols & Hkeep & _).
  rewrite (bind_run _ _ _ _ _ (df_columns_run w4 p4 t4 Ht4)) in Hrun.
  apply bind_ok_inv in Hrun as (info & w5 & Hseg & Hrun).
  unfold bind, get_encoders, get_scalers, ret in Hrun. inversion Hrun; subst; clear Hrun.
  cbn [processed_data segmentation_info feature_columns].
  assert (Hw : w' = w4 /\ ((forall c, truthy seg = Some c -> c ∉ columns t4) -> info = None)).
  { destruct (truthy seg) as [c|] eqn:Hc.
    - case_bool_decide as Hin.
      + apply bind_ok_inv in Hseg as (i & w6 & Hi & Hseg).
        apply prepare_segmentation_ok_inv in Hi as ->.
        unfold ret in Hseg. inversion Hseg; subst. split; [reflexivity|].
        intros Hout. destruct (Hout c eq_refl Hin).
      + unfold ret in Hseg. inversion Hseg; subst. auto.
    - unfold ret in Hseg. inversion Hseg; subst. auto. }
  destruct Hw as [-> Hinfo].
  exists t3, t4. auto 10.
Qed.

End PlainTables.

(** X9.  On a table without nulls and without datetime columns, a
    segmentation column that stage 3 one-hot encodes (categorical, at most
    ten distinct values, not the target) is no longer a column of the
    processed table, and the result carries no segmentation info. *)
Theorem X9_one_hot_segmentation_column_lost (lib : Library) (w w' : World) (df : nat)
    (t : Table) (target : option string) (seg : string) (s : Series) (a : ColumnAnalysis)
    (r : Prepared) :
  frames w !! df = Some t ->
  (forall c s, table_get t c = Some s -> has_null s = false) ->
  (forall c s, table_get t c = Some s ->
     exists a, _analyze_column lib s c = Ok a /\ detected_type a <> t_datetime) ->
  NoDup (columns t) ->
  no_name_clash lib target t ->
  table_get t seg = Some s ->
  Some seg <> target ->
  _analyze_column lib s seg = Ok a ->
  detected_type a = t_categorical ->
  (unique_count a <= 10)%nat ->
  prepare_for_modeling lib df target (Some seg) w = (Ok r, w') ->
  segmentation_info r = None
  /\ exists t', frames w' !! processed_data r = Some t' /\ seg ∉ columns t'.
Proof.
  intros Ht Hnn Hnd Hdup Hclash Hs Hnt Ha Hty Hu Hrun.
  destruct (prepare_for_modeling_plain lib w w' df t target (Some seg) r
              Ht Hnn Hnd Hdup Hclash Hrun)
    as (t3 & t4 & Ht4 & Henc & Hcols & _ & Hinfo & _).
  assert (Hout : seg ∉ columns t4).
  { rewrite Hcols. apply table_get_none_iff.
    destruct (Henc seg s Hs) as (act & Hact & Hin).
    unfold encoding_of, is_target in Hact.
    rewrite bool_decide_eq_false_2 in Hact by exact Hnt.
    rewrite Ha in Hact. simpl in Hact. rewrite Hty in Hact.
    apply Nat.leb_le in Hu. rewrite Hu in Hact.
    destruct (fit_categories (s_values s)) as [cats|e]; simpl in Hact; [|discriminate].
    inversion Hact; subst act. destruct Hin as [Hin _]. exact Hin. }
  split.
  - apply Hinfo. intros c Hc. apply truthy_some in Hc. inversion Hc; subst. exact Hout.
  - exists t4. auto.
Qed.

Lemma X9_witness :
  let w := world_of stores in
  exists r w' s a,
    frames w !! 0%nat = Some stores
    /\ table_get stores "city" = Some s
    /\ _analyze_column plain_library s "city" = Ok a
    /\ detected_type a = t_categorical
    /\ (unique_count a <= 10)%nat
    /\ prepare_for_modeling plain_library 0 None (Some "city") w = (Ok r, w')
    /\ segmentation_info r = None.
Proof.
  intros w.
  destruct (prepare_for_modeling plain_library 0 None (Some "city") w)
    as [[r|e] w'] eqn:Hrun; [|vm_compute in Hrun; discriminate].
  destruct (table_get stores "city") as [s|] eqn:Hs; [|vm_compute in Hs; discriminate].
  destruct (_analyze_column plain_library s "city") as [a|e] eqn:Ha;
    [|vm_compute in Hs; inversion Hs; subst s; vm_compute in Ha; discriminate].
  assert (H0 : frames w !! 0%nat = Some stores) by reflexivity.
  assert (H1 : forall c s, table_get stores c = Some s -> has_null s = false)
    by (apply no_nulls_b_sound; vm_compute; reflexivity).
  assert (H2 : forall c s, table_get stores c = Some s ->
                 exists a, _analyze_column plain_library s c = Ok a
                           /\ detected_type a <> t_datetime).
  { intros c s0 Hs0. apply table_get_In in Hs0. simpl in Hs0.
    destruct Hs0 as [Hs0|[Hs0|[]]]; inversion Hs0; subst;
      (eexists; split; [vm_compute; reflexivity | discriminate]). }
  assert (H3 : NoDup (columns stores))
    by (apply (bool_decide_eq_true_1 (NoDup (columns stores))); vm_compute; reflexivity).
  assert (H4 : no_name_clash plain_library None stores)
    by (apply no_name_clash_b_sound; vm_compute; reflexivity).
  assert (H5 : Some "city" <> @None string) by discriminate.
  assert (H6 : detected_type a = t_categorical)
    by (vm_compute in Hs; inversion Hs; subst s; vm_compute in Ha; inversion Ha; reflexivity).
  assert (H7 : (unique_count a <= 10)%nat)
    by (vm_compute in Hs; inversion Hs; subst s; vm_compute in Ha; inversion Ha; simpl; lia).
  exists r, w', s, a.
  split; [exact H0|]. split; [reflexivity|]. split; [exact Ha|]. split; [exact H6|].
  split; [exact H7|]. split; [first [exact Hrun | reflexivity]|].
  exact (proj1 (X9_one_hot_segmentation_column_lost plain_library w w' 0%nat stores None
                  "city" s a r H0 H1 H2 H3 H4 Hs H5 Ha H6 H7 Hrun)).
Defined.

(** X10.  On a table without nulls and without datetime columns, the
    target column of the processed table holds exactly the series it held
    in the input: stage 3 does not encode it and stage 4 does not scale it;
    and it is not among the feature columns. *)
Theorem X10_target_column_kept (lib : Library) (w w' : World) (df : nat) (t : Table)
    (tc : string) (seg : option string) (s : Series) (r : Prepared) :
  frames w !! df = Some t ->
  (forall c s, table_get t c = Some s -> has_null s = false) ->
  (forall c s, table_get t c = Some s ->
     exists a, _analyze_column lib s c = Ok a /\ detected_type a <> t_datetime) ->
  NoDup (columns t) ->
  no_name_clash lib (Some tc) t ->
  table_get t tc = Some s ->
  prepare_for_modeling lib df (Some tc) seg w = (Ok r, w') ->
  exists t', frames w' !! processed_data r = Some t'
    /\ table_get t' tc = Some s
    /\ ~ In tc (feature_columns r).
Proof.
  intros Ht Hnn Hnd Hdup Hclash Hs Hrun.
  destruct (prepare_for_modeling_plain lib w w' df t (Some tc) seg r
              Ht Hnn Hnd Hdup Hclash Hrun)
    as (t3 & t4 & Ht4 & Henc & _ & Hkeep & _ & Hfeat).
  exists t4. split; [exact Ht4|]. split.
  - rewrite Hkeep.
    + destruct (Henc tc s Hs) as (act & Hact & Hin).
      unfold encoding_of, is_target in Hact.
      rewrite bool_decide_eq_true_2 in Hact by reflexivity.
      inversion Hact; subst act. exact Hin.
    + unfold is_scaled, is_target. rewrite bool_decide_eq_true_2 by reflexivity. reflexivity.
  - rewrite Hfeat. intros Hin. apply filter_In in Hin as [_ Hin].
    unfold is_target in Hin. rewrite bool_decide_eq_true_2 in Hin by reflexivity.
    discriminate.
Qed.

Lemma X10_witness :
  let w := world_of stores in
  exists r w' s t',
    frames w !! 0%nat = Some stores
    /\ table_get stores "city" = Some s
    /\ prepare_for_modeling plain_library 0 (Some "city") None w = (Ok r, w')
    /\ frames w' !! processed_data r = Some t'
    /\ table_get t' "city" = Some s.
Proof.
  intros w.
  destruct (prepare_for_modeling plain_library 0 (Some "city") None w)
    as [[r|e] w'] eqn:Hrun; [|vm_compute in Hrun; discriminate].
  destruct (table_get stores "city") as [s|] eqn:Hs; [|vm_compute in Hs; discriminate].
  assert (H0 : frames w !! 0%nat = Some stores) by reflexivity.
  assert (H1 : forall c s, table_get stores c = Some s -> has_null s = false)
    by (apply no_nulls_b_sound; vm_compute; reflexivity).
  assert (H2 : forall c s, table_get stores c = Some s ->
                 exists a, _analyze_column plain_library s c = Ok a
                           /\ detected_type a <> t_datetime).
  { intros c s0 Hs0. apply table_get_In in Hs0. simpl in Hs0.
    destruct Hs0 as [Hs0|[Hs0|[]]]; inversion Hs0; subst;
      (eexists; split; [vm_compute; reflexivity | discriminate]). }
  assert (H3 : NoDup (columns stores))
    by (apply (bool_decide_eq_true_1 (NoDup (columns stores))); vm_compute; reflexivity).
  assert (H4 : no_name_clash plain_library (Some "city") stores)
    by (apply no_name_clash_b_sound; vm_compute; reflexivity).
  destruct (X10_target_column_kept plain_library w w' 0%nat stores "city" None s r
              H0 H1 H2 H3 H4 Hs Hrun) as (t' & Ht' & Hget & _).
  exists r, w', s, t'.
  split; [exact H0|]. split; [reflexivity|]. split; [first [exact Hrun | reflexivity]|].
  split; [exact Ht'|]. exact Hget.
Defined.

(** ** What the methods do to the registries *)

Section Within.
Context (R : World -> World -> Prop).
Hypothesis R_refl : forall w, R w w.
Hypothesis R_trans : forall a b c, R a b -> R b c -> R a c.
Hypothesis R_frames :
  forall w f n, R w (mkWorld f n (imputers w) (encoders w) (scalers w)).

Lemma within_ret {A} (a : A) : within R (ret a).
Proof. intros w. apply R_refl. Qed.

Lemma within_raise {A} (e : exn) : within R (@raise A e).
Proof. intros w. apply R_refl. Qed.

Lemma within_lift {A} (o : Outcome A) : within R (lift o).
Proof. intros w. apply R_refl. Qed.

Lemma within_bind {A B} (c : M A) (k : A -> M B) :
  within R c -> (forall a, within R (k a)) -> within R (bind c k).
Proof.
  intros Hc Hk w. unfold bind. specialize (Hc w).
  destruct (c w) as [[a|e] w1]; simpl in *; [|exact Hc].
  eapply R_trans; [exact Hc | apply Hk].
Qed.

Lemma within_for_each {A S} (l : list A) (body : S -> A -> M S) :
  (forall s x, within R (body s x)) -> forall s, within R (for_each l body s).
Proof.
  intros Hbody. induction l as [|x l IH]; intros s; simpl.
  - apply within_ret.
  - apply within_bind; [apply Hbody | exact IH].
Qed.

Lemma within_read_frame (r : nat) : within R (read_frame r).
Proof. intros w. unfold read_frame. destruct (frames w !! r); apply R_refl. Qed.

Lemma within_new_frame (t : Table) : within R (new_frame t).
Proof. intros w. apply R_frames. Qed.

Lemma within_write_frame (r : nat) (t : Table) : within R (write_frame r t).
Proof. intros w. apply R_frames. Qed.

Lemma within_get_encoders : within R get_encoders.
Proof. intros w. apply R_refl. Qed.

Lemma within_get_scalers : within R get_scalers.
Proof. intros w. apply R_refl. Qed.

Lemma within_df_getitem (df : nat) (c : string) : within R (df_getitem df c).
Proof.
  unfold df_getitem. apply within_bind; [apply within_read_frame|].
  intros t. destruct (table_get t c); [apply within_ret | apply within_raise].
Qed.

Lemma within_df_setitem (df : nat) (c : string) (s : Series) : within R (df_setitem df c s).
Proof.
  unfold df_setitem. apply within_bind; [apply within_read_frame|].
  intros t. apply within_write_frame.
Qed.

Lemma within_df_copy (df : nat) : within R (df_copy df).
Proof.
  unfold df_copy. apply within_bind; [apply within_read_frame|].
  intros t. apply within_new_frame.
Qed.

Lemma within_df_columns (df : nat) : within R (df_columns df).
Proof.
  unfold df_columns. apply within_bind; [apply within_read_frame|].
  intros t. apply within_ret.
Qed.

Lemma within_df_drop (df : nat) (c : string) : within R (df_drop df c).
Proof.
  unfold df_drop. apply within_bind; [apply within_read_frame|].
  intros t. destruct (bool_decide (c ∈ columns t)); [apply within_new_frame | apply within_raise].
Qed.

Lemma within_pd_concat (df : nat) (new_columns : Table) : within R (pd_concat df new_columns).
Proof.
  unfold pd_concat. apply within_bind; [apply within_read_frame|].
  intros t. apply within_new_frame.
Qed.

Lemma within_df_getitems (df : nat) (cols : list string) : within R (df_getitems df cols).
Proof.
  induction cols as [|c cols IH]; simpl; [apply within_ret|].
  apply within_bind; [apply within_df_getitem|]. intros s.
  apply within_bind; [exact IH|]. intros l. apply within_ret.
Qed.

Lemma within_df_setitems (df : nat) (cols : list string) :
  forall l, within R (df_setitems df cols l).
Proof.
  induction cols as [|c cols IH]; intros [|s l]; simpl;
    try apply within_ret; try apply within_raise.
  apply within_bind; [apply within_df_setitem|]. intros _. apply IH.
Qed.

Lemma within_derive (df : nat) (dst src : string) (f : Series -> Series) :
  within R (derive df dst src f).
Proof.
  unfold derive. apply within_bind; [apply within_df_getitem|].
  intros x. apply within_df_setitem.
Qed.

End Within.

Ltac within_tac Hr Ht Hf :=
  repeat first
    [ progress intros
    | progress cbv zeta
    | apply (within_ret _ Hr)
    | apply (within_raise _ Hr)
    | apply (within_lift _ Hr)
    | apply (within_get_encoders _ Hr)
    | apply (within_get_scalers _ Hr)
    | apply (within_read_frame _ Hr)
    | apply (within_df_getitem _ Hr Ht)
    | apply (within_df_setitem _ Hr Ht Hf)
    | apply (within_df_copy _ Hr Ht Hf)
    | apply (within_df_columns _ Hr Ht)
    | apply (within_df_drop _ Hr Ht Hf)
    | apply (within_pd_concat _ Hr Ht Hf)
    | apply (within_df_getitems _ Hr Ht)
    | apply (within_df_setitems _ Hr Ht Hf)
    | apply (within_derive _ Hr Ht Hf)
    | apply (within_for_each _ Hr Ht)
    | apply (within_bind _ Ht)
    | match goal with
      | |- within _ (match ?x with _ => _ end) => destruct x
      end ].

Section AnalyzerRegistries.
Context (lib : Library) (R : World -> World -> Prop).
Hypothesis R_refl : forall w, R w w.
Hypothesis R_trans : forall a b c, R a b -> R b c -> R a c.
Hypothesis R_frames :
  forall w f n, R w (mkWorld f n (imputers w) (encoders w) (scalers w)).
Hypothesis R_imputer : forall k x, within R (set_imputer k x).
Hypothesis R_encoder : forall k x, within R (set_encoder k x).
Hypothesis R_scaler : forall x, within R (set_scaler "numeric_features" x).

(** The pipeline assigns imputers, encoders and the scaler
    [numeric_features], and does nothing else to the registries. *)
Lemma within_prepare_for_modeling (df : nat) (target seg : option string) :
  within R (prepare_for_modeling lib df target seg).
Proof.
  unfold prepare_for_modeling, _handle_missing_values, handle_missing_column,
    _process_datetime_columns, _encode_categorical_variables, encode_column,
    _scale_numeric_features, _prepare_segmentation.
  within_tac R_refl R_trans R_frames;
    first [apply R_imputer | apply R_encoder | apply R_scaler].
Qed.

End AnalyzerRegistries.

Lemma registries_grow_refl (w : World) : registries_grow w w.
Proof. repeat split; auto. Qed.

Lemma registries_grow_trans (a b c : World) :
  registries_grow a b -> registries_grow b c -> registries_grow a c.
Proof. intros (H1 & H2 & H3) (H4 & H5 & H6). repeat split; auto. Qed.

Lemma is_Some_insert `{Countable K} {A} (m : gmap K A) (k k' : K) (x : A) :
  is_Some (m !! k') -> is_Some (<[k := x]> m !! k').
Proof.
  intros Hk. destruct (decide (k = k')) as [->|Hne].
  - rewrite lookup_insert_eq. eauto.
  - rewrite lookup_insert_ne by exact Hne. exact Hk.
Qed.

Lemma analyzer_registries_refl (w : World) : analyzer_registries w w.
Proof. split; [apply registries_grow_refl | auto]. Qed.

Lemma analyzer_registries_trans (a b c : World) :
  analyzer_registries a b -> analyzer_registries b c -> analyzer_registries a c.
Proof.
  intros [H1 H2] [H3 H4]. split; [eapply registries_grow_trans; eassumption|].
  intros k Hk. rewrite H4, H2 by exact Hk. reflexivity.
Qed.

(** X11.  Whatever [prepare_for_modeling] does, and whether it returns or
    raises, no key leaves the imputer, encoder and scaler registries of the
    analyzer, and the only scaler it assigns is the one under
    [numeric_features].  The [encoders_used] and [scalers_used] it returns
    are the whole registries as they are at the end of the call, so every
    key registered before the call is in them. *)
Theorem X11_analyzer_registries (lib : Library) (w : World) (df : nat)
    (target seg : option string) :
  registries_grow w (snd (prepare_for_modeling lib df target seg w))
  /\ (forall k, k <> "numeric_features" ->
        scalers (snd (prepare_for_modeling lib df target seg w)) !! k = scalers w !! k)
  /\ forall r, fst (prepare_for_modeling lib df target seg w) = Ok r ->
       encoders_used r = encoders (snd (prepare_for_modeling lib df target seg w))
       /\ scalers_used r = scalers (snd (prepare_for_modeling lib df target seg w))
       /\ (forall k, is_Some (encoders w !! k) -> is_Some (encoders_used r !! k))
       /\ (forall k, is_Some (scalers w !! k) -> is_Some (scalers_used r !! k)).
Proof.
  assert (HR : analyzer_registries w (snd (prepare_for_modeling lib df target seg w))).
  { apply (within_prepare_for_modeling lib analyzer_registries
             analyzer_registries_refl analyzer_registries_trans).
    - intros w0 f n. repeat split; simpl; auto.
    - intros k x w0. split; [|auto]. repeat split; simpl; auto.
      intros k'. apply is_Some_insert.
    - intros k x w0. split; [|auto]. repeat split; simpl; auto.
      intros k'. apply is_Some_insert.
    - intros x w0. split.
      + repeat split; simpl; auto. intros k'. apply is_Some_insert.
      + intros k Hk. simpl. apply lookup_insert_ne. congruence. }
  destruct HR as [Hgrow Hsc]. split; [exact Hgrow|]. split; [exact Hsc|].
  intros r Hr.
  assert (Hused : encoders_used r = encoders (snd (prepare_for_modeling lib df target seg w))
                  /\ scalers_used r
                     = scalers (snd (prepare_for_modeling lib df target seg w))).
  { destruct (prepare_for_modeling lib df target seg w) as [o w'] eqn:Hrun.
    simpl in Hr. subst o. simpl. unfold prepare_for_modeling in Hrun.
    apply bind_ok_inv in Hrun as (p0 & w0 & _ & Hrun).
    apply bind_ok_inv in Hrun as (r1 & w1 & _ & Hrun).
    apply bind_ok_inv in Hrun as (r2 & w2 & _ & Hrun).
    apply bind_ok_inv in Hrun as (r3 & w3 & _ & Hrun).
    apply bind_ok_inv in Hrun as (r4 & w4 & _ & Hrun).
    apply bind_ok_inv in Hrun as (final_columns & w5 & _ & Hrun).
    apply bind_ok_inv in Hrun as (info & w6 & _ & Hrun).
    unfold bind, get_encoders, get_scalers, ret in Hrun.
    inversion Hrun; subst. auto. }
  destruct Hused as [He Hs]. split; [exact He|]. split; [exact Hs|].
  destruct Hgrow as (_ & Hge & Hgs). rewrite He, Hs. auto.
Qed.

(** ** [DataPreprocessor]: frames and registries *)

Lemma safe_scale_features (lib : Library) (n df : nat) (cols : option (list string))
    (method : string) :
  safe n (scale_features lib df cols method) (fun r => (n <= r)%nat).
Proof.
  unfold scale_features.
  eapply safe_bind with (P := fun _ => True); [destruct cols; safe_tac|].
  intros cols0 _.
  eapply safe_bind; [apply safe_df_copy|]. intros p Hp.
  eapply safe_bind with (P := fun _ => True); [repeat case_bool_decide; safe_tac|].
  intros sc _. safe_tac.
Qed.

Lemma safe_encode_categorical (lib : Library) (n df : nat) (cols : option (list string))
    (method : string) :
  safe n (encode_categorical lib df cols method) (fun r => (n <= r)%nat).
Proof.
  unfold encode_categorical.
  eapply safe_bind with (P := fun _ => True); [destruct cols; safe_tac|].
  intros cols0 _.
  eapply safe_bind; [apply safe_df_copy|]. intros p Hp.
  apply safe_for_each; [|exact Hp].
  intros p1 col Hp1. repeat case_bool_decide; safe_tac. apply safe_new_frame.
Qed.

(** X12.  Whatever [scale_features] and [encode_categorical] of
    [DataPreprocessor] do, and whether they return or raise, every frame
    the caller holds is afterwards what it was before, and the frame they
    return is a fresh one. *)
Theorem X12_preprocessor_keeps_caller_frames (lib : Library) (w : World) (df d : nat)
    (cols : option (list string)) (method : string) :
  (d < next_ref w)%nat ->
  frames (snd (scale_features lib df cols method w)) !! d = frames w !! d
  /\ frames (snd (encode_categorical lib df cols method w)) !! d = frames w !! d
  /\ (forall p, fst (scale_features lib df cols method w) = Ok p -> p <> d)
  /\ (forall p, fst (encode_categorical lib df cols method w) = Ok p -> p <> d).
Proof.
  intros Hd.
  destruct (safe_scale_features lib (next_ref w) df cols method w (Nat.le_refl _))
    as [[_ Hf1] Hr1].
  destruct (safe_encode_categorical lib (next_ref w) df cols method w (Nat.le_refl _))
    as [[_ Hf2] Hr2].
  split; [apply Hf1; exact Hd|]. split; [apply Hf2; exact Hd|].
  split; intros p Hp; [specialize (Hr1 p Hp) | specialize (Hr2 p Hp)]; lia.
Qed.

Lemma X12_witness :
  let w := world_of customers in
  (0 < next_ref w)%nat
  /\ frames (snd (scale_features plain_library 0 None "minmax" w)) !! 0%nat = frames w !! 0%nat
  /\ frames (snd (encode_categorical plain_library 0 None "onehot" w)) !! 0%nat
     = frames w !! 0%nat.
Proof.
  intros w.
  assert (H : (0 < next_ref w)%nat) by (vm_compute; lia).
  split; [exact H|].
  destruct (X12_preprocessor_keeps_caller_frames plain_library w 0 0 None "minmax" H)
    as (H1 & _ & _).
  destruct (X12_preprocessor_keeps_caller_frames plain_library w 0 0 None "onehot" H)
    as (_ & H2 & _).
  split; assumption.
Defined.

Lemma within_for_each_in (R : World -> World -> Prop)
    (R_refl : forall w, R w w) (R_trans : forall a b c, R a b -> R b c -> R a c)
    {A S} (l : list A) (body : S -> A -> M S) :
  (forall s x, In x l -> within R (body s x)) -> forall s, within R (for_each l body s).
Proof.
  induction l as [|x l IH]; intros Hbody s; simpl.
  - apply (within_ret _ R_refl).
  - apply (within_bind _ R_trans); [apply Hbody; simpl; auto|].
    intros s'. apply IH. intros s0 x0 Hx0. apply Hbody. simpl. auto.
Qed.

Lemma scaling_registries_refl (method : string) (w : World) : scaling_registries method w w.
Proof. repeat split; auto. Qed.

Lemma scaling_registries_trans (method : string) (a b c : World) :
  scaling_registries method a b -> scaling_registries method b c ->
  scaling_registries method a c.
Proof.
  intros (H1 & H2 & H3) (H4 & H5 & H6). split; [congruence|]. split; [congruence|].
  intros k Hk. rewrite H6, H3 by exact Hk. reflexivity.
Qed.

Lemma encoding_registries_refl (method : string) (l : list string) (w : World) :
  encoding_registries method l w w.
Proof. repeat split; auto. Qed.

Lemma encoding_registries_trans (method : string) (l : list string) (a b c : World) :
  encoding_registries method l a b -> encoding_registries method l b c ->
  encoding_registries method l a c.
Proof.
  intros (H1 & H2 & H3 & H4) (H5 & H6 & H7 & H8).
  split; [congruence|]. split; [congruence|]. split.
  - intros Hm. rewrite H7, H3 by exact Hm. reflexivity.
  - intros k Hk. rewrite H8, H4 by exact Hk. reflexivity.
Qed.

Lemma within_scale_features (lib : Library) (df : nat) (cols : option (list string))
    (method : string) :
  within (scaling_registries method) (scale_features lib df cols method).
Proof.
  assert (Hf : forall w f n,
             scaling_registries method w
               (mkWorld f n (imputers w) (encoders w) (scalers w)))
    by (intros; repeat split; auto).
  unfold scale_features.
  within_tac (scaling_registries_refl method) (scaling_registries_trans method) Hf.
  intros w. repeat split; simpl; auto.
  intros k Hk. apply lookup_insert_ne. congruence.
Qed.

Lemma within_encode_categorical (lib : Library) (df : nat) (l : list string)
    (method : string) :
  within (encoding_registries method l) (encode_categorical lib df (Some l) method).
Proof.
  assert (Hf : forall w f n,
             encoding_registries method l w
               (mkWorld f n (imputers w) (encoders w) (scalers w)))
    by (intros; repeat split; auto).
  pose proof (encoding_registries_refl method l) as Hr.
  pose proof (encoding_registries_trans method l) as Ht.
  intros w. unfold encode_categorical.
  rewrite (bind_run _ _ w w l eq_refl).
  revert w.
  match goal with
  | |- forall w, ?R w (snd (?c w)) => change (within R c)
  end.
  apply (within_bind _ Ht); [apply (within_df_copy _ Hr Ht Hf)|]. intros p.
  apply (within_for_each_in _ Hr Ht). intros p1 col Hcol.
  case_bool_decide as Hl; [|case_bool_decide as Ho].
  - within_tac Hr Ht Hf. intros w.
    split; [reflexivity|]. split; [reflexivity|]. split; [intros Hm; contradiction|].
    intros k Hk. simpl. apply lookup_insert_ne. intros ->.
    apply Hk, list_elem_of_In, Hcol.
  - within_tac Hr Ht Hf.
  - apply (within_ret _ Hr).
Qed.

(** X13.  [scale_features] of [DataPreprocessor] assigns nothing in the
    registries but the scaler under the method name, and when it returns
    the method is minmax or standard and that scaler is registered.
    [encode_categorical] leaves imputers and scalers alone; it assigns
    encoders only under the names of the columns it is given, and none at
    all when the method is not label: the one-hot method keeps no
    encoder.  All of this holds whether the call returns or raises. *)
Theorem X13_preprocessor_registries (lib : Library) (w : World) (df : nat)
    (cols : option (list string)) (l : list string) (method : string) :
  scaling_registries method w (snd (scale_features lib df cols method w))
  /\ (forall p, fst (scale_features lib df cols method w) = Ok p ->
        (method = "minmax" \/ method = "standard")
        /\ is_Some (scalers (snd (scale_features lib df cols method w)) !! method))
  /\ encoding_registries method l w (snd (encode_categorical lib df (Some l) method w)).
Proof.
  split; [apply within_scale_features|]. split; [|apply within_encode_categorical].
  intros p Hp.
  destruct (scale_features lib df cols method w) as [o w'] eqn:Hrun.
  simpl in Hp. subst o. simpl. unfold scale_features in Hrun.
  apply bind_ok_inv in Hrun as (cols0 & w1 & _ & Hrun).
  apply bind_ok_inv in Hrun as (p0 & w2 & _ & Hrun).
  apply bind_ok_inv in Hrun as (sc & w3 & Hsc & Hrun).
  apply bind_ok_inv in Hrun as (xs & w4 & _ & Hrun).
  destruct (fst sc xs) as [ys|]; [|discriminate].
  apply bind_ok_inv in Hrun as ([] & w5 & _ & Hrun).
  apply bind_ok_inv in Hrun as ([] & w6 & Hset & Hrun).
  unfold ret in Hrun. inversion Hrun; subst; clear Hrun.
  unfold set_scaler in Hset. inversion Hset; subst; clear Hset. simpl.
  split.
  - case_bool_decide as Hm; [auto|]. case_bool_decide as Hs; [auto|]. discriminate.
  - rewrite lookup_insert_eq. eauto.
Qed.

(** ** [DataPreprocessor.encode_categorical] with the label method *)

Section LabelMethod.
Context (lib : Library).

Lemma encode_categorical_label_run (w : World) (df : nat) (t : Table) (l : list string) :
  frames w !! df = Some t ->
  NoDup l ->
  (forall c, c ∈ l -> c ∈ columns t) ->
  exists w' t',
    encode_categorical lib df (Some l) "label" w = (Ok (next_ref w), w')
    /\ frames w' !! next_ref w = Some t'
    /\ columns t' = columns t
    /\ (forall c s, c ∈ l -> table_get t c = Some s ->
          table_get t' c = Some (fst (label_fit_transform lib s))
          /\ encoders w' !! c = Some (snd (label_fit_transform lib s)))
    /\ (forall c, c ∉ l ->
          table_get t' c = table_get t c /\ encoders w' !! c = encoders w !! c)
    /\ imputers w' = imputers w
    /\ scalers w' = scalers w.
Proof.
  intros Ht Hnd Hin. unfold encode_categorical.
  rewrite (bind_run _ _ w w l eq_refl).
  rewrite (bind_run _ _ _ _ _ (df_copy_copy_world w df t Ht)).
  pose proof (copy_world_fresh w t) as Hp0.
  set (w0 := copy_world w t) in *. set (p := next_ref w) in *.
  match goal with
  | |- context [for_each _ ?body _ _] => set (body0 := body)
  end.
  assert (Hloop : forall (cols : list string) (tp : Table) (w1 : World),
             frames w1 !! p = Some tp ->
             NoDup cols ->
             (forall c, c ∈ cols -> c ∈ columns tp) ->
             exists w2 tp',
               for_each cols body0 p w1 = (Ok p, w2)
               /\ frames w2 !! p = Some tp'
               /\ columns tp' = columns tp
               /\ (forall c s, c ∈ cols -> table_get tp c = Some s ->
                     table_get tp' c = Some (fst (label_fit_transform lib s))
                     /\ encoders w2 !! c = Some (snd (label_fit_transform lib s)))
               /\ (forall c, c ∉ cols ->
                     table_get tp' c = table_get tp c
                     /\ encoders w2 !! c = encoders w1 !! c)
               /\ imputers w2 = imputers w1
               /\ scalers w2 = scalers w1).
  { induction cols as [|c cols IH]; intros tp w1 Hp1 Hnd1 Hin1.
    - exists w1, tp. simpl. split; [reflexivity|]. split; [exact Hp1|].
      split; [reflexivity|]. split; [|auto].
      intros c0 s0 Hc0. apply elem_of_nil in Hc0. contradiction.
    - apply NoDup_cons in Hnd1 as [Hc Hnd1].
      destruct (table_get_in tp c) as [s Hs]; [apply Hin1, elem_of_cons; auto|].
      set (w1' := mkWorld (<[p := table_set tp c (fst (label_fit_transform lib s))]> (frames w1))
                          (next_ref w1) (imputers w1)
                          (<[c := snd (label_fit_transform lib s)]> (encoders w1))
                          (scalers w1)).
      assert (Hstep : body0 p c w1 = (Ok p, w1')).
      { subst body0. cbv beta. rewrite bool_decide_eq_true_2 by reflexivity.
        rewrite (bind_run _ _ _ _ _ (df_getitem_run w1 p tp c s Hp1 Hs)).
        cbv zeta.
        rewrite (bind_run _ _ _ _ _ (df_setitem_run w1 p tp c _ Hp1)).
        reflexivity. }
      assert (Hcols1 : columns (table_set tp c (fst (label_fit_transform lib s))) = columns tp).
      { apply columns_table_set. eapply table_get_some_in. exact Hs. }
      destruct (IH (table_set tp c (fst (label_fit_transform lib s))) w1')
        as (w2 & tp' & Hrun & Hp2 & Hcols & Hdone & Hrest & Himp & Hsc).
      { subst w1'. simpl. apply lookup_insert_eq. }
      { exact Hnd1. }
      { intros c0 Hc0. rewrite Hcols1. apply Hin1, elem_of_cons. auto. }
      exists w2, tp'. simpl. rewrite (bind_run _ _ _ _ _ Hstep).
      split; [exact Hrun|]. split; [exact Hp2|]. split; [congruence|].
      split; [|split; [|split; [exact Himp | exact Hsc]]].
      + intros c0 s0 Hc0 Hs0. apply elem_of_cons in Hc0 as [->|Hc0].
        * destruct (Hrest c Hc) as [Hg He]. rewrite Hg, He.
          rewrite Hs in Hs0. inversion Hs0; subst s0.
          split; [apply table_get_set_eq|]. subst w1'. simpl. apply lookup_insert_eq.
        * apply Hdone; [exact Hc0|].
          rewrite table_get_set_ne; [exact Hs0|]. intros ->. contradiction.
      + intros c0 Hc0. apply not_elem_of_cons in Hc0 as [Hne Hc0].
        destruct (Hrest c0 Hc0) as [Hg He]. rewrite Hg, He. split.
        * apply table_get_set_ne. congruence.
        * subst w1'. simpl. apply lookup_insert_ne. congruence. }
  destruct (Hloop l t w0 Hp0 Hnd Hin)
    as (w2 & t' & Hrun & Hp2 & Hcols & Hdone & Hrest & Himp & Hsc).
  exists w2, t'. auto 10.
Qed.

End LabelMethod.



(** ** [DataPreprocessor.scale_features]: the columns it writes *)

Lemma df_getitems_ok_columns (df : nat) (cols : list string) :
  forall (w w' : World) (xs : list Series) (tp : Table),
    frames w !! df = Some tp ->
    df_getitems df cols w = (Ok xs, w') ->
    forall c, c ∈ cols -> c ∈ columns tp.
Proof.
  induction cols as [|c0 cols IH]; intros w w' xs tp Htp H c Hc.
  - apply elem_of_nil in Hc. contradiction.
  - simpl in H. apply bind_ok_inv in H as (x & w1 & Hx & H).
    apply df_getitem_ok_inv in Hx as (-> & t0 & Ht0 & Hget).
    rewrite Htp in Ht0. inversion Ht0; subst t0.
    apply bind_ok_inv in H as (l & w2 & Hl & H).
    apply elem_of_cons in Hc as [->|Hc].
    + eapply table_get_some_in. exact Hget.
    + apply (IH w w2 l tp Htp Hl c Hc).
Qed.

Lemma select_dtypes_In (keep : dtype -> bool) (t : Table) (c : string) :
  c ∈ select_dtypes keep t -> exists s, In (c, s) t /\ keep (s_dtype s) = true.
Proof.
  unfold select_dtypes, columns. intros Hc.
  apply list_elem_of_In, in_map_iff in Hc as ([c' s] & Heq & Hin). simpl in Heq. subst c'.
  apply filter_In in Hin as [Hin Hk]. eauto.
Qed.

(** X15.  When [scale_features] of [DataPreprocessor] returns, the frame
    it returns is fresh and has the column names of the input in the same
    order; the columns it was given (by default those of dtype int64 or
    float64) are all columns of the input, and every other column holds
    what it held.  With the default, a column none of whose cells has a
    number dtype is therefore never changed. *)
Theorem X15_scale_features_writes_listed_columns (lib : Library) (w w' : World)
    (df p : nat) (t : Table) (cols : option (list string)) (method : string) :
  frames w !! df = Some t ->
  scale_features lib df cols method w = (Ok p, w') ->
  p = next_ref w
  /\ exists t', frames w' !! p = Some t'
       /\ columns t' = columns t
       /\ (forall c,
             c ∈ match cols with
                 | Some l => l
                 | None => select_dtypes is_number_dtype t
                 end -> c ∈ columns t)
       /\ (forall c,
             c ∉ match cols with
                 | Some l => l
                 | None => select_dtypes is_number_dtype t
                 end -> table_get t' c = table_get t c)
       /\ (cols = None ->
           forall c, (forall s, In (c, s) t -> is_number_dtype (s_dtype s) = false) ->
                     table_get t' c = table_get t c).
Proof.
  intros Ht Hrun. unfold scale_features in Hrun.
  apply bind_ok_inv in Hrun as (cols0 & w1 & Hcols0 & Hrun).
  assert (Hc0 : w1 = w /\ cols0 = match cols with
                                  | Some l => l
                                  | None => select_dtypes is_number_dtype t
                                  end).
  { destruct cols as [l|].
    - unfold ret in Hcols0. inversion Hcols0. auto.
    - rewrite (bind_run _ _ _ _ _ (read_frame_some df w t Ht)) in Hcols0.
      unfold ret in Hcols0. inversion Hcols0. auto. }
  destruct Hc0 as [-> Hc0]. rewrite <- Hc0.
  rewrite (bind_run _ _ _ _ _ (df_copy_copy_world w df t Ht)) in Hrun.
  pose proof (copy_world_fresh w t) as Hp0.
  apply bind_ok_inv in Hrun as (sc & w2 & Hsc & Hrun).
  assert (Hw2 : w2 = copy_world w t).
  { repeat case_bool_decide; unfold ret, raise in Hsc; inversion Hsc; reflexivity. }
  subst w2.
  apply bind_ok_inv in Hrun as (xs & w3 & Hget & Hrun).
  pose proof (df_getitems_ok_columns _ _ _ _ _ _ Hp0 Hget) as Hin.
  apply df_getitems_ok_inv in Hget as [-> _].
  destruct (fst sc xs) as [ys|]; [|discriminate].
  apply bind_ok_inv in Hrun as ([] & w4 & Hset & Hrun).
  destruct (df_setitems_ok_inv _ cols0 ys _ w4 t Hp0 Hset)
    as (t' & Hf & _ & _ & Hkeep & Hcols).
  unfold bind, set_scaler, ret in Hrun. inversion Hrun; subst p w'; clear Hrun.
  split; [reflexivity|]. exists t'. simpl.
  split; [rewrite Hf; apply lookup_insert_eq|].
  split; [apply Hcols; exact Hin|]. split; [exact Hin|]. split; [exact Hkeep|].
  intros -> c Hc. apply Hkeep. rewrite Hc0. intros Hsel.
  apply select_dtypes_In in Hsel as (s & Hs & Hk).
  rewrite (Hc s Hs) in Hk. discriminate.
Qed.

Lemma X15_witness :
  let w := world_of customers in
  exists w' t',
    frames w !! 0%nat = Some customers
    /\ scale_features plain_library 0 None "minmax" w = (Ok 1%nat, w')
    /\ frames w' !! 1%nat = Some t'
    /\ columns t' = columns customers
    /\ table_get t' "city" = table_get customers "city".
Proof.
  intros w.
  destruct (scale_features plain_library 0 None "minmax" w) as [[p|e] w'] eqn:Hrun;
    [|vm_compute in Hrun; discriminate].
  assert (Hp : p = 1%nat) by (vm_compute in Hrun; inversion Hrun; reflexivity).
  subst p.
  assert (H0 : frames w !! 0%nat = Some customers) by reflexivity.
  destruct (X15_scale_features_writes_listed_columns plain_library w w' 0 1 customers
              None "minmax" H0 Hrun) as (_ & t' & Ht' & Hcols & _ & _ & Hdefault).
  exists w', t'. split; [exact H0|]. split; [first [exact Hrun | reflexivity]|].
  split; [exact Ht'|]. split; [exact Hcols|].
  apply (Hdefault eq_refl). intros s Hs. simpl in Hs.
  destruct Hs as [Hs|[Hs|[]]]; inversion Hs; reflexivity.
Defined.

(** ** Stage 3: the encoders it registers *)

Section EncoderRegistry.
Context (lib : Library).

Lemma encode_column_encoders (w w' : World) (df p p' : nat) (t tp : Table)
    (target : option string) (steps steps' : list string) (c : string) (s : Series) :
  frames w !! df = Some t ->
  frames w !! p = Some tp ->
  table_get t c = Some s ->
  table_get tp c = Some s ->
  encode_column lib df target (p, steps) c w = (Ok (p', steps'), w') ->
  exists act, encoding_of lib target c s = Ok act
    /\ encoders w' = match encoder_of lib s act with
                     | Some e => <[c := e]> (encoders w)
                     | None => encoders w
                     end.
Proof.
  intros Ht Htp Hs Hps. unfold encode_column, encoding_of.
  simpl fst. simpl snd.
  destruct (is_target c target).
  { unfold ret. intros H; inversion H; subst. exists Keep. simpl. auto. }
  rewrite (bind_run _ _ _ _ _ (df_getitem_run w df t c s Ht Hs)).
  unfold bind at 1, lift at 1.
  destruct (_analyze_column lib s c) as [a|e]; [|discriminate]. simpl obind.
  destruct (detected_type a);
    try solve [unfold ret; intros H; inversion H; subst; exists Keep; simpl; auto].
  destruct (unique_count a <=? 10)%nat.
  - rewrite (bind_run _ _ _ _ _ (df_getitem_run w p tp c s Htp Hps)).
    unfold bind at 1, lift at 1, one_hot_fit_transform.
    destruct (fit_categories (s_values s)) as [cats|e]; [|discriminate]. simpl obind.
    cbv beta iota.
    rewrite (bind_run _ _ _ _ _ (df_drop_run w p tp c Htp (table_get_some_in tp c s Hps))).
    set (w1 := mkWorld _ _ _ _ _).
    assert (H1 : frames w1 !! next_ref w = Some (table_drop tp c)) by apply lookup_insert_eq.
    rewrite (bind_run _ _ _ _ _ (pd_concat_run w1 (next_ref w) _ _ H1)).
    unfold bind, set_encoder, ret. simpl. intros H; inversion H; subst; clear H.
    exists (OneHot cats). simpl. auto.
  - rewrite (bind_run _ _ _ _ _ (df_getitem_run w p tp c s Htp Hps)).
    rewrite (bind_run _ _ _ _ _ (df_setitem_run w p tp c _ Htp)).
    unfold bind, set_encoder, ret. simpl. intros H; inversion H; subst; clear H.
    exists Label. simpl. auto.
Qed.

Lemma encode_loop_encoders (df : nat) (t : Table) (target : option string) :
  no_name_clash lib target t ->
  forall (cols : list string) (steps steps' : list string) (w w' : World) (p p' : nat)
         (tp : Table),
    NoDup cols ->
    frames w !! df = Some t ->
    frames w !! p = Some tp ->
    (df < next_ref w)%nat ->
    (p < next_ref w)%nat ->
    p <> df ->
    (forall c, c ∈ cols -> exists s, table_get t c = Some s /\ table_get tp c = Some s) ->
    for_each cols (encode_column lib df target) (p, steps) w = (Ok (p', steps'), w') ->
    (forall k, k ∉ cols -> encoders w' !! k = encoders w !! k)
    /\ (forall c s, c ∈ cols -> table_get t c = Some s ->
          exists act, encoding_of lib target c s = Ok act
            /\ encoders w' !! c = match encoder_of lib s act with
                                  | Some e => Some e
                                  | None => encoders w !! c
                                  end).
Proof.
  intros Hclash. induction cols as [|c cols IH];
    intros steps steps' w w' p p' tp Hnd Ht Htp Hdf Hp Hne Hsame Hrun.
  - simpl in Hrun. unfold ret in Hrun. inversion Hrun; subst.
    split; [auto|]. intros c s Hc. apply elem_of_nil in Hc. contradiction.
  - simpl in Hrun. apply bind_ok_inv in Hrun as ([p1 steps1] & w1 & Hstep & Hrest).
    apply NoDup_cons in Hnd as [Hc Hnd].
    destruct (Hsame c) as (s & Hs & Hps); [apply elem_of_cons; auto|].
    destruct (encode_column_run lib w w1 df p p1 t tp target steps steps1 c s
                Ht Htp Hdf Hp Hne Hs Hps Hstep)
      as (act & Hact & Ht1 & Htp1 & Hdf1 & Hp1 & Hne1).
    destruct (encode_column_encoders w w1 df p p1 t tp target steps steps1 c s
                Ht Htp Hs Hps Hstep) as (act' & Hact' & Henc).
    rewrite Hact in Hact'. inversion Hact'; subst act'; clear Hact'.
    assert (Hother : forall c', c' ∈ columns t -> c <> c' ->
              table_get (apply_action lib c s act tp) c' = table_get tp c').
    { intros c' Hc' Hcc'. apply apply_action_get_other; [exact Hcc'|].
      intros cats Hcats cat Hcat Heq. subst act.
      apply (Hclash c s cats Hs Hact cat Hcat). rewrite Heq. exact Hc'. }
    destruct (IH steps1 steps' w1 w' p1 p' (apply_action lib c s act tp)
                Hnd Ht1 Htp1 Hdf1 Hp1 Hne1) as (Hkeys & Hdone).
    { intros c0 Hc0. destruct (Hsame c0) as (s0 & Hs0 & Hps0); [apply elem_of_cons; auto|].
      exists s0. split; [exact Hs0|]. rewrite Hother; [exact Hps0 | |].
      - eapply table_get_some_in. exact Hs0.
      - intros ->. contradiction. }
    { exact Hrest. }
    assert (Hstep_other : forall k, k <> c -> encoders w1 !! k = encoders w !! k).
    { intros k Hk. rewrite Henc. destruct (encoder_of lib s act); [|reflexivity].
      apply lookup_insert_ne. congruence. }
    split.
    + intros k Hk. apply not_elem_of_cons in Hk as [Hk1 Hk2].
      rewrite (Hkeys k Hk2). apply Hstep_other. exact Hk1.
    + intros c0 s0 Hc0 Hs0. apply elem_of_cons in Hc0 as [->|Hc0].
      * rewrite Hs in Hs0. inversion Hs0; subst s0. exists act. split; [exact Hact|].
        rewrite (Hkeys c Hc), Henc.
        destruct (encoder_of lib s act); [apply lookup_insert_eq | reflexivity].
      * destruct (Hdone c0 s0 Hc0 Hs0) as (act0 & Hact0 & He0).
        exists act0. split; [exact Hact0|]. rewrite He0.
        destruct (encoder_of lib s0 act0); [reflexivity|].
        apply Hstep_other. intros ->. contradiction.
Qed.

(** What stage 3 leaves in the encoder registry. *)
Lemma encode_categorical_variables_encoders (w w' : World) (df p : nat) (t : Table)
    (target : option string) (steps : list string) :
  frames w !! df = Some t ->
  (df < next_ref w)%nat ->
  NoDup (columns t) ->
  no_name_clash lib target t ->
  _encode_categorical_variables lib df target w = (Ok (p, steps), w') ->
  (forall k, k ∉ columns t -> encoders w' !! k = encoders w !! k)
  /\ (forall c s, table_get t c = Some s ->
        exists act, encoding_of lib target c s = Ok act
          /\ encoders w' !! c = match encoder_of lib s act with
                                | Some e => Some e
                                | None => encoders w !! c
                                end).
Proof.
  intros Ht Hdf Hnd Hclash. unfold _encode_categorical_variables.
  rewrite (bind_run _ _ _ _ _ (df_copy_run w df t Ht)).
  set (w0 := mkWorld _ _ _ _ _).
  assert (Ht0 : frames w0 !! df = Some t).
  { subst w0. simpl. rewrite lookup_insert_ne by lia. exact Ht. }
  assert (Hp0 : frames w0 !! next_ref w = Some t).
  { subst w0. simpl. apply lookup_insert_eq. }
  rewrite (bind_run _ _ _ _ _ (df_columns_run w0 df t Ht0)).
  intros Hrun.
  destruct (encode_loop_encoders df t target Hclash (columns t) [] steps w0 w' (next_ref w) p t
              Hnd Ht0 Hp0) as (H1 & H2).
  { subst w0. simpl. lia. }
  { subst w0. simpl. lia. }
  { lia. }
  { intros c Hc. destruct (table_get_in t c Hc) as [s Hs]. eauto. }
  { exact Hrun. }
  split; [exact H1|].
  intros c s Hs. apply H2; [|exact Hs]. eapply table_get_some_in. exact Hs.
Qed.

End EncoderRegistry.


